(** * Aeron IPC publication (driver) and ReplayMerge (archive client)

    A shallow embedding of
    - [aeron-driver/src/main/c/aeron_ipc_publication.c] and
    - [aeron-archive/src/main/cpp/client/ReplayMerge.h]
    together with the properties of their flow control, cleaning, tether
    state machine, reference counting and polling contract.

    Conventions.
    - A C integer of width [w] is a [Z]; every arithmetic operation of the
      source is followed by the wrap-around of its C type ([wrap64],
      [wrap32], [to_u64]).  Signed overflow is undefined in C; the model
      gives it the two's complement result of the target machines.
    - Pointers into the counters values buffer are addresses ([Z]) into a
      finite map; a term buffer is a list of bytes; a publication pointer
      that may be NULL is an [option].
    - An access outside the addressed object is a fault: the operation
      returns [None].
    - Calls that leave the translation unit (counters manager, allocator,
      conductor callbacks) and the ordered stores are recorded in a
      chronological trace of [event]s. *)

From Stdlib Require Import ZArith Lia.
From Stdlib.Strings Require Import Byte.
From stdpp Require Import base option list strings gmap.

Local Open Scope Z_scope.

(** ** Fixed width integers *)

Definition INT64_MAX : Z := 9223372036854775807.
Definition INT64_MIN : Z := -9223372036854775808.
Definition INT32_MAX : Z := 2147483647.
Definition INT32_MIN : Z := -2147483648.

(** Two's complement reduction of [x] to a signed [w]-bit integer. *)
Definition wrap (w : Z) (x : Z) : Z :=
  (x + 2 ^ (w - 1)) mod 2 ^ w - 2 ^ (w - 1).

Definition wrap64 : Z -> Z := wrap 64.
Definition wrap32 : Z -> Z := wrap 32.

(** Conversion to [size_t] / [uint64_t]. *)
Definition to_u64 (x : Z) : Z := x mod 2 ^ 64.

Definition add64 (a b : Z) : Z := wrap64 (a + b).
Definition sub64 (a b : Z) : Z := wrap64 (a - b).
Definition mul64 (a b : Z) : Z := wrap64 (a * b).
Definition sub32 (a b : Z) : Z := wrap32 (a - b).

Definition is_int64 (x : Z) : Prop := INT64_MIN <= x <= INT64_MAX.
Definition is_int32 (x : Z) : Prop := INT32_MIN <= x <= INT32_MAX.

(** ** Data model of the driver *)

Definition AERON_LOGBUFFER_PARTITION_COUNT : Z := 3.

Inductive aeron_subscription_tether_state_t :=
| AERON_SUBSCRIPTION_TETHER_ACTIVE
| AERON_SUBSCRIPTION_TETHER_LINGER
| AERON_SUBSCRIPTION_TETHER_RESTING.

Inductive aeron_ipc_publication_state_t :=
| AERON_IPC_PUBLICATION_STATE_ACTIVE
| AERON_IPC_PUBLICATION_STATE_INACTIVE
| AERON_IPC_PUBLICATION_STATE_LINGER.

#[global] Instance tether_state_eq_dec : EqDecision aeron_subscription_tether_state_t.
Proof. solve_decision. Defined.

#[global] Instance publication_state_eq_dec : EqDecision aeron_ipc_publication_state_t.
Proof. solve_decision. Defined.

(** [aeron_position_t]: a counter id and the address of its value. *)
Record aeron_position_t := mk_position {
  pos_counter_id : Z;
  pos_value_addr : Z
}.

(** [aeron_tetherable_position_t]: one slot of the subscribable array. *)
Record aeron_tetherable_position_t := mk_tetherable {
  counter_id : Z;
  value_addr : Z;
  subscription_registration_id : Z;
  is_tether : bool;
  state : aeron_subscription_tether_state_t;
  time_of_last_update_ns : Z
}.

(** [aeron_logbuffer_metadata_t], the fields this translation unit touches. *)
Record aeron_logbuffer_metadata_t := mk_metadata {
  term_tail_counters : list Z;
  active_term_count : Z;
  md_initial_term_id : Z;
  md_mtu_length : Z;
  md_term_length : Z;
  md_page_size : Z;
  md_correlation_id : Z;
  is_connected : Z;
  active_transport_count : Z;
  end_of_stream_position : Z;
  default_header : Z * Z * Z
}.

(** [aeron_mapped_raw_log_t].  [log_meta_data] of the publication points
    into the mapping, so the metadata lives here and nowhere else. *)
Record aeron_mapped_raw_log_t := mk_raw_log {
  term_buffers : list (list byte);
  log_meta_data : aeron_logbuffer_metadata_t;
  raw_term_length : Z
}.

(** [conductor_fields] of the publication. *)
Record aeron_ipc_publication_conductor_fields_t := mk_conductor_fields {
  subscribable : list aeron_tetherable_position_t;
  registration_id : Z;
  time_of_last_state_change : Z;
  has_reached_end_of_life : bool;
  trip_limit : Z;
  time_of_last_consumer_position_change : Z;
  pub_state : aeron_ipc_publication_state_t;
  refcnt : Z;
  consumer_position : Z;
  last_consumer_position : Z;
  clean_position : Z
}.

Record aeron_ipc_publication_t := mk_publication {
  conductor_fields : aeron_ipc_publication_conductor_fields_t;
  mapped_raw_log : aeron_mapped_raw_log_t;
  log_file_name : string;
  session_id : Z;
  stream_id : Z;
  pub_lmt_position : aeron_position_t;
  pub_pos_position : aeron_position_t;
  initial_term_id : Z;
  position_bits_to_shift : Z;
  term_window_length : Z;
  trip_gain : Z;
  unblock_timeout_ns : Z;
  is_exclusive : bool
}.

(** Field updates ([p->f = v]). *)

Definition set_subscribable (v : list aeron_tetherable_position_t)
    (c : aeron_ipc_publication_conductor_fields_t) :=
  mk_conductor_fields v (registration_id c) (time_of_last_state_change c)
    (has_reached_end_of_life c) (trip_limit c)
    (time_of_last_consumer_position_change c) (pub_state c) (refcnt c)
    (consumer_position c) (last_consumer_position c) (clean_position c).

Definition set_trip_limit (v : Z) (c : aeron_ipc_publication_conductor_fields_t) :=
  mk_conductor_fields (subscribable c) (registration_id c)
    (time_of_last_state_change c) (has_reached_end_of_life c) v
    (time_of_last_consumer_position_change c) (pub_state c) (refcnt c)
    (consumer_position c) (last_consumer_position c) (clean_position c).

Definition set_pub_state (v : aeron_ipc_publication_state_t)
    (c : aeron_ipc_publication_conductor_fields_t) :=
  mk_conductor_fields (subscribable c) (registration_id c)
    (time_of_last_state_change c) (has_reached_end_of_life c) (trip_limit c)
    (time_of_last_consumer_position_change c) v (refcnt c)
    (consumer_position c) (last_consumer_position c) (clean_position c).

Definition set_refcnt (v : Z) (c : aeron_ipc_publication_conductor_fields_t) :=
  mk_conductor_fields (subscribable c) (registration_id c)
    (time_of_last_state_change c) (has_reached_end_of_life c) (trip_limit c)
    (time_of_last_consumer_position_change c) (pub_state c) v
    (consumer_position c) (last_consumer_position c) (clean_position c).

Definition set_consumer_position (v : Z) (c : aeron_ipc_publication_conductor_fields_t) :=
  mk_conductor_fields (subscribable c) (registration_id c)
    (time_of_last_state_change c) (has_reached_end_of_life c) (trip_limit c)
    (time_of_last_consumer_position_change c) (pub_state c) (refcnt c)
    v (last_consumer_position c) (clean_position c).

Definition set_clean_position (v : Z) (c : aeron_ipc_publication_conductor_fields_t) :=
  mk_conductor_fields (subscribable c) (registration_id c)
    (time_of_last_state_change c) (has_reached_end_of_life c) (trip_limit c)
    (time_of_last_consumer_position_change c) (pub_state c) (refcnt c)
    (consumer_position c) (last_consumer_position c) v.

Definition set_conductor_fields (v : aeron_ipc_publication_conductor_fields_t)
    (p : aeron_ipc_publication_t) :=
  mk_publication v (mapped_raw_log p) (log_file_name p) (session_id p)
    (stream_id p) (pub_lmt_position p) (pub_pos_position p)
    (initial_term_id p) (position_bits_to_shift p) (term_window_length p)
    (trip_gain p) (unblock_timeout_ns p) (is_exclusive p).

Definition set_mapped_raw_log (v : aeron_mapped_raw_log_t)
    (p : aeron_ipc_publication_t) :=
  mk_publication (conductor_fields p) v (log_file_name p) (session_id p)
    (stream_id p) (pub_lmt_position p) (pub_pos_position p)
    (initial_term_id p) (position_bits_to_shift p) (term_window_length p)
    (trip_gain p) (unblock_timeout_ns p) (is_exclusive p).

Definition set_term_buffers (v : list (list byte)) (l : aeron_mapped_raw_log_t) :=
  mk_raw_log v (log_meta_data l) (raw_term_length l).

Definition set_log_meta_data (v : aeron_logbuffer_metadata_t)
    (l : aeron_mapped_raw_log_t) :=
  mk_raw_log (term_buffers l) v (raw_term_length l).

Definition set_end_of_stream_position (v : Z) (m : aeron_logbuffer_metadata_t) :=
  mk_metadata (term_tail_counters m) (active_term_count m)
    (md_initial_term_id m) (md_mtu_length m) (md_term_length m)
    (md_page_size m) (md_correlation_id m) (is_connected m)
    (active_transport_count m) v (default_header m).

Definition set_tails_and_term_count (tails : list Z) (term_count : Z)
    (m : aeron_logbuffer_metadata_t) :=
  mk_metadata tails term_count
    (md_initial_term_id m) (md_mtu_length m) (md_term_length m)
    (md_page_size m) (md_correlation_id m) (is_connected m)
    (active_transport_count m) (end_of_stream_position m) (default_header m).

(** ** The world outside the publication *)

(** What leaves the translation unit, in the order it happens. *)
Inductive event :=
| EvCounterSetOrdered (addr v : Z)
| EvPutOrderedEndOfStream (v : Z)
| EvCountersManagerFree (id : Z)
| EvFreeSubscribableArray
| EvMapRawLogClose (name : string)
| EvFreeLogFileName
| EvFreePublication
| EvOnUnavailableImage (pub_registration_id sub_registration_id stream : Z)
| EvOnAvailableImage (pub_registration_id stream session : Z) (name : string)
    (counter sub_registration_id : Z).

(** The counters values buffer and the trace. *)
Record world := mk_world {
  counters : gmap Z Z;
  trace : list event
}.

Definition emit (e : event) (w : world) : world :=
  mk_world (counters w) (trace w ++ [e]).

(** [aeron_counter_get] and [aeron_counter_get_volatile]: a load. *)
Definition aeron_counter_get (w : world) (addr : Z) : Z :=
  default 0 (counters w !! addr).

Definition aeron_counter_get_volatile (w : world) (addr : Z) : Z :=
  aeron_counter_get w addr.

(** [aeron_counter_set_ordered]: a store with release semantics. *)
Definition aeron_counter_set_ordered (w : world) (addr v : Z) : world :=
  mk_world (<[addr := v]> (counters w)) (trace w ++ [EvCounterSetOrdered addr v]).

(** ** Memory of a term buffer *)

(** [a[i]] for an index computed as a [size_t]. *)
Definition array_get {A} (a : list A) (i : Z) : option A :=
  if 0 <=? i then a !! Z.to_nat i else None.

(** [a[i] = v]; [None] when [i] is outside the array. *)
Definition array_set {A} (a : list A) (i : Z) (v : A) : option (list A) :=
  if (0 <=? i) && (i <? Z.of_nat (length a)) then Some (<[Z.to_nat i := v]> a)
  else None.

(** [memset(buf + start, 0, len)]; [None] when the range leaves the buffer.
    A buffer is an object of the address space: it has less than [2 ^ 64]
    bytes. *)
Definition memset_zero (buf : list byte) (start len : Z) : option (list byte) :=
  if (0 <=? start) && (0 <=? len) && (start + len <=? Z.of_nat (length buf))
     && (Z.of_nat (length buf) <? 2 ^ 64) then
    Some (take (Z.to_nat start) buf ++ replicate (Z.to_nat len) x00
            ++ drop (Z.to_nat (start + len)) buf)
  else None.

(** [AERON_PUT_ORDERED( *(uint64_t * )(buf + start), 0)]: eight bytes. *)
Definition put_ordered_zero_u64 (buf : list byte) (start : Z) : option (list byte) :=
  memset_zero buf start 8.

(** ** Helpers defined in headers

    [aeron_ipc_publication.c] calls inline functions that are defined in
    the headers it includes, and [extern] inline functions that it only
    declares.  The translation unit is embedded over any implementation of
    them. *)
Class LogbufferHeaders := {
  aeron_logbuffer_index_by_term_count : Z -> Z;
  aeron_logbuffer_index_by_position : Z -> Z -> Z;
  aeron_logbuffer_compute_log_length : Z -> Z -> Z;
  aeron_number_of_trailing_zeroes : Z -> Z;
  aeron_producer_window_length : Z -> Z -> Z;
  aeron_ipc_publication_producer_position : aeron_ipc_publication_t -> Z
}.

Section Publication.
Context {headers : LogbufferHeaders}.

(** *** [aeron_ipc_publication_clean_buffer] *)

(** The locals of the function, for a publication and its [clean_position]. *)
Definition clean_term_offset (publication : aeron_ipc_publication_t) : Z :=
  let clean_position := clean_position (conductor_fields publication) in
  let term_length := raw_term_length (mapped_raw_log publication) in
  Z.land (to_u64 clean_position) (to_u64 (term_length - 1)).

Definition clean_bytes_left_in_term (publication : aeron_ipc_publication_t) : Z :=
  let term_length := raw_term_length (mapped_raw_log publication) in
  to_u64 (term_length - clean_term_offset publication).

Definition clean_length (publication : aeron_ipc_publication_t) (position : Z) : Z :=
  let clean_position := clean_position (conductor_fields publication) in
  let bytes_to_clean := to_u64 (sub64 position clean_position) in
  let bytes_left_in_term := clean_bytes_left_in_term publication in
  if bytes_to_clean <? bytes_left_in_term then bytes_to_clean else bytes_left_in_term.

Definition clean_dirty_index (publication : aeron_ipc_publication_t) : Z :=
  aeron_logbuffer_index_by_position
    (clean_position (conductor_fields publication))
    (position_bits_to_shift publication).

Definition aeron_ipc_publication_clean_buffer
    (publication : aeron_ipc_publication_t) (position : Z)
    : option aeron_ipc_publication_t :=
  let clean_position := clean_position (conductor_fields publication) in
  if position >? clean_position then
    let dirty_index := clean_dirty_index publication in
    let term_offset := clean_term_offset publication in
    let length := clean_length publication position in
    let log := mapped_raw_log publication in
    buf ← array_get (term_buffers log) dirty_index;
    buf1 ← memset_zero buf (term_offset + 8) (to_u64 (length - 8));
    buf2 ← put_ordered_zero_u64 buf1 term_offset;
    buffers ← array_set (term_buffers log) dirty_index buf2;
    Some (set_conductor_fields
            (set_clean_position (wrap64 (to_u64 clean_position + length))
               (conductor_fields publication))
            (set_mapped_raw_log (set_term_buffers buffers log) publication))
  else Some publication.

(** *** [aeron_ipc_publication_update_pub_lmt] *)

(** One iteration of the scan over the subscribable array. *)
Definition scan_position (w : world) (acc : Z * Z)
    (tetherable_position : aeron_tetherable_position_t) : Z * Z :=
  let '(min_sub_pos, max_sub_pos) := acc in
  if decide (AERON_SUBSCRIPTION_TETHER_RESTING ≠ state tetherable_position) then
    let position := aeron_counter_get_volatile w (value_addr tetherable_position) in
    (if position <? min_sub_pos then position else min_sub_pos,
     if position >? max_sub_pos then position else max_sub_pos)
  else acc.

Definition scan_positions (w : world) (publication : aeron_ipc_publication_t) : Z * Z :=
  fold_left (scan_position w)
    (subscribable (conductor_fields publication))
    (INT64_MAX, consumer_position (conductor_fields publication)).

Definition aeron_ipc_publication_update_pub_lmt
    (w : world) (publication : aeron_ipc_publication_t)
    : option (world * aeron_ipc_publication_t * Z) :=
  if decide (0%nat = length (subscribable (conductor_fields publication))) then
    Some (w, publication, 0)
  else
    let work_count := 0 in
    let '(min_sub_pos, max_sub_pos) := scan_positions w publication in
    if decide (0%nat = length (subscribable (conductor_fields publication))) then
      let w1 :=
        aeron_counter_set_ordered w
          (pos_value_addr (pub_lmt_position publication)) max_sub_pos in
      Some (w1,
            set_conductor_fields
              (set_trip_limit max_sub_pos (conductor_fields publication))
              publication,
            work_count)
    else
      let proposed_limit := add64 min_sub_pos (term_window_length publication) in
      if proposed_limit >? trip_limit (conductor_fields publication) then
        publication1 ← aeron_ipc_publication_clean_buffer publication min_sub_pos;
        let w1 :=
          aeron_counter_set_ordered w
            (pos_value_addr (pub_lmt_position publication1)) proposed_limit in
        let publication2 :=
          set_conductor_fields
            (set_trip_limit (add64 proposed_limit (trip_gain publication1))
               (conductor_fields publication1))
            publication1 in
        Some (w1,
              set_conductor_fields
                (set_consumer_position max_sub_pos (conductor_fields publication2))
                publication2,
              1)
      else
        Some (w,
              set_conductor_fields
                (set_consumer_position max_sub_pos (conductor_fields publication))
                publication,
              work_count).

(** *** [aeron_ipc_publication_check_untethered_subscriptions] *)

(** The two timeouts read through [conductor->context]. *)
Record aeron_driver_timeouts_t := mk_timeouts {
  untethered_window_limit_timeout_ns : Z;
  untethered_resting_timeout_ns : Z
}.

Definition set_tether (s : aeron_subscription_tether_state_t) (now_ns : Z)
    (t : aeron_tetherable_position_t) :=
  mk_tetherable (counter_id t) (value_addr t) (subscription_registration_id t)
    (is_tether t) s now_ns.

Definition untethered_window_limit (publication : aeron_ipc_publication_t) : Z :=
  let consumer_position := consumer_position (conductor_fields publication) in
  let term_window_length := term_window_length publication in
  add64 (sub64 consumer_position term_window_length) (Z.quot term_window_length 8).

(** The body of the loop for one slot of the array. *)
Definition check_untethered_slot (context : aeron_driver_timeouts_t)
    (publication : aeron_ipc_publication_t) (now_ns : Z)
    (w : world) (tetherable_position : aeron_tetherable_position_t)
    : world * aeron_tetherable_position_t :=
  let consumer_position := consumer_position (conductor_fields publication) in
  if is_tether tetherable_position then
    (w, set_tether (state tetherable_position) now_ns tetherable_position)
  else
    let window_limit_timeout_ns := untethered_window_limit_timeout_ns context in
    let resting_timeout_ns := untethered_resting_timeout_ns context in
    match state tetherable_position with
    | AERON_SUBSCRIPTION_TETHER_ACTIVE =>
        if aeron_counter_get_volatile w (value_addr tetherable_position)
             >? untethered_window_limit publication then
          (w, set_tether AERON_SUBSCRIPTION_TETHER_ACTIVE now_ns tetherable_position)
        else if now_ns >?
                  add64 (time_of_last_update_ns tetherable_position)
                    window_limit_timeout_ns then
          (emit (EvOnUnavailableImage
                   (registration_id (conductor_fields publication))
                   (subscription_registration_id tetherable_position)
                   (stream_id publication)) w,
           set_tether AERON_SUBSCRIPTION_TETHER_LINGER now_ns tetherable_position)
        else (w, tetherable_position)
    | AERON_SUBSCRIPTION_TETHER_LINGER =>
        if now_ns >?
             add64 (time_of_last_update_ns tetherable_position)
               window_limit_timeout_ns then
          (w, set_tether AERON_SUBSCRIPTION_TETHER_RESTING now_ns tetherable_position)
        else (w, tetherable_position)
    | AERON_SUBSCRIPTION_TETHER_RESTING =>
        if now_ns >?
             add64 (time_of_last_update_ns tetherable_position)
               resting_timeout_ns then
          let w1 :=
            aeron_counter_set_ordered w (value_addr tetherable_position)
              consumer_position in
          (emit (EvOnAvailableImage
                   (registration_id (conductor_fields publication))
                   (stream_id publication) (session_id publication)
                   (log_file_name publication)
                   (counter_id tetherable_position)
                   (subscription_registration_id tetherable_position)) w1,
           set_tether AERON_SUBSCRIPTION_TETHER_ACTIVE now_ns tetherable_position)
        else (w, tetherable_position)
    end.

(** The loop: slots are updated in place, in array order. *)
Fixpoint check_untethered_loop (context : aeron_driver_timeouts_t)
    (publication : aeron_ipc_publication_t) (now_ns : Z)
    (w : world) (array : list aeron_tetherable_position_t)
    : world * list aeron_tetherable_position_t :=
  match array with
  | [] => (w, [])
  | tetherable_position :: rest =>
      let '(w1, slot) :=
        check_untethered_slot context publication now_ns w tetherable_position in
      let '(w2, rest') := check_untethered_loop context publication now_ns w1 rest in
      (w2, slot :: rest')
  end.

Definition aeron_ipc_publication_check_untethered_subscriptions
    (context : aeron_driver_timeouts_t) (w : world)
    (publication : aeron_ipc_publication_t) (now_ns : Z)
    : world * aeron_ipc_publication_t :=
  let '(w1, array) :=
    check_untethered_loop context publication now_ns w
      (subscribable (conductor_fields publication)) in
  (w1, set_conductor_fields
         (set_subscribable array (conductor_fields publication)) publication).

(** *** [aeron_ipc_publication_incref] and [aeron_ipc_publication_decref] *)

Definition aeron_ipc_publication_incref (publication : aeron_ipc_publication_t)
    : aeron_ipc_publication_t :=
  set_conductor_fields
    (set_refcnt (wrap32 (refcnt (conductor_fields publication) + 1))
       (conductor_fields publication))
    publication.

Definition aeron_ipc_publication_decref
    (w : world) (publication : aeron_ipc_publication_t)
    : world * aeron_ipc_publication_t :=
  let ref_count := wrap32 (refcnt (conductor_fields publication) - 1) in
  let publication1 :=
    set_conductor_fields
      (set_refcnt ref_count (conductor_fields publication)) publication in
  if decide (0 = ref_count) then
    let publication2 :=
      set_conductor_fields
        (set_pub_state AERON_IPC_PUBLICATION_STATE_INACTIVE
           (conductor_fields publication1))
        publication1 in
    let producer_position := aeron_ipc_publication_producer_position publication2 in
    let pub_lmt := pos_value_addr (pub_lmt_position publication2) in
    let w1 :=
      if aeron_counter_get w pub_lmt >? producer_position then
        aeron_counter_set_ordered w pub_lmt producer_position
      else w in
    let log := mapped_raw_log publication2 in
    (emit (EvPutOrderedEndOfStream producer_position) w1,
     set_mapped_raw_log
       (set_log_meta_data
          (set_end_of_stream_position producer_position (log_meta_data log)) log)
       publication2)
  else (w, publication1).

(** *** [aeron_ipc_publication_close] *)

(** A load through a pointer: a fault when the pointer is NULL. *)
Definition deref {A} (pointer : option A) : option A := pointer.

Definition free_subscriber_counters (w : world)
    (array : list aeron_tetherable_position_t) : world :=
  fold_left (fun w tp => emit (EvCountersManagerFree (counter_id tp)) w) array w.

Definition aeron_ipc_publication_close
    (w : world) (publication : option aeron_ipc_publication_t) : option world :=
  pub_lmt ← pos_counter_id ∘ pub_lmt_position <$> deref publication;
  let w1 := emit (EvCountersManagerFree pub_lmt) w in
  pub_pos ← pos_counter_id ∘ pub_pos_position <$> deref publication;
  let w2 := emit (EvCountersManagerFree pub_pos) w1 in
  array ← subscribable ∘ conductor_fields <$> deref publication;
  let w3 := free_subscriber_counters w2 array in
  let w4 := emit EvFreeSubscribableArray w3 in
  w5 ← match publication with
       | Some _ =>
           name ← log_file_name <$> deref publication;
           Some (emit EvFreeLogFileName (emit (EvMapRawLogClose name) w4))
       | None => Some w4
       end;
  Some (emit EvFreePublication w5).

(** *** [aeron_ipc_publication_create] *)

Definition ENOMEM : Z := 12.
Definition ENOSPC : Z := 28.

(** [aeron_uri_publication_params_t], the fields read by the constructor. *)
Record aeron_uri_publication_params_t := mk_params {
  is_replay : bool;
  is_sparse : bool;
  mtu_length : Z;
  term_length : Z;
  term_offset : Z;
  term_id : Z
}.

(** What the constructor obtains from [aeron_driver_context_t] and from the
    allocator: the value of each call, in the order of the calls.
    [map_raw_log_func] answers with an error code or with the mapping. *)
Record aeron_driver_context_t := mk_context {
  usable_fs_space : Z;
  file_page_size : Z;
  nano_clock : Z;
  map_raw_log_func : string -> bool -> Z -> Z -> Z + aeron_mapped_raw_log_t;
  ipc_publication_window_length : Z;
  publication_unblock_timeout_ns : Z;
  alloc_publication_ok : bool;
  alloc_log_file_name_ok : bool
}.

(** One iteration of the loop of the replay branch, for [i]; the state is
    the tail counters and [active_index]. *)
Definition replay_tail_step (term_id : Z) (acc : option (list Z * Z)) (i : Z)
    : option (list Z * Z) :=
  '(tails, active_index) ← acc;
  let expected_term_id := sub64 (add64 term_id i) AERON_LOGBUFFER_PARTITION_COUNT in
  let active_index := to_u64 (active_index + 1) `mod` AERON_LOGBUFFER_PARTITION_COUNT in
  tails1 ← array_set tails active_index (mul64 expected_term_id (Z.shiftl 1 32));
  Some (tails1, active_index).

(** One iteration of the loop of the other branch. *)
Definition initial_tail_step (initial_term_id : Z) (acc : option (list Z)) (i : Z)
    : option (list Z) :=
  tails ← acc;
  let expected_term_id :=
    wrap32 (wrap32 (initial_term_id + i) - AERON_LOGBUFFER_PARTITION_COUNT) in
  array_set tails i (mul64 expected_term_id (Z.shiftl 1 32)).

(** Lines 89 to 117: the tail counters and [active_term_count] as the
    branch leaves them. *)
Definition init_term_tail_counters (params : aeron_uri_publication_params_t)
    (initial_term_id : Z) (tails : list Z) : option (list Z * Z) :=
  if is_replay params then
    let term_id := term_id params in
    let term_count := sub32 (term_id) initial_term_id in
    let active_index := aeron_logbuffer_index_by_term_count term_count in
    tails1 ← array_set tails active_index
               (wrap64 (Z.lor (mul64 term_id (Z.shiftl 1 32)) (term_offset params)));
    '(tails2, _) ← fold_left (replay_tail_step term_id) [1; 2]
                     (Some (tails1, active_index));
    Some (tails2, term_count)
  else
    tails1 ← array_set tails 0 (mul64 initial_term_id (Z.shiftl 1 32));
    tails2 ← fold_left (initial_tail_step initial_term_id) [1; 2] (Some tails1);
    Some (tails2, 0).

(** The result is [None] for a fault, [inl errcode] when the function
    returns [-1] (and stores NULL), [inr publication] when it returns [0]. *)
Definition aeron_ipc_publication_create
    (context : aeron_driver_context_t) (path : string)
    (session_id stream_id registration_id : Z)
    (pub_pos_position pub_lmt_position : aeron_position_t)
    (initial_term_id : Z) (params : aeron_uri_publication_params_t)
    (is_exclusive : bool)
    : option (Z + aeron_ipc_publication_t) :=
  let usable_fs_space := usable_fs_space context in
  let log_length :=
    aeron_logbuffer_compute_log_length (term_length params) (file_page_size context) in
  let now_ns := nano_clock context in
  if usable_fs_space <? log_length then Some (inl ENOSPC)
  else if negb (alloc_publication_ok context) then Some (inl ENOMEM)
  else if negb (alloc_log_file_name_ok context) then Some (inl ENOMEM)
  else
    match map_raw_log_func context path (is_sparse params) (term_length params)
            (file_page_size context) with
    | inl errcode => Some (inl errcode)
    | inr mapped_raw_log =>
        let meta := log_meta_data mapped_raw_log in
        '(tails, term_count) ← init_term_tail_counters params initial_term_id
                                 (term_tail_counters meta);
        let meta_after_branch := set_tails_and_term_count tails term_count meta in
        let meta1 :=
          mk_metadata (term_tail_counters meta_after_branch)
            0 (* line 119: [active_term_count = 0], whatever the branch stored *)
            initial_term_id
            (wrap32 (mtu_length params))
            (wrap32 (term_length params))
            (wrap32 (file_page_size context))
            registration_id
            0
            0
            INT64_MAX
            (session_id, stream_id, initial_term_id) in
        let term_window_length :=
          aeron_producer_window_length (ipc_publication_window_length context)
            (term_length params) in
        let _pub (position : Z) :=
          mk_publication
            (mk_conductor_fields [] registration_id 0 false 0 now_ns
               AERON_IPC_PUBLICATION_STATE_ACTIVE 1 position position position)
            (set_log_meta_data meta1 mapped_raw_log)
            path session_id stream_id pub_lmt_position pub_pos_position
            initial_term_id
            (aeron_number_of_trailing_zeroes (wrap32 (term_length params)))
            term_window_length
            (Z.quot term_window_length 8)
            (publication_unblock_timeout_ns context)
            is_exclusive in
        Some (inr (_pub (aeron_ipc_publication_producer_position (_pub 0))))
    end.

End Publication.

(** ** Time events

    [aeron_ipc_publication_on_time_event] and
    [aeron_ipc_publication_check_for_blocked_publisher] call into the
    conductor, the unblocker and two [extern] inline functions of the
    publication header. *)

(** [conductor->context] and [conductor->ipc_subscriptions], over the
    type [link] of [aeron_subscription_link_t]. *)
Record aeron_driver_conductor_t (link : Type) := mk_conductor {
  context : aeron_driver_timeouts_t;
  ipc_subscriptions : list link
}.
Arguments mk_conductor {link} _ _.
Arguments context {link} _.
Arguments ipc_subscriptions {link} _.

(** What the two functions use and this unit does not define:
    [aeron_subscription_link_t] with its [registration_id],
    [aeron_driver_conductor_is_subscribable_linked],
    [aeron_ipc_publication_is_drained] (it loads counters),
    [aeron_ipc_publication_is_possibly_blocked],
    [aeron_logbuffer_unblocker_unblock] over the term buffers and the
    metadata it is handed, and the address that [create] obtains from
    [aeron_system_counter_addr] and keeps in
    [unblocked_publications_counter]. *)
Class ConductorExterns := {
  aeron_subscription_link_t : Type;
  link_registration_id : aeron_subscription_link_t -> Z;
  aeron_driver_conductor_is_subscribable_linked :
    aeron_subscription_link_t -> list aeron_tetherable_position_t -> bool;
  aeron_ipc_publication_is_drained : world -> aeron_ipc_publication_t -> bool;
  aeron_ipc_publication_is_possibly_blocked :
    aeron_ipc_publication_t -> Z -> Z -> bool;
  aeron_logbuffer_unblocker_unblock :
    list (list byte) -> aeron_logbuffer_metadata_t -> Z
    -> bool * (list (list byte) * aeron_logbuffer_metadata_t);
  unblocked_publications_counter : Z
}.

(** Modelled from the spec: [aeron_counter_ordered_increment] is defined in
    a header; the spec gives [incrementOrdered(id, d)] as a release-ordered
    read-modify-write of the counter. *)
Definition aeron_counter_ordered_increment (w : world) (addr v : Z) : world :=
  aeron_counter_set_ordered w addr (add64 (aeron_counter_get w addr) v).

Definition set_has_reached_end_of_life (v : bool)
    (c : aeron_ipc_publication_conductor_fields_t) :=
  mk_conductor_fields (subscribable c) (registration_id c)
    (time_of_last_state_change c) v (trip_limit c)
    (time_of_last_consumer_position_change c) (pub_state c) (refcnt c)
    (consumer_position c) (last_consumer_position c) (clean_position c).

Definition set_time_of_last_state_change (v : Z)
    (c : aeron_ipc_publication_conductor_fields_t) :=
  mk_conductor_fields (subscribable c) (registration_id c)
    v (has_reached_end_of_life c) (trip_limit c)
    (time_of_last_consumer_position_change c) (pub_state c) (refcnt c)
    (consumer_position c) (last_consumer_position c) (clean_position c).

Definition set_time_of_last_consumer_position_change (v : Z)
    (c : aeron_ipc_publication_conductor_fields_t) :=
  mk_conductor_fields (subscribable c) (registration_id c)
    (time_of_last_state_change c) (has_reached_end_of_life c) (trip_limit c)
    v (pub_state c) (refcnt c)
    (consumer_position c) (last_consumer_position c) (clean_position c).

Definition set_last_consumer_position (v : Z)
    (c : aeron_ipc_publication_conductor_fields_t) :=
  mk_conductor_fields (subscribable c) (registration_id c)
    (time_of_last_state_change c) (has_reached_end_of_life c) (trip_limit c)
    (time_of_last_consumer_position_change c) (pub_state c) (refcnt c)
    (consumer_position c) v (clean_position c).

Section TimeEvents.
Context {headers : LogbufferHeaders} {externs : ConductorExterns}.

(** Lines 432 to 438 and 378 to 384: the unblocker runs over the mapped
    log at [consumer_position]; a success is counted. *)
Definition unblock_and_count (w : world) (publication : aeron_ipc_publication_t)
    : world * aeron_ipc_publication_t :=
  let log := mapped_raw_log publication in
  let '(unblocked, (buffers, meta)) :=
    aeron_logbuffer_unblocker_unblock (term_buffers log) (log_meta_data log)
      (consumer_position (conductor_fields publication)) in
  let publication1 :=
    set_mapped_raw_log (set_log_meta_data meta (set_term_buffers buffers log))
      publication in
  if unblocked then
    (aeron_counter_ordered_increment w unblocked_publications_counter 1, publication1)
  else (w, publication1).

(** *** [aeron_ipc_publication_check_for_blocked_publisher] *)

Definition aeron_ipc_publication_check_for_blocked_publisher
    (w : world) (publication : aeron_ipc_publication_t)
    (producer_position now_ns : Z) : world * aeron_ipc_publication_t :=
  let consumer_position := consumer_position (conductor_fields publication) in
  if (consumer_position =? last_consumer_position (conductor_fields publication))
     && aeron_ipc_publication_is_possibly_blocked publication producer_position
          consumer_position then
    if now_ns >?
         add64 (time_of_last_consumer_position_change (conductor_fields publication))
           (unblock_timeout_ns publication) then
      unblock_and_count w publication
    else (w, publication)
  else
    (w, set_conductor_fields
          (set_last_consumer_position consumer_position
             (set_time_of_last_consumer_position_change now_ns
                (conductor_fields publication)))
          publication).

(** *** [aeron_ipc_publication_on_time_event] *)

(** The loop over [conductor->ipc_subscriptions] of the INACTIVE case. *)
Definition notify_linked_subscriptions
    (conductor : aeron_driver_conductor_t aeron_subscription_link_t)
    (publication : aeron_ipc_publication_t) (w : world) : world :=
  fold_left
    (fun w link =>
       if aeron_driver_conductor_is_subscribable_linked link
            (subscribable (conductor_fields publication)) then
         emit (EvOnUnavailableImage
                 (registration_id (conductor_fields publication))
                 (link_registration_id link) (stream_id publication)) w
       else w)
    (ipc_subscriptions conductor) w.

Definition aeron_ipc_publication_on_time_event
    (conductor : aeron_driver_conductor_t aeron_subscription_link_t)
    (w : world) (publication : aeron_ipc_publication_t) (now_ns now_ms : Z)
    : world * aeron_ipc_publication_t :=
  let producer_position := aeron_ipc_publication_producer_position publication in
  let w0 :=
    aeron_counter_set_ordered w (pos_value_addr (pub_pos_position publication))
      producer_position in
  match pub_state (conductor_fields publication) with
  | AERON_IPC_PUBLICATION_STATE_ACTIVE =>
      let '(w1, publication1) :=
        aeron_ipc_publication_check_untethered_subscriptions (context conductor)
          w0 publication now_ns in
      if negb (is_exclusive publication1) then
        aeron_ipc_publication_check_for_blocked_publisher w1 publication1
          producer_position now_ns
      else (w1, publication1)
  | AERON_IPC_PUBLICATION_STATE_INACTIVE =>
      if aeron_ipc_publication_is_drained w0 publication then
        let fields1 :=
          set_pub_state AERON_IPC_PUBLICATION_STATE_LINGER
            (conductor_fields publication) in
        let publication1 :=
          set_conductor_fields (set_time_of_last_state_change now_ns fields1)
            publication in
        (notify_linked_subscriptions conductor publication1 w0, publication1)
      else unblock_and_count w0 publication
  | AERON_IPC_PUBLICATION_STATE_LINGER =>
      (w0, set_conductor_fields
             (set_has_reached_end_of_life true (conductor_fields publication))
             publication)
  end.

End TimeEvents.

(** ** ReplayMerge

    [ReplayMerge.h] defines [doWork], [poll] and the two predicates inline;
    the five state handlers and [Image] are defined elsewhere. *)
Module ReplayMerge.

(** Modelled from the spec: [LogBufferDescriptor::TERM_MIN_LENGTH] is
    defined outside this header; the spec gives
    [LIVE_ADD_THRESHOLD = termMinLength / 4 = 16_384]. *)
Definition TERM_MIN_LENGTH : Z := 65536.
Definition REPLAY_MERGE_LIVE_ADD_THRESHOLD : Z := Z.quot TERM_MIN_LENGTH 4.
Definition REPLAY_MERGE_REPLAY_REMOVE_THRESHOLD : Z := 0.

Inductive State :=
| GET_RECORDING_POSITION
| REPLAY
| CATCHUP
| ATTEMPT_LIVE_JOIN
| STOP_REPLAY
| MERGED
| CLOSED.

#[global] Instance State_eq_dec : EqDecision State.
Proof. solve_decision. Defined.

(** What the controller observes of [Image]: [activeTransportCount()] and
    the position [Image::poll] advances. *)
Record Image := mk_image {
  activeTransportCount : Z;
  image_position : Z
}.

Record t := mk {
  m_state : State;
  m_image : option Image;
  m_activeCorrelationId : Z;
  m_nextTargetPosition : Z;
  m_replaySessionId : Z;
  m_isLiveAdded : bool;
  m_isReplayActive : bool
}.

(** Calls made by the controller, in order. *)
Inductive call :=
| CallDoWork (s : State)
| CallHandler (s : State)
| CallImagePoll (fragmentLimit : Z).

(** The member functions declared in the header and defined elsewhere
    ([getRecordingPosition], [replay], [catchup], [attemptLiveJoin],
    [stopReplay]) and [Image::poll]; each returns its [int] and the object
    as it leaves it.  [FragmentHandler] is the type [F] of the template. *)
Class Externals := {
  FragmentHandler : Type;
  getRecordingPosition : t -> Z * t;
  replay : t -> Z * t;
  catchup : t -> Z * t;
  attemptLiveJoin : t -> Z * t;
  stopReplay : t -> Z * t;
  image_poll : Image -> FragmentHandler -> Z -> Z * Image
}.

Section Controller.
Context {externals : Externals}.

Definition set_image (i : option Image) (rm : t) : t :=
  mk (m_state rm) i (m_activeCorrelationId rm) (m_nextTargetPosition rm)
    (m_replaySessionId rm) (m_isLiveAdded rm) (m_isReplayActive rm).

(** [workCount += handler()], with the call recorded. *)
Definition dispatch (handler : t -> Z * t) (workCount : Z) (rm : t)
    : Z * t * list call :=
  let '(n, rm1) := handler rm in
  (wrap32 (workCount + n), rm1, [CallDoWork (m_state rm); CallHandler (m_state rm)]).

Definition doWork (rm : t) : Z * t * list call :=
  let workCount := 0 in
  match m_state rm with
  | GET_RECORDING_POSITION => dispatch getRecordingPosition workCount rm
  | REPLAY => dispatch replay workCount rm
  | CATCHUP => dispatch catchup workCount rm
  | ATTEMPT_LIVE_JOIN => dispatch attemptLiveJoin workCount rm
  | STOP_REPLAY => dispatch stopReplay workCount rm
  | _ => (workCount, rm, [CallDoWork (m_state rm)])
  end.

Definition poll (rm : t) (fragmentHandler : FragmentHandler) (fragmentLimit : Z)
    : Z * t * list call :=
  let '(_, rm1, calls) := doWork rm in
  match m_image rm1 with
  | None => (0, rm1, calls)
  | Some image =>
      let '(fragments, image1) := image_poll image fragmentHandler fragmentLimit in
      (fragments, set_image (Some image1) rm1, calls ++ [CallImagePoll fragmentLimit])
  end.

Definition isMerged (rm : t) : bool := bool_decide (m_state rm = MERGED).

Definition image (rm : t) : option Image := m_image rm.

Definition isLiveAdded (rm : t) : bool := m_isLiveAdded rm.

Definition shouldAddLiveDestination (rm : t) (position : Z) : bool :=
  negb (m_isLiveAdded rm)
  && (sub64 (m_nextTargetPosition rm) position <=? REPLAY_MERGE_LIVE_ADD_THRESHOLD).

(** [&&] evaluates [m_image->activeTransportCount()] only after the first
    two operands are true; the call through a null [m_image] is a fault. *)
Definition shouldStopAndRemoveReplay (rm : t) (position : Z) : option bool :=
  if m_isLiveAdded rm then
    if sub64 (m_nextTargetPosition rm) position
         <=? REPLAY_MERGE_REPLAY_REMOVE_THRESHOLD then
      image ← deref (m_image rm);
      Some (activeTransportCount image >=? 2)
    else Some false
  else Some false.

End Controller.
End ReplayMerge.

(** ** A reference implementation of the header helpers *)

Fixpoint trailing_zeroes_pos (p : positive) : Z :=
  match p with
  | xO q => 1 + trailing_zeroes_pos q
  | _ => 0
  end.

(** Modelled from the spec: the inline helpers below are defined in
    headers that are not part of this translation unit.  The spec gives
    the active partition index as [activeTermCount mod P], a stream
    position as [((termId − initialTermId) << positionBitsToShift) +
    termOffset] with a tail counter packing [(termId << 32) | termOffset],
    [positionBitsToShift = ctz(termLength)], the window length as
    [min(configured, termLength / 2)] and the log length as
    [P × termLength + metadataLength] rounded up to the page size. *)
Definition spec_index_by_term_count (term_count : Z) : Z :=
  term_count `mod` AERON_LOGBUFFER_PARTITION_COUNT.

(** Modelled from the spec: [aeron_logbuffer_index_by_position] is defined
    in a header; the partition of a position is that of its term count,
    [position >> positionBitsToShift]. *)
Definition spec_index_by_position (position bits : Z) : Z :=
  Z.shiftr position bits `mod` AERON_LOGBUFFER_PARTITION_COUNT.

(** Modelled from the spec: [aeron_logbuffer_compute_log_length] is defined
    in a header; the file length is [P × termLength + metadataLength],
    rounded up to the page size. *)
Definition spec_compute_log_length (metadata_length term_length page_size : Z) : Z :=
  let length := AERON_LOGBUFFER_PARTITION_COUNT * term_length + metadata_length in
  (length + (page_size - 1)) `div` page_size * page_size.

(** Modelled from the spec: [aeron_number_of_trailing_zeroes] is defined in
    a header; [positionBitsToShift = ctz(termLength)]. *)
Definition spec_number_of_trailing_zeroes (value : Z) : Z :=
  match value with
  | Z0 => 32
  | Zpos p | Zneg p => trailing_zeroes_pos p
  end.

(** Modelled from the spec: [aeron_producer_window_length] is defined in a
    header; the window is [min(configured, termLength / 2)]. *)
Definition spec_producer_window_length (configured term_length : Z) : Z :=
  Z.min configured (term_length `div` 2).

(** Modelled from the spec: [aeron_ipc_publication_producer_position] is
    declared [extern] in this unit and defined in a header; the producer
    position is the stream position of the tail counter of the active
    partition. *)
Definition spec_producer_position (publication : aeron_ipc_publication_t) : Z :=
  let meta := log_meta_data (mapped_raw_log publication) in
  let index := spec_index_by_term_count (active_term_count meta) in
  let raw_tail := default 0 (array_get (term_tail_counters meta) index) in
  let term_id := wrap32 (Z.shiftr raw_tail 32) in
  let term_offset := Z.land raw_tail 4294967295 in
  wrap64 (Z.shiftl (sub32 term_id (initial_term_id publication))
            (position_bits_to_shift publication) + term_offset).

(** Modelled from the spec: the header helpers, gathered. *)
Definition spec_headers (metadata_length : Z) : LogbufferHeaders := {|
  aeron_logbuffer_index_by_term_count := spec_index_by_term_count;
  aeron_logbuffer_index_by_position := spec_index_by_position;
  aeron_logbuffer_compute_log_length := spec_compute_log_length metadata_length;
  aeron_number_of_trailing_zeroes := spec_number_of_trailing_zeroes;
  aeron_producer_window_length := spec_producer_window_length;
  aeron_ipc_publication_producer_position := spec_producer_position
|}.

(** ** Configurations used to run the model *)

Definition fresh_metadata : aeron_logbuffer_metadata_t :=
  mk_metadata [0; 0; 0] 0 0 0 0 0 0 0 0 0 (0, 0, 0).

(** A mapping of three terms of [term_length] bytes, every byte [fill]. *)
Definition filled_log (term_length : Z) (fill : byte) : aeron_mapped_raw_log_t :=
  mk_raw_log
    (replicate 3 (replicate (Z.to_nat term_length) fill))
    fresh_metadata term_length.

(** An active publication over [log] with the given subscribers and
    conductor fields; the publication limit counter lives at address 1,
    the publisher position counter at address 2. *)
Definition publication_with (array : list aeron_tetherable_position_t)
    (log : aeron_mapped_raw_log_t) (bits window trip consumer clean refs : Z)
    : aeron_ipc_publication_t :=
  mk_publication
    (mk_conductor_fields array 7 0 false trip 0
       AERON_IPC_PUBLICATION_STATE_ACTIVE refs consumer consumer clean)
    log "ipc.logbuffer" 11 1001 (mk_position 1 1) (mk_position 2 2)
    0 bits window (Z.quot window 8) 1000000000 false.

Definition world_with (values : list (Z * Z)) : world :=
  mk_world (list_to_map values) [].

(** A log whose first tail counter is [raw_tail]. *)
Definition log_with_tail (raw_tail : Z) : aeron_mapped_raw_log_t :=
  set_log_meta_data
    (set_tails_and_term_count [raw_tail; 0; 0] 0 fresh_metadata)
    (filled_log 64 x00).

(** Last reference: producer at 10000, publication limit at 20000. *)
Definition last_reference_publication : aeron_ipc_publication_t :=
  publication_with [] (log_with_tail 10000) 6 32 0 0 0 1.

Definition last_reference_world : world := world_with [(1, 20000)].

(** The same publication once its count is zero. *)
Definition unreferenced_publication : aeron_ipc_publication_t :=
  publication_with [] (log_with_tail 10000) 6 32 0 0 0 0.

(** Window 1024 and consumer at 4096, so that the untethered window limit
    is 4096 - 1024 + 128 = 3200; one untethered ACTIVE subscriber, last
    seen at time 0, whose counter lives at address 100. *)
Definition untethered_subscriber : aeron_tetherable_position_t :=
  mk_tetherable 5 100 77 false AERON_SUBSCRIPTION_TETHER_ACTIVE 0.

Definition lagging_publication : aeron_ipc_publication_t :=
  publication_with [untethered_subscriber] (filled_log 64 x00) 6 1024 0 4096 0 1.

Definition one_second_timeouts : aeron_driver_timeouts_t :=
  mk_timeouts 1000000000 1000000000.

(** The counters with the subscriber at [position]. *)
Definition lagging_world (position : Z) : world :=
  world_with [(1, 5120); (100, position)].

(** The positions the scan of [update_pub_lmt] reads: those of the
    subscribers that are not RESTING, in array order. *)
Definition active_positions (w : world)
    (array : list aeron_tetherable_position_t) : list Z :=
  (fun tp => aeron_counter_get_volatile w (value_addr tp))
    <$> filter (fun tp => AERON_SUBSCRIPTION_TETHER_RESTING ≠ state tp) array.

(** One tethered subscriber at position 0, window 1024, trip gain 128,
    trip limit 0, over dirty terms of 64 KiB. *)
Definition tethered_subscriber : aeron_tetherable_position_t :=
  mk_tetherable 5 100 77 true AERON_SUBSCRIPTION_TETHER_ACTIVE 0.

Definition windowed_publication : aeron_ipc_publication_t :=
  publication_with [tethered_subscriber] (filled_log 65536 x01) 16 1024 0 0 0 1.

Definition windowed_world : world := world_with [(1, 0); (100, 0)].

(** The only subscriber is RESTING at 3072, where it was last seen while
    ACTIVE: the limit is 3072 + 1024, the trip limit 128 more. *)
Definition resting_subscriber : aeron_tetherable_position_t :=
  mk_tetherable 5 100 77 false AERON_SUBSCRIPTION_TETHER_RESTING 0.

Definition resting_publication : aeron_ipc_publication_t :=
  publication_with [resting_subscriber] (filled_log 65536 x01) 16 1024 4224 3072 3072 1.

Definition resting_world : world := world_with [(1, 4096); (100, 3072)].

(** The byte at offset [k] of partition [j], when there is one. *)
Definition term_byte (log : aeron_mapped_raw_log_t) (j k : Z) : option byte :=
  buf ← array_get (term_buffers log) j; array_get buf k.

(** Three dirty terms of 16 bytes, nothing cleaned yet. *)
Definition dirty_publication : aeron_ipc_publication_t :=
  publication_with [] (filled_log 16 x01) 4 8 0 0 0 1.

(** A replay of term 7 at offset 64 of a stream that began at term 5,
    over terms of 64 KiB mapped zero filled. *)
Definition replay_params : aeron_uri_publication_params_t :=
  mk_params true false 1408 65536 64 7.

Definition replay_context : aeron_driver_context_t :=
  mk_context 1073741824 4096 0
    (fun _ _ term_length _ => inr (filled_log term_length x00))
    131072 1000000000 true true.

Definition replay_create : option (Z + aeron_ipc_publication_t) :=
  aeron_ipc_publication_create (headers := spec_headers 4096) replay_context
    "ipc-11-1001-7.logbuffer" 11 1001 7 (mk_position 2 2) (mk_position 1 1)
    5 replay_params false.

(** The world and the publication that the update of
    [windowed_publication] in [windowed_world] produces. *)
Definition windowed_world_after : world :=
  aeron_counter_set_ordered windowed_world 1 1024.

Definition windowed_publication_after : aeron_ipc_publication_t :=
  set_conductor_fields
    (set_consumer_position 0
       (set_trip_limit 1152 (conductor_fields windowed_publication)))
    windowed_publication.

(** Two tethered subscribers, the slower at position 64 and the faster at
    192, over the dirty terms of [windowed_publication] with nothing
    cleaned yet. *)
Definition leading_subscriber : aeron_tetherable_position_t :=
  mk_tetherable 6 101 78 true AERON_SUBSCRIPTION_TETHER_ACTIVE 0.

Definition paired_publication : aeron_ipc_publication_t :=
  publication_with [tethered_subscriber; leading_subscriber]
    (filled_log 65536 x01) 16 1024 0 0 0 1.

Definition paired_world : world := world_with [(1, 0); (100, 64); (101, 192)].

(** A tethered subscriber, an untethered one in LINGER and an untethered
    one in RESTING, each with its own counter, under a consumer at 4096. *)
Definition lingering_subscriber : aeron_tetherable_position_t :=
  mk_tetherable 6 101 78 false AERON_SUBSCRIPTION_TETHER_LINGER 0.

Definition sleeping_subscriber : aeron_tetherable_position_t :=
  mk_tetherable 7 102 79 false AERON_SUBSCRIPTION_TETHER_RESTING 0.

Definition mixed_publication : aeron_ipc_publication_t :=
  publication_with [tethered_subscriber; lingering_subscriber; sleeping_subscriber]
    (filled_log 64 x00) 6 1024 0 4096 0 1.

Definition mixed_world : world :=
  world_with [(1, 5120); (100, 4096); (101, 0); (102, 0)].

(** A new stream that begins at term 5, and the same request on a file
    system with 1 KiB left. *)
Definition fresh_params : aeron_uri_publication_params_t :=
  mk_params false false 1408 65536 0 0.

Definition fresh_create : option (Z + aeron_ipc_publication_t) :=
  aeron_ipc_publication_create (headers := spec_headers 4096) replay_context
    "ipc-11-1001-7.logbuffer" 11 1001 7 (mk_position 2 2) (mk_position 1 1)
    5 fresh_params false.

Definition crowded_context : aeron_driver_context_t :=
  mk_context 1024 4096 0
    (fun _ _ term_length _ => inr (filled_log term_length x00))
    131072 1000000000 true true.

Definition crowded_create : option (Z + aeron_ipc_publication_t) :=
  aeron_ipc_publication_create (headers := spec_headers 4096) crowded_context
    "ipc-11-1001-7.logbuffer" 11 1001 7 (mk_position 2 2) (mk_position 1 1)
    5 fresh_params false.

(** A conductor to run the time events with: a link is its registration
    id and every link is linked; a publication is drained when no
    subscriber counter is below the producer position and possibly blocked
    when the producer is ahead of the consumer, as the spec words them; the
    unblocker reports [unblocks] and leaves the log as it is; the system
    counter of unblocked publications lives at address 3. *)
Definition sample_externs (unblocks : bool) : ConductorExterns := {|
  aeron_subscription_link_t := Z;
  link_registration_id := fun link => link;
  aeron_driver_conductor_is_subscribable_linked := fun _ _ => true;
  aeron_ipc_publication_is_drained := fun w publication =>
    forallb
      (fun tp =>
         spec_producer_position publication
           <=? aeron_counter_get_volatile w (value_addr tp))
      (subscribable (conductor_fields publication));
  aeron_ipc_publication_is_possibly_blocked := fun _ producer_position
    consumer_position => producer_position >? consumer_position;
  aeron_logbuffer_unblocker_unblock := fun buffers meta _ =>
    (unblocks, (buffers, meta));
  unblocked_publications_counter := 3
|}.

(** Two subscriptions, 77 and 78, and timeouts of one second. *)
Definition sample_conductor : aeron_driver_conductor_t Z :=
  mk_conductor one_second_timeouts [77; 78].

(** A producer at 10000 over a consumer that stopped at 4096 at time 0. *)
Definition stalled_publication : aeron_ipc_publication_t :=
  publication_with [tethered_subscriber] (log_with_tail 10000) 6 1024 0 4096 0 1.

Definition stalled_world : world := world_with [(1, 5120); (3, 0); (100, 4096)].

(** A controller in ATTEMPT_LIVE_JOIN with the live destination added,
    its image at the target position 10050. *)
Definition merging_controller (transports : Z) : ReplayMerge.t :=
  ReplayMerge.mk ReplayMerge.ATTEMPT_LIVE_JOIN
    (Some (ReplayMerge.mk_image transports 10050)) 3 10050 9 true true.

(** A controller that has no image yet. *)
Definition starting_controller : ReplayMerge.t :=
  ReplayMerge.mk ReplayMerge.GET_RECORDING_POSITION None (-1) (-1) (-1) false false.

(** A controller that has merged, and one that is still replaying at
    8000 towards the target 10050 with the live destination not added. *)
Definition merged_controller : ReplayMerge.t :=
  ReplayMerge.mk ReplayMerge.MERGED
    (Some (ReplayMerge.mk_image 1 10050)) 3 10050 9 true false.

Definition replaying_controller : ReplayMerge.t :=
  ReplayMerge.mk ReplayMerge.ATTEMPT_LIVE_JOIN
    (Some (ReplayMerge.mk_image 1 8000)) 3 10050 9 false true.

(** A controller whose handlers do nothing and whose image delivers as
    many fragments as asked for. *)
Definition idle_externals : ReplayMerge.Externals := {|
  ReplayMerge.FragmentHandler := unit;
  ReplayMerge.getRecordingPosition := fun rm => (0, rm);
  ReplayMerge.replay := fun rm => (0, rm);
  ReplayMerge.catchup := fun rm => (0, rm);
  ReplayMerge.attemptLiveJoin := fun rm => (0, rm);
  ReplayMerge.stopReplay := fun rm => (0, rm);
  ReplayMerge.image_poll := fun image _ limit =>
    (limit, ReplayMerge.mk_image (ReplayMerge.activeTransportCount image)
              (ReplayMerge.image_position image + limit))
|}.

Definition is_image_poll (c : ReplayMerge.call) : bool :=
  match c with
  | ReplayMerge.CallImagePoll _ => true
  | _ => false
  end.

(** * Properties *)

(** ** Fixed width arithmetic *)

Lemma wrap64_id x : is_int64 x -> wrap64 x = x.
Proof.
  unfold is_int64, INT64_MIN, INT64_MAX, wrap64, wrap. intros Hx.
  change (2 ^ (64 - 1)) with 9223372036854775808.
  change (2 ^ 64) with 18446744073709551616.
  rewrite Z.mod_small; lia.
Qed.

Lemma wrap32_id x : is_int32 x -> wrap32 x = x.
Proof.
  unfold is_int32, INT32_MIN, INT32_MAX, wrap32, wrap. intros Hx.
  change (2 ^ (32 - 1)) with 2147483648.
  change (2 ^ 32) with 4294967296.
  rewrite Z.mod_small; lia.
Qed.

Lemma to_u64_small x : 0 <= x < 2 ^ 64 -> to_u64 x = x.
Proof. intros Hx. unfold to_u64. apply Z.mod_small. exact Hx. Qed.

Lemma to_u64_range x : 0 <= to_u64 x < 2 ^ 64.
Proof. unfold to_u64. apply Z.mod_pos_bound. reflexivity. Qed.

(** The decrement of a non positive [int32_t] never yields zero. *)
Lemma wrap32_pred_nonzero x : is_int32 x -> x <= 0 -> wrap32 (x - 1) <> 0.
Proof.
  unfold is_int32, INT32_MIN, INT32_MAX. intros Hx Hle.
  destruct (decide (x = -2147483648)) as [-> | Hne].
  - vm_compute. discriminate.
  - rewrite wrap32_id; [lia |]. unfold is_int32, INT32_MIN, INT32_MAX. lia.
Qed.

(** ** The counters buffer *)

Lemma counter_get_set_same w addr v :
  aeron_counter_get (aeron_counter_set_ordered w addr v) addr = v.
Proof.
  unfold aeron_counter_get, aeron_counter_set_ordered. cbn.
  by rewrite lookup_insert_eq.
Qed.

(** ** Reference counting *)

Section PublicationProperties.
Context {headers : LogbufferHeaders}.

(** C5.  The [decref] that takes [refcnt] from 1 to 0 leaves the
    publication INACTIVE with [refcnt = 0]; with [producer_position] the
    producer position read at that moment, its trace is, in this order, one
    ordered store of [producer_position] to the publication limit exactly
    when the limit was greater, then exactly one ordered store of
    [producer_position] to [end_of_stream_position]; the limit ends at the
    minimum of its old value and [producer_position], no other counter
    changes, and nothing else of the publication changes. *)
Theorem decref_last_reference (w : world) (publication : aeron_ipc_publication_t) :
  refcnt (conductor_fields publication) = 1 ->
  let inactive :=
    set_conductor_fields
      (set_pub_state AERON_IPC_PUBLICATION_STATE_INACTIVE
         (set_refcnt 0 (conductor_fields publication)))
      publication in
  let producer_position := aeron_ipc_publication_producer_position inactive in
  let pub_lmt := pos_value_addr (pub_lmt_position publication) in
  let r := aeron_ipc_publication_decref w publication in
  refcnt (conductor_fields r.2) = 0
  ∧ pub_state (conductor_fields r.2) = AERON_IPC_PUBLICATION_STATE_INACTIVE
  ∧ end_of_stream_position (log_meta_data (mapped_raw_log r.2)) = producer_position
  ∧ trace r.1 =
      trace w
      ++ (if decide (aeron_counter_get w pub_lmt > producer_position)
          then [EvCounterSetOrdered pub_lmt producer_position] else [])
      ++ [EvPutOrderedEndOfStream producer_position]
  ∧ aeron_counter_get r.1 pub_lmt
      = Z.min (aeron_counter_get w pub_lmt) producer_position
  ∧ (∀ a, a ≠ pub_lmt -> counters r.1 !! a = counters w !! a)
  ∧ r.2 =
      set_mapped_raw_log
        (set_log_meta_data
           (set_end_of_stream_position producer_position
              (log_meta_data (mapped_raw_log publication)))
           (mapped_raw_log publication))
        inactive.
Proof.
  intros Href inactive producer_position pub_lmt r.
  assert (Hr : r =
    (emit (EvPutOrderedEndOfStream producer_position)
       (if aeron_counter_get w pub_lmt >? producer_position
        then aeron_counter_set_ordered w pub_lmt producer_position else w),
     set_mapped_raw_log
       (set_log_meta_data
          (set_end_of_stream_position producer_position
             (log_meta_data (mapped_raw_log publication)))
          (mapped_raw_log publication))
       inactive)).
  { subst r. unfold aeron_ipc_publication_decref. rewrite Href.
    change (wrap32 (1 - 1)) with 0.
    destruct (decide (0 = 0)) as [_ | Hne]; [reflexivity | congruence]. }
  rewrite Hr. cbn [fst snd]. clear Hr r.
  repeat split; try reflexivity.
  - destruct (Z.gtb_spec (aeron_counter_get w pub_lmt) producer_position) as [Hgt | Hle];
      destruct (decide (aeron_counter_get w pub_lmt > producer_position)) as [Hd | Hd];
      try lia; cbn; by rewrite <- ?app_assoc.
  - destruct (Z.gtb_spec (aeron_counter_get w pub_lmt) producer_position) as [Hgt | Hle].
    + unfold emit, aeron_counter_get at 1. cbn.
      rewrite lookup_insert_eq. cbn. lia.
    + unfold emit, aeron_counter_get at 1. cbn.
      fold (aeron_counter_get w pub_lmt). lia.
  - intros a Hne.
    destruct (aeron_counter_get w pub_lmt >? producer_position); cbn; [| done].
    by rewrite lookup_insert_ne.
Qed.

(** C10.  With [refcnt] zero or negative a further [decref] stores the
    decremented count (0 becomes -1) and nothing else: the world, and with
    it the publication limit and the trace, the lifecycle state and the log
    metadata with [end_of_stream_position] are as before. *)
Theorem decref_without_references (w : world) (publication : aeron_ipc_publication_t) :
  is_int32 (refcnt (conductor_fields publication)) ->
  refcnt (conductor_fields publication) <= 0 ->
  let count := refcnt (conductor_fields publication) in
  let r := aeron_ipc_publication_decref w publication in
  r = (w, set_conductor_fields
            (set_refcnt (wrap32 (count - 1)) (conductor_fields publication))
            publication)
  ∧ (INT32_MIN < count -> refcnt (conductor_fields r.2) = count - 1)
  ∧ r.1 = w
  ∧ pub_state (conductor_fields r.2) = pub_state (conductor_fields publication)
  ∧ mapped_raw_log r.2 = mapped_raw_log publication
  ∧ aeron_counter_get r.1 (pos_value_addr (pub_lmt_position r.2))
      = aeron_counter_get w (pos_value_addr (pub_lmt_position publication)).
Proof.
  intros Hrange Hle count r.
  assert (Hr : r = (w, set_conductor_fields
            (set_refcnt (wrap32 (count - 1)) (conductor_fields publication))
            publication)).
  { subst r. unfold aeron_ipc_publication_decref. fold count.
    destruct (decide (0 = wrap32 (count - 1))) as [Hz | _]; [| reflexivity].
    exfalso. by apply (wrap32_pred_nonzero count). }
  rewrite Hr. cbn. repeat split; try reflexivity.
  intros Hmin. apply wrap32_id.
  unfold is_int32, INT32_MIN, INT32_MAX in *. subst count. lia.
Qed.

End PublicationProperties.

(** The scenario of the last reference: limit 20000 over a producer at
    10000 is clamped, and the end of stream is published once. *)
Lemma decref_last_reference_scenario :
  let r := aeron_ipc_publication_decref (headers := spec_headers 0)
             last_reference_world last_reference_publication in
  refcnt (conductor_fields last_reference_publication) = 1
  ∧ pub_state (conductor_fields r.2) = AERON_IPC_PUBLICATION_STATE_INACTIVE
  ∧ end_of_stream_position (log_meta_data (mapped_raw_log r.2)) = 10000
  ∧ trace r.1 = [EvCounterSetOrdered 1 10000; EvPutOrderedEndOfStream 10000]
  ∧ aeron_counter_get r.1 1 = 10000.
Proof.
  destruct (decref_last_reference (headers := spec_headers 0)
              last_reference_world last_reference_publication eq_refl)
    as (_ & Hstate & Heos & Htrace & Hlmt & _).
  split; [reflexivity |].
  split; [exact Hstate |].
  split; [exact Heos |].
  split; [exact Htrace | exact Hlmt].
Defined.

(** A count of zero becomes -1 and nothing is published. *)
Lemma decref_without_references_scenario :
  let r := aeron_ipc_publication_decref (headers := spec_headers 0)
             last_reference_world unreferenced_publication in
  is_int32 (refcnt (conductor_fields unreferenced_publication))
  ∧ refcnt (conductor_fields unreferenced_publication) <= 0
  ∧ refcnt (conductor_fields r.2) = -1
  ∧ r.1 = last_reference_world
  ∧ pub_state (conductor_fields r.2) = AERON_IPC_PUBLICATION_STATE_ACTIVE.
Proof.
  assert (Hrange : is_int32 (refcnt (conductor_fields unreferenced_publication)))
    by (vm_compute; split; discriminate).
  assert (Hle : refcnt (conductor_fields unreferenced_publication) <= 0)
    by (vm_compute; discriminate).
  destruct (decref_without_references (headers := spec_headers 0)
              last_reference_world unreferenced_publication Hrange Hle)
    as (_ & Hcount & Hworld & Hstate & _).
  split; [exact Hrange |].
  split; [exact Hle |].
  split; [apply Hcount; reflexivity |].
  split; [exact Hworld | exact Hstate].
Defined.

(** ** Memory *)

Lemma to_u64_wrap64 x : to_u64 (wrap64 x) = to_u64 x.
Proof.
  unfold to_u64, wrap64, wrap.
  change (2 ^ (64 - 1)) with 9223372036854775808.
  change (2 ^ 64) with 18446744073709551616.
  rewrite Zminus_mod_idemp_l. f_equal. lia.
Qed.

Lemma wrap64_to_u64_add a b : wrap64 (to_u64 a + b) = wrap64 (a + b).
Proof.
  unfold to_u64, wrap64, wrap.
  change (2 ^ (64 - 1)) with 9223372036854775808.
  change (2 ^ 64) with 18446744073709551616.
  f_equal.
  rewrite <- Z.add_assoc, Zplus_mod_idemp_l. f_equal. lia.
Qed.

Lemma array_get_set {A} (a a' : list A) (i : Z) (v : A) :
  array_set a i v = Some a' ->
  ∀ j, array_get a' j = if decide (j = i) then Some v else array_get a j.
Proof.
  unfold array_set, array_get. intros Hset j.
  destruct (Z.leb_spec 0 i) as [Hi | Hi]; [| done].
  destruct (Z.ltb_spec i (Z.of_nat (length a))) as [Hlt | Hge]; [| done].
  cbn in Hset. injection Hset as <-.
  destruct (decide (j = i)) as [-> | Hne].
  - destruct (Z.leb_spec 0 i); [| lia].
    apply list_lookup_insert_eq. lia.
  - destruct (Z.leb_spec 0 j); [| done].
    apply list_lookup_insert_ne. lia.
Qed.

Lemma memset_zero_Some (buf buf' : list byte) (start len : Z) :
  memset_zero buf start len = Some buf' ->
  (0 <= start ∧ 0 <= len ∧ start + len <= Z.of_nat (length buf) < 2 ^ 64)
  ∧ buf' = take (Z.to_nat start) buf ++ replicate (Z.to_nat len) x00
             ++ drop (Z.to_nat (start + len)) buf.
Proof.
  unfold memset_zero.
  destruct (Z.leb_spec 0 start) as [Hs | Hs]; [| done].
  destruct (Z.leb_spec 0 len) as [Hl | Hl]; [| done].
  destruct (Z.leb_spec (start + len) (Z.of_nat (length buf))) as [Hfit | Hfit]; [| done].
  destruct (Z.ltb_spec (Z.of_nat (length buf)) (2 ^ 64)) as [Hsize | Hsize]; [| done].
  cbn. by intros [= <-].
Qed.

Lemma memset_zero_get (buf buf' : list byte) (start len : Z) :
  memset_zero buf start len = Some buf' ->
  ∀ k, array_get buf' k
       = if decide (start <= k < start + len) then Some x00 else array_get buf k.
Proof.
  intros Hset k. apply memset_zero_Some in Hset as ((Hs & Hl & Hfit & _) & ->).
  unfold array_get.
  destruct (Z.leb_spec 0 k) as [Hk | Hk];
    [| destruct (decide (start <= k < start + len)); [lia | done]].
  destruct (decide (k < start)) as [Hlow | Hlow].
  - rewrite lookup_app_l by (rewrite length_take; lia).
    rewrite lookup_take_lt by lia.
    destruct (decide (start <= k < start + len)); [lia | done].
  - rewrite lookup_app_r by (rewrite length_take; lia).
    rewrite length_take, Nat.min_l by lia.
    destruct (decide (start <= k < start + len)) as [Hin | Hout].
    + rewrite lookup_app_l by (rewrite length_replicate; lia).
      apply lookup_replicate_2. lia.
    + rewrite lookup_app_r by (rewrite length_replicate; lia).
      rewrite length_replicate, lookup_drop. f_equal. lia.
Qed.

(** ** Cleaning *)

Section CleaningProperties.
Context {headers : LogbufferHeaders}.

Lemma clean_buffer_noop (publication : aeron_ipc_publication_t) (position : Z) :
  position <= clean_position (conductor_fields publication) ->
  aeron_ipc_publication_clean_buffer publication position = Some publication.
Proof.
  intros Hle. unfold aeron_ipc_publication_clean_buffer.
  destruct (Z.gtb_spec position (clean_position (conductor_fields publication)));
    [lia | reflexivity].
Qed.

(** What an effective call does, step by step. *)
Lemma clean_buffer_effective (publication publication1 : aeron_ipc_publication_t)
    (position : Z) :
  position > clean_position (conductor_fields publication) ->
  aeron_ipc_publication_clean_buffer publication position = Some publication1 ->
  ∃ buf buf1 buf2 buffers,
    array_get (term_buffers (mapped_raw_log publication))
      (clean_dirty_index publication) = Some buf
    ∧ memset_zero buf (clean_term_offset publication + 8)
        (to_u64 (clean_length publication position - 8)) = Some buf1
    ∧ put_ordered_zero_u64 buf1 (clean_term_offset publication) = Some buf2
    ∧ array_set (term_buffers (mapped_raw_log publication))
        (clean_dirty_index publication) buf2 = Some buffers
    ∧ publication1 =
        set_conductor_fields
          (set_clean_position
             (wrap64 (to_u64 (clean_position (conductor_fields publication))
                      + clean_length publication position))
             (conductor_fields publication))
          (set_mapped_raw_log
             (set_term_buffers buffers (mapped_raw_log publication)) publication).
Proof.
  intros Hgt. unfold aeron_ipc_publication_clean_buffer.
  destruct (Z.gtb_spec position (clean_position (conductor_fields publication)));
    [| lia].
  cbv zeta. intros Hclean.
  destruct (array_get _ (clean_dirty_index publication)) as [buf |] eqn:Hbuf;
    [| done].
  cbn in Hclean.
  destruct (memset_zero buf _ _) as [buf1 |] eqn:Hset1; [| done]. cbn in Hclean.
  destruct (put_ordered_zero_u64 buf1 _) as [buf2 |] eqn:Hset2; [| done].
  cbn in Hclean.
  destruct (array_set _ _ buf2) as [buffers |] eqn:Hbuffers; [| done].
  cbn in Hclean.
  injection Hclean as <-. by exists buf, buf1, buf2, buffers.
Qed.

(** Cleaning touches the term buffers and [clean_position] only. *)
Lemma clean_buffer_frame (publication publication1 : aeron_ipc_publication_t)
    (position : Z) :
  aeron_ipc_publication_clean_buffer publication position = Some publication1 ->
  ∃ clean buffers,
    publication1 =
      set_conductor_fields
        (set_clean_position clean (conductor_fields publication))
        (set_mapped_raw_log
           (set_term_buffers buffers (mapped_raw_log publication)) publication).
Proof.
  intros Hclean.
  destruct (decide (position > clean_position (conductor_fields publication)))
    as [Hgt | Hle].
  - destruct (clean_buffer_effective _ _ _ Hgt Hclean)
      as (_ & _ & _ & buffers & _ & _ & _ & _ & ->). by eexists _, _.
  - rewrite clean_buffer_noop in Hclean by lia. injection Hclean as <-.
    exists (clean_position (conductor_fields publication)),
      (term_buffers (mapped_raw_log publication)).
    by destruct publication as [[] [] ? ? ? ? ? ? ? ? ? ? ?].
Qed.

Lemma clean_length_range (publication : aeron_ipc_publication_t) (position : Z) :
  0 <= clean_length publication position < 2 ^ 64.
Proof.
  unfold clean_length, clean_bytes_left_in_term.
  case_match; apply to_u64_range.
Qed.

(** Without overflow the number of bytes cleaned is the distance to
    [position], capped by what is left of the term. *)
Lemma clean_length_min (publication : aeron_ipc_publication_t) (position : Z) :
  is_int64 position ->
  is_int64 (clean_position (conductor_fields publication)) ->
  position > clean_position (conductor_fields publication) ->
  clean_length publication position
    = Z.min (position - clean_position (conductor_fields publication))
        (clean_bytes_left_in_term publication).
Proof.
  unfold is_int64, INT64_MIN, INT64_MAX. intros Hp Hc Hgt.
  unfold clean_length, sub64. rewrite to_u64_wrap64, to_u64_small.
  - case_match eqn:Hlt; [apply Z.ltb_lt in Hlt | apply Z.ltb_ge in Hlt]; lia.
  - change (2 ^ 64) with 18446744073709551616. lia.
Qed.

(** C7, amended.  A call with [position] at or below [clean_position]
    changes nothing.  Cleaning is idempotent for a [position] that does not
    lie past the end of the term containing [clean_position]: a second call
    with the same [position] leaves the publication as the first call left
    it.  An effective call zeroes, in the partition of [clean_position],
    exactly the bytes from the offset of [clean_position] up to [position],
    capped at the end of that term, leaves every other byte as it was, and
    advances [clean_position] by the number of bytes cleared. *)
Theorem clean_buffer_within_term
    (publication publication1 : aeron_ipc_publication_t) (position : Z) :
  let clean := clean_position (conductor_fields publication) in
  let left := clean_bytes_left_in_term publication in
  let length := clean_length publication position in
  let offset := clean_term_offset publication in
  let dirty := clean_dirty_index publication in
  is_int64 position ->
  is_int64 clean ->
  aeron_ipc_publication_clean_buffer publication position = Some publication1 ->
  (position <= clean -> publication1 = publication)
  ∧ (position - clean <= left ->
       aeron_ipc_publication_clean_buffer publication1 position = Some publication1)
  ∧ (position > clean ->
       length = Z.min (position - clean) left
       ∧ clean_position (conductor_fields publication1) = clean + length
       ∧ ∀ j k,
           term_byte (mapped_raw_log publication1) j k
           = if decide (j = dirty ∧ offset <= k < offset + length)
             then Some x00
             else term_byte (mapped_raw_log publication) j k).
Proof.
  intros clean left length offset dirty Hp Hc Hclean.
  assert (Hleft : 0 <= left) by apply to_u64_range.
  split; [| split].
  - intros Hle. rewrite clean_buffer_noop in Hclean by exact Hle. congruence.
  - intros Hin. destruct (decide (position > clean)) as [Hgt | Hle].
    + destruct (clean_buffer_effective _ _ _ Hgt Hclean)
        as (_ & _ & _ & buffers & _ & _ & _ & _ & ->).
      apply clean_buffer_noop. cbn.
      rewrite wrap64_to_u64_add, (clean_length_min _ _ Hp Hc Hgt).
      fold clean left. rewrite Z.min_l by exact Hin.
      rewrite wrap64_id; [lia |]. by replace (clean + (position - clean)) with position by lia.
    + rewrite clean_buffer_noop in Hclean by lia. injection Hclean as <-.
      apply clean_buffer_noop. fold clean. lia.
  - intros Hgt.
    pose proof (clean_length_min _ _ Hp Hc Hgt) as Hmin. fold clean left length in Hmin.
    pose proof (clean_length_range publication position) as Hrange. fold length in Hrange.
    destruct (clean_buffer_effective _ _ _ Hgt Hclean)
      as (buf & buf1 & buf2 & buffers & Hbuf & Hset1 & Hset2 & Hbuffers & ->).
    fold clean length offset dirty in Hbuf, Hset1, Hset2, Hbuffers |- *.
    assert (Hlen : 8 <= length).
    { pose proof Hset1 as Hfit. apply memset_zero_Some in Hfit as ((_ & _ & Hfit) & _).
      destruct (decide (8 <= length)) as [| Hshort]; [done |]. exfalso.
      assert (Hoffset : 0 <= offset) by (apply Z.land_nonneg; left; apply to_u64_range).
      assert (Hwrap : to_u64 (length - 8) = length - 8 + 2 ^ 64).
      { unfold to_u64.
        rewrite <- (Z.mod_small (length - 8 + 2 ^ 64) (2 ^ 64)) by lia.
        by rewrite <- (Z_mod_plus_full (length - 8) 1 (2 ^ 64)), Z.mul_1_l. }
      lia. }
    split; [exact Hmin |]. split.
    + cbn. rewrite wrap64_to_u64_add. apply wrap64_id.
      unfold is_int64 in *. lia.
    + intros j k. unfold term_byte. cbn.
      rewrite (array_get_set _ _ _ _ Hbuffers j).
      destruct (decide (j = dirty)) as [-> | Hj].
      * rewrite Hbuf. cbn.
        rewrite (memset_zero_get _ _ _ _ Hset2 k), (memset_zero_get _ _ _ _ Hset1 k).
        rewrite to_u64_small by lia.
        repeat case_decide; (done || lia).
      * case_decide as Hc'; [by destruct Hc' | done].
Qed.

End CleaningProperties.

(** Past the end of the term a second call with the same [position] is
    not a no-op: from [clean_position = 0] with terms of 16 bytes, the first
    [clean_buffer(32)] stops at 16, the second cleans the next term and
    moves [clean_position] to 32. *)
Lemma clean_buffer_twice_past_term_end :
  ∃ publication1 publication2,
    aeron_ipc_publication_clean_buffer (headers := spec_headers 0)
      dirty_publication 32 = Some publication1
    ∧ aeron_ipc_publication_clean_buffer (headers := spec_headers 0)
        publication1 32 = Some publication2
    ∧ clean_position (conductor_fields publication1) = 16
    ∧ clean_position (conductor_fields publication2) = 32
    ∧ term_byte (mapped_raw_log publication1) 1 0 = Some x01
    ∧ term_byte (mapped_raw_log publication2) 1 0 = Some x00
    ∧ publication2 ≠ publication1.
Proof.
  eexists _, _. split; [vm_compute; reflexivity |].
  split; [vm_compute; reflexivity |].
  repeat split; try reflexivity.
  intros Heq. apply (f_equal (fun p => clean_position (conductor_fields p))) in Heq.
  vm_compute in Heq. discriminate.
Qed.

(** Within the term: cleaning the first eight bytes twice is cleaning
    them once. *)
Lemma clean_buffer_within_term_scenario :
  ∃ publication1,
    aeron_ipc_publication_clean_buffer (headers := spec_headers 0)
      dirty_publication 8 = Some publication1
    ∧ is_int64 8
    ∧ is_int64 (clean_position (conductor_fields dirty_publication))
    ∧ aeron_ipc_publication_clean_buffer (headers := spec_headers 0)
        publication1 8 = Some publication1
    ∧ clean_position (conductor_fields publication1) = 8
    ∧ term_byte (mapped_raw_log publication1) 0 7 = Some x00
    ∧ term_byte (mapped_raw_log publication1) 0 8 = Some x01.
Proof.
  destruct (aeron_ipc_publication_clean_buffer (headers := spec_headers 0)
              dirty_publication 8) as [publication1 |] eqn:Hclean;
    [| vm_compute in Hclean; discriminate].
  assert (H8 : is_int64 8) by (vm_compute; split; discriminate).
  assert (H0 : is_int64 (clean_position (conductor_fields dirty_publication)))
    by (vm_compute; split; discriminate).
  destruct (clean_buffer_within_term (headers := spec_headers 0)
              dirty_publication publication1 8 H8 H0 Hclean)
    as (_ & Hagain & Heffective).
  destruct Heffective as (_ & Hposition & Hbytes); [reflexivity |].
  exists publication1.
  split; [reflexivity |]. split; [exact H8 |]. split; [exact H0 |].
  split; [apply Hagain; vm_compute; discriminate |].
  split; [rewrite Hposition; reflexivity |].
  rewrite (Hbytes 0 7), (Hbytes 0 8). split; reflexivity.
Defined.

(** ** Flow control *)

Lemma foldr_min_init (ps : list Z) (a b : Z) :
  foldr Z.min (Z.min a b) ps = Z.min a (foldr Z.min b ps).
Proof. induction ps as [| p ps IH]; cbn; [done | rewrite IH; lia]. Qed.

Lemma foldr_max_init (ps : list Z) (a b : Z) :
  foldr Z.max (Z.max a b) ps = Z.max a (foldr Z.max b ps).
Proof. induction ps as [| p ps IH]; cbn; [done | rewrite IH; lia]. Qed.

(** The scan returns the least and the greatest of the positions of the
    subscribers that are not RESTING, starting from [INT64_MAX] and from
    [consumer_position]. *)
Lemma scan_positions_min_max (w : world) (publication : aeron_ipc_publication_t) :
  let ps := active_positions w (subscribable (conductor_fields publication)) in
  scan_positions w publication
    = (foldr Z.min INT64_MAX ps,
       foldr Z.max (consumer_position (conductor_fields publication)) ps).
Proof.
  unfold scan_positions, active_positions.
  generalize INT64_MAX (consumer_position (conductor_fields publication)).
  induction (subscribable (conductor_fields publication)) as [| tp array IH];
    intros mn mx; [done |].
  cbn [fold_left]. unfold scan_position at 2.
  rewrite filter_cons.
  destruct (decide (AERON_SUBSCRIPTION_TETHER_RESTING ≠ state tp)) as [Hact | Hrest].
  - rewrite IH. cbn. f_equal.
    + rewrite <- foldr_min_init. f_equal.
      destruct (Z.ltb_spec (aeron_counter_get_volatile w (value_addr tp)) mn); lia.
    + rewrite <- foldr_max_init. f_equal.
      destruct (Z.gtb_spec (aeron_counter_get_volatile w (value_addr tp)) mx); lia.
  - apply IH.
Qed.

Section FlowControlProperties.
Context {headers : LogbufferHeaders}.

(** With a subscriber in the array the function scans, then takes the
    branch of the proposed limit: its second test of the length cannot
    succeed after the first one failed. *)
Lemma update_pub_lmt_nonempty (w : world) (publication : aeron_ipc_publication_t) :
  subscribable (conductor_fields publication) ≠ [] ->
  aeron_ipc_publication_update_pub_lmt w publication =
    let min_sub_pos := (scan_positions w publication).1 in
    let max_sub_pos := (scan_positions w publication).2 in
    let proposed_limit := add64 min_sub_pos (term_window_length publication) in
    if proposed_limit >? trip_limit (conductor_fields publication) then
      publication1 ← aeron_ipc_publication_clean_buffer publication min_sub_pos;
      Some (aeron_counter_set_ordered w
              (pos_value_addr (pub_lmt_position publication1)) proposed_limit,
            set_conductor_fields
              (set_consumer_position max_sub_pos
                 (set_trip_limit (add64 proposed_limit (trip_gain publication1))
                    (conductor_fields publication1)))
              publication1,
            1)
    else
      Some (w,
            set_conductor_fields
              (set_consumer_position max_sub_pos (conductor_fields publication))
              publication,
            0).
Proof.
  intros Hne. unfold aeron_ipc_publication_update_pub_lmt.
  destruct (decide (0%nat = length (subscribable (conductor_fields publication))))
    as [Hlen | _]; [by destruct (subscribable (conductor_fields publication)) |].
  destruct (scan_positions w publication) as [min_sub_pos max_sub_pos].
  cbn [fst snd]. cbv zeta.
  destruct (add64 min_sub_pos (term_window_length publication)
              >? trip_limit (conductor_fields publication)); [| reflexivity].
  by destruct (aeron_ipc_publication_clean_buffer publication min_sub_pos).
Qed.

(** When every subscriber is RESTING the scan reads no counter. *)
Lemma scan_positions_all_resting (w : world) (publication : aeron_ipc_publication_t) :
  Forall (fun tp => state tp = AERON_SUBSCRIPTION_TETHER_RESTING)
    (subscribable (conductor_fields publication)) ->
  scan_positions w publication
    = (INT64_MAX, consumer_position (conductor_fields publication)).
Proof.
  unfold scan_positions.
  generalize (INT64_MAX, consumer_position (conductor_fields publication)).
  induction (subscribable (conductor_fields publication)) as [| tp array IH];
    intros acc Hall; [done |].
  apply Forall_cons in Hall as [Hrest Hall]. cbn [fold_left].
  rewrite <- (IH acc Hall) at 2. f_equal.
  unfold scan_position. destruct acc as [mn mx].
  by destruct (decide (AERON_SUBSCRIPTION_TETHER_RESTING ≠ state tp)).
Qed.

(** With subscribers that are all RESTING the function does not store
    [max_sub_pos]: for a positive window and a trip limit that is not
    below [INT64_MIN + term_window_length - 1], where the proposed limit
    wraps to, it changes nothing and returns 0. *)
Lemma update_pub_lmt_all_resting (w : world) (publication : aeron_ipc_publication_t) :
  subscribable (conductor_fields publication) ≠ [] ->
  Forall (fun tp => state tp = AERON_SUBSCRIPTION_TETHER_RESTING)
    (subscribable (conductor_fields publication)) ->
  0 < term_window_length publication <= INT64_MAX ->
  INT64_MIN + term_window_length publication - 1
    <= trip_limit (conductor_fields publication) ->
  aeron_ipc_publication_update_pub_lmt w publication = Some (w, publication, 0).
Proof.
  intros Hne Hall Hwindow Htrip.
  rewrite (update_pub_lmt_nonempty w publication Hne). cbv zeta.
  rewrite (scan_positions_all_resting w publication Hall). cbn [fst snd].
  assert (Hwrap : add64 INT64_MAX (term_window_length publication)
                  = INT64_MIN + term_window_length publication - 1).
  { unfold add64, wrap64, wrap, INT64_MAX, INT64_MIN in *.
    change (2 ^ (64 - 1)) with 9223372036854775808.
    change (2 ^ 64) with 18446744073709551616.
    replace (9223372036854775807 + term_window_length publication
             + 9223372036854775808)
      with (term_window_length publication - 1 + 1 * 18446744073709551616) by lia.
    rewrite Z_mod_plus_full, Z.mod_small; lia. }
  rewrite Hwrap.
  destruct (Z.gtb_spec (INT64_MIN + term_window_length publication - 1)
              (trip_limit (conductor_fields publication))); [lia |].
  by destruct publication as [[] ? ? ? ? ? ? ? ? ? ? ? ?].
Qed.

End FlowControlProperties.

(** C1.  A publication whose only subscriber is RESTING: the scan leaves
    [min_sub_pos = INT64_MAX] and [max_sub_pos = consumer_position = 3072],
    the proposed limit [INT64_MAX + 1024] is not above the trip limit, and
    the call returns 0 without storing [max_sub_pos] to the publication
    limit (it stays 4096) or to [trip_limit] (it stays 4224). *)
Theorem update_pub_lmt_all_resting_keeps_limit :
  Forall (fun tp => state tp = AERON_SUBSCRIPTION_TETHER_RESTING)
    (subscribable (conductor_fields resting_publication))
  ∧ subscribable (conductor_fields resting_publication) ≠ []
  ∧ scan_positions resting_world resting_publication = (INT64_MAX, 3072)
  ∧ aeron_ipc_publication_update_pub_lmt (headers := spec_headers 0)
      resting_world resting_publication
    = Some (resting_world, resting_publication, 0)
  ∧ trace resting_world = []
  ∧ consumer_position (conductor_fields resting_publication) = 3072
  ∧ aeron_counter_get resting_world
      (pos_value_addr (pub_lmt_position resting_publication)) = 4096
  ∧ trip_limit (conductor_fields resting_publication) = 4224.
Proof.
  assert (Hall : Forall (fun tp => state tp = AERON_SUBSCRIPTION_TETHER_RESTING)
                   (subscribable (conductor_fields resting_publication)))
    by (by repeat constructor).
  split; [exact Hall |].
  split; [discriminate |].
  split; [apply (scan_positions_all_resting _ _ Hall) |].
  split; [| by repeat split].
  apply (update_pub_lmt_all_resting (headers := spec_headers 0));
    [discriminate | exact Hall | by vm_compute | by vm_compute].
Qed.

(** ** Construction *)

Section ConstructionProperties.
Context {headers : LogbufferHeaders}.

(** Whatever the branch stored, a successful [create] leaves
    [active_term_count = 0]. *)
Lemma create_active_term_count (context : aeron_driver_context_t) (path : string)
    (session_id stream_id registration_id : Z)
    (pub_pos_position pub_lmt_position : aeron_position_t)
    (initial_term_id : Z) (params : aeron_uri_publication_params_t)
    (is_exclusive : bool) (publication : aeron_ipc_publication_t) :
  aeron_ipc_publication_create context path session_id stream_id registration_id
    pub_pos_position pub_lmt_position initial_term_id params is_exclusive
    = Some (inr publication) ->
  active_term_count (log_meta_data (mapped_raw_log publication)) = 0.
Proof.
  unfold aeron_ipc_publication_create. cbv zeta.
  repeat case_match; try done.
  destruct (init_term_tail_counters _ _ _) as [[tails term_count] |]; [| done].
  cbn. by intros [= <-].
Qed.

(** The index written by the iterations of the replay loop differs from
    the index the loop started from. *)
Lemma replay_tail_steps (term_id : Z) (tails tails2 : list Z) (active_index last : Z) :
  0 <= active_index ->
  fold_left (replay_tail_step term_id) [1; 2] (Some (tails, active_index))
    = Some (tails2, last) ->
  array_get tails2 active_index = array_get tails active_index.
Proof.
  intros Hindex. cbn [fold_left]. unfold replay_tail_step at 2. cbn [mbind option_bind].
  set (i1 := to_u64 (active_index + 1) `mod` AERON_LOGBUFFER_PARTITION_COUNT).
  destruct (array_set tails i1 _) as [tails1 |] eqn:Hset1; [| done].
  cbn [mbind option_bind]. unfold replay_tail_step.
  cbn [mbind option_bind].
  set (i2 := to_u64 (i1 + 1) `mod` AERON_LOGBUFFER_PARTITION_COUNT).
  destruct (array_set tails1 i2 _) as [tails2' |] eqn:Hset2; [| done].
  cbn. intros [= <- <-].
  rewrite (array_get_set _ _ _ _ Hset2), (array_get_set _ _ _ _ Hset1).
  assert (Hi1 : 0 <= i1 < 3) by (apply Z.mod_pos_bound; reflexivity).
  assert (Hi2 : 0 <= i2 < 3) by (apply Z.mod_pos_bound; reflexivity).
  destruct (decide (active_index < 3)) as [Hsmall | Hbig].
  - assert (Hcases : active_index = 0 ∨ active_index = 1 ∨ active_index = 2) by lia.
    subst i2 i1.
    destruct Hcases as [-> | [-> | ->]]; vm_compute; reflexivity.
  - repeat case_decide; (done || lia).
Qed.

(** X16.  In replay mode a successful [create] leaves [(term_id << 32) |
    term_offset] in the tail counter of the partition of
    [term_id - initial_term_id]. *)
Lemma create_replay_tail_counter (context : aeron_driver_context_t) (path : string)
    (session_id stream_id registration_id : Z)
    (pub_pos_position pub_lmt_position : aeron_position_t)
    (initial_term_id : Z) (params : aeron_uri_publication_params_t)
    (is_exclusive : bool) (publication : aeron_ipc_publication_t) :
  is_replay params = true ->
  aeron_ipc_publication_create context path session_id stream_id registration_id
    pub_pos_position pub_lmt_position initial_term_id params is_exclusive
    = Some (inr publication) ->
  array_get (term_tail_counters (log_meta_data (mapped_raw_log publication)))
    (aeron_logbuffer_index_by_term_count (sub32 (term_id params) initial_term_id))
  = Some (wrap64 (Z.lor (mul64 (term_id params) (Z.shiftl 1 32)) (term_offset params))).
Proof.
  intros Hreplay. unfold aeron_ipc_publication_create. cbv zeta.
  repeat case_match; try done.
  unfold init_term_tail_counters. rewrite Hreplay. cbv zeta.
  set (active_index :=
         aeron_logbuffer_index_by_term_count (sub32 (term_id params) initial_term_id)).
  destruct (array_set _ active_index _) as [tails1 |] eqn:Hset; [| done].
  cbn [mbind option_bind].
  destruct (fold_left _ _ _) as [[tails2 last] |] eqn:Hloop; [| done].
  cbn. intros [= <-]. cbn.
  assert (Hindex : 0 <= active_index).
  { unfold array_set in Hset. destruct (Z.leb_spec 0 active_index); [done |].
    discriminate. }
  rewrite (replay_tail_steps _ _ _ _ _ Hindex Hloop).
  rewrite (array_get_set _ _ _ _ Hset). by case_decide.
Qed.

End ConstructionProperties.

(** C2.  A replay of term 7 at offset 64 over a stream whose initial term
    is 5: [create] succeeds, the tail counter of partition
    [(7 - 5) mod 3 = 2] is [(7 << 32) | 64], and [active_term_count] is 0,
    not [7 - 5 = 2]. *)
Theorem create_replay_resets_active_term_count :
  ∃ publication,
    replay_create = Some (inr publication)
    ∧ is_replay replay_params = true
    ∧ term_id replay_params - initial_term_id publication = 2
    ∧ active_term_count (log_meta_data (mapped_raw_log publication)) = 0
    ∧ term_tail_counters (log_meta_data (mapped_raw_log publication))
      = [Z.shiftl 5 32; Z.shiftl 6 32; Z.lor (Z.shiftl 7 32) 64].
Proof.
  eexists. split; [reflexivity |].
  repeat split; reflexivity.
Qed.

(** ** Untethered subscriptions *)

Lemma check_untethered_slot_counters context publication now_ns w tp a :
  a ≠ value_addr tp ->
  counters (check_untethered_slot context publication now_ns w tp).1 !! a
    = counters w !! a.
Proof.
  intros Hne. unfold check_untethered_slot.
  repeat case_match; cbn; try done. by rewrite lookup_insert_ne.
Qed.

Lemma check_untethered_slot_trace context publication now_ns w tp :
  ∃ events,
    trace (check_untethered_slot context publication now_ns w tp).1
      = trace w ++ events.
Proof.
  unfold check_untethered_slot.
  repeat case_match; cbn;
    try (by exists []; rewrite app_nil_r);
    try (by eexists [_]);
    by (rewrite <- app_assoc; eexists).
Qed.

Lemma check_untethered_loop_trace context publication now_ns array :
  ∀ w, ∃ events,
    trace (check_untethered_loop context publication now_ns w array).1
      = trace w ++ events.
Proof.
  induction array as [| tp rest IH]; intros w; cbn.
  - exists []. by rewrite app_nil_r.
  - destruct (check_untethered_slot_trace context publication now_ns w tp)
      as [events1 Hslot].
    destruct (check_untethered_slot context publication now_ns w tp) as [w1 slot].
    destruct (IH w1) as [events2 Hrest].
    destruct (check_untethered_loop context publication now_ns w1 rest) as [w2 rest'].
    cbn in *. exists (events1 ++ events2). by rewrite Hrest, Hslot, app_assoc.
Qed.

(** Slot [i] is updated by the loop body, run in the world [wi] left by
    the slots before it; [wi] differs from the initial world only at the
    counters of those slots and by the events they emitted. *)
Lemma check_untethered_loop_lookup context publication now_ns array :
  ∀ w (i : nat) tp,
    array !! i = Some tp ->
    ∃ wi before after,
      (check_untethered_loop context publication now_ns w array).2 !! i
        = Some (check_untethered_slot context publication now_ns wi tp).2
      ∧ (∀ a, a ∉ value_addr <$> take i array -> counters wi !! a = counters w !! a)
      ∧ trace wi = trace w ++ before
      ∧ trace (check_untethered_loop context publication now_ns w array).1
          = trace (check_untethered_slot context publication now_ns wi tp).1 ++ after.
Proof.
  induction array as [| tp0 rest IH]; intros w i tp Hi; [done |].
  destruct i as [| i]; cbn in Hi.
  - injection Hi as ->. exists w, []. cbn.
    destruct (check_untethered_slot context publication now_ns w tp) as [w1 slot] eqn:Hs.
    destruct (check_untethered_loop_trace context publication now_ns rest w1)
      as [events Hrest].
    destruct (check_untethered_loop context publication now_ns w1 rest) as [w2 rest'].
    cbn in *. exists events. by rewrite app_nil_r.
  - cbn.
    pose proof (check_untethered_slot_counters context publication now_ns w tp0) as Hc.
    destruct (check_untethered_slot_trace context publication now_ns w tp0)
      as [events1 Ht].
    destruct (check_untethered_slot context publication now_ns w tp0) as [w1 slot].
    destruct (IH w1 i tp Hi) as (wi & before & after & Hlook & Hcnt & Htr & Hfin).
    destruct (check_untethered_loop context publication now_ns w1 rest) as [w2 rest'].
    cbn in *. exists wi, (events1 ++ before), after.
    split; [exact Hlook |]. split; [| split; [| exact Hfin]].
    + intros a Ha. apply not_elem_of_cons in Ha as [Hne Ha].
      rewrite (Hcnt a Ha). by apply Hc.
    + by rewrite Htr, Ht, app_assoc.
Qed.

Lemma value_addr_fresh (array : list aeron_tetherable_position_t) (i : nat) tp :
  NoDup (value_addr <$> array) ->
  array !! i = Some tp ->
  value_addr tp ∉ value_addr <$> take i array.
Proof.
  intros Hnd Hi.
  rewrite <- (take_drop_middle array i tp Hi), fmap_app in Hnd.
  apply NoDup_app in Hnd as (_ & Hdisj & _).
  intros Hin. apply (Hdisj _ Hin). cbn. left.
Qed.

(** C4, amended.  An untethered ACTIVE subscriber with its own counter is
    kept ACTIVE, its time of last update refreshed, exactly while its
    position is strictly greater than
    [consumer_position - term_window_length + trip_gain].  At that limit or
    below it (one byte less, for instance) it becomes LINGER, with
    [on_unavailable_image] emitted and the time refreshed, once [now_ns]
    exceeds the time of last update plus the window limit timeout; until
    then the slot is left as it is. *)
Theorem check_untethered_active_boundary
    (context : aeron_driver_timeouts_t) (w : world)
    (publication : aeron_ipc_publication_t) (now_ns : Z)
    (i : nat) (tp : aeron_tetherable_position_t) :
  let array := subscribable (conductor_fields publication) in
  let consumer_position := consumer_position (conductor_fields publication) in
  let window := term_window_length publication in
  let timeout := untethered_window_limit_timeout_ns context in
  let limit := consumer_position - window + trip_gain publication in
  let position := aeron_counter_get w (value_addr tp) in
  array !! i = Some tp ->
  NoDup (value_addr <$> array) ->
  is_tether tp = false ->
  state tp = AERON_SUBSCRIPTION_TETHER_ACTIVE ->
  trip_gain publication = Z.quot window 8 ->
  is_int64 (consumer_position - window) ->
  is_int64 limit ->
  is_int64 (time_of_last_update_ns tp + timeout) ->
  let r :=
    aeron_ipc_publication_check_untethered_subscriptions context w publication now_ns in
  ∃ tp',
    subscribable (conductor_fields r.2) !! i = Some tp'
    ∧ (position > limit ->
         tp' = set_tether AERON_SUBSCRIPTION_TETHER_ACTIVE now_ns tp)
    ∧ (position <= limit -> now_ns > time_of_last_update_ns tp + timeout ->
         tp' = set_tether AERON_SUBSCRIPTION_TETHER_LINGER now_ns tp
         ∧ ∃ before after,
             trace r.1 =
               trace w ++ before
               ++ [EvOnUnavailableImage
                     (registration_id (conductor_fields publication))
                     (subscription_registration_id tp) (stream_id publication)]
               ++ after)
    ∧ (position <= limit -> now_ns <= time_of_last_update_ns tp + timeout ->
         tp' = tp).
Proof.
  intros array consumer_position window timeout limit position
    Hi Hnd Htether Hstate Hgain Hsub Hlimit Htime r.
  destruct (check_untethered_loop_lookup context publication now_ns array w i tp Hi)
    as (wi & before & after & Hlook & Hcnt & Htr & Hfin).
  assert (Hpos : aeron_counter_get_volatile wi (value_addr tp) = position).
  { unfold aeron_counter_get_volatile, aeron_counter_get, position.
    by rewrite (Hcnt _ (value_addr_fresh array i tp Hnd Hi)). }
  assert (Hlim : untethered_window_limit publication = limit).
  { unfold untethered_window_limit, limit, sub64, add64.
    fold consumer_position window. rewrite <- Hgain.
    rewrite (wrap64_id _ Hsub). by apply wrap64_id. }
  assert (Hr : r = ((check_untethered_loop context publication now_ns w array).1,
    set_conductor_fields
      (set_subscribable (check_untethered_loop context publication now_ns w array).2
         (conductor_fields publication)) publication)).
  { subst r. unfold aeron_ipc_publication_check_untethered_subscriptions.
    fold array. by destruct (check_untethered_loop context publication now_ns w array). }
  rewrite Hr. cbn [fst snd]. clear Hr r.
  exists (check_untethered_slot context publication now_ns wi tp).2.
  split; [exact Hlook |].
  rewrite Hfin. clear Hlook Hfin.
  unfold check_untethered_slot.
  rewrite Htether, Hstate, Hpos, Hlim. unfold add64. cbv zeta. fold timeout.
  rewrite (wrap64_id _ Htime).
  destruct (Z.gtb_spec position limit) as [Hgt | Hle].
  - cbn. repeat split; (done || lia).
  - destruct (Z.gtb_spec now_ns (time_of_last_update_ns tp + timeout)) as [Hlate | Hearly].
    + cbn. split; [lia |]. split; [| lia].
      intros _ _. split; [reflexivity |].
      exists before, after. by rewrite Htr, <- !app_assoc.
    + cbn. repeat split; (done || lia).
Qed.

(** At the limit itself (3200 = 4096 - 1024 + 128) the subscriber is not
    kept ACTIVE: two seconds after its last update, with a timeout of one
    second, it is moved to LINGER and the image is reported unavailable. *)
Lemma check_untethered_at_limit_lingers :
  let r :=
    aeron_ipc_publication_check_untethered_subscriptions one_second_timeouts
      (lagging_world 3200) lagging_publication 2000000000 in
  aeron_counter_get (lagging_world 3200) (value_addr untethered_subscriber)
    = consumer_position (conductor_fields lagging_publication)
      - term_window_length lagging_publication + trip_gain lagging_publication
  ∧ subscribable (conductor_fields lagging_publication) = [untethered_subscriber]
  ∧ subscribable (conductor_fields r.2)
    = [set_tether AERON_SUBSCRIPTION_TETHER_LINGER 2000000000 untethered_subscriber]
  ∧ trace r.1 = [EvOnUnavailableImage 7 77 1001].
Proof. vm_compute. repeat split; reflexivity. Qed.

(** One byte above the limit keeps the subscriber ACTIVE; at the limit it
    lingers after the timeout. *)
Lemma check_untethered_active_boundary_scenario :
  NoDup (value_addr <$> subscribable (conductor_fields lagging_publication))
  ∧ is_int64 (4096 - 1024 + trip_gain lagging_publication)
  ∧ subscribable
      (conductor_fields
         (aeron_ipc_publication_check_untethered_subscriptions one_second_timeouts
            (lagging_world 3201) lagging_publication 2000000000).2) !! 0%nat
    = Some (set_tether AERON_SUBSCRIPTION_TETHER_ACTIVE 2000000000
              untethered_subscriber)
  ∧ subscribable
      (conductor_fields
         (aeron_ipc_publication_check_untethered_subscriptions one_second_timeouts
            (lagging_world 3200) lagging_publication 2000000000).2) !! 0%nat
    = Some (set_tether AERON_SUBSCRIPTION_TETHER_LINGER 2000000000
              untethered_subscriber).
Proof.
  assert (Hnd : NoDup (value_addr <$> subscribable (conductor_fields lagging_publication)))
    by (vm_compute; apply NoDup_singleton).
  assert (Hsub : is_int64 (consumer_position (conductor_fields lagging_publication)
                           - term_window_length lagging_publication))
    by (vm_compute; split; discriminate).
  assert (Hlimit : is_int64 (consumer_position (conductor_fields lagging_publication)
                             - term_window_length lagging_publication
                             + trip_gain lagging_publication))
    by (vm_compute; split; discriminate).
  assert (Htime : is_int64 (time_of_last_update_ns untethered_subscriber
                            + untethered_window_limit_timeout_ns one_second_timeouts))
    by (vm_compute; split; discriminate).
  split; [exact Hnd |]. split; [exact Hlimit |]. split.
  - destruct (check_untethered_active_boundary one_second_timeouts
                (lagging_world 3201) lagging_publication 2000000000
                0%nat untethered_subscriber
                eq_refl Hnd eq_refl eq_refl eq_refl Hsub Hlimit Htime)
      as (tp' & Hlook & Hactive & _).
    rewrite Hlook. f_equal. apply Hactive. reflexivity.
  - destruct (check_untethered_active_boundary one_second_timeouts
                (lagging_world 3200) lagging_publication 2000000000
                0%nat untethered_subscriber
                eq_refl Hnd eq_refl eq_refl eq_refl Hsub Hlimit Htime)
      as (tp' & Hlook & _ & Hlinger & _).
    rewrite Hlook. f_equal. apply Hlinger; [vm_compute; discriminate | reflexivity].
Defined.

(** ** Teardown *)

(** C3.  [close] loads [publication->pub_lmt_position.counter_id] before
    it compares [publication] with NULL: called with a null pointer
    it faults at that load. *)
Theorem close_null_faults (w : world) :
  aeron_ipc_publication_close w None = None.
Proof. reflexivity. Qed.

(** With a publication the teardown releases, in this order, the two
    positions, the counter of every subscriber, the array, the mapping, the
    file name and the structure. *)
Example close_releases_everything :
  trace <$> aeron_ipc_publication_close (world_with []) (Some windowed_publication)
  = Some [EvCountersManagerFree 1; EvCountersManagerFree 2; EvCountersManagerFree 5;
          EvFreeSubscribableArray; EvMapRawLogClose "ipc.logbuffer";
          EvFreeLogFileName; EvFreePublication].
Proof. reflexivity. Qed.

(** ** ReplayMerge *)

Section ReplayMergeProperties.
Import ReplayMerge.
Context {externals : Externals}.

Lemma dispatch_calls (handler : t -> Z * t) (workCount : Z) (rm : t) :
  (dispatch handler workCount rm).2
    = [CallDoWork (m_state rm); CallHandler (m_state rm)].
Proof. unfold dispatch. by destruct (handler rm). Qed.

(** [doWork] records its own entry first and never polls the image. *)
Lemma doWork_calls (rm : t) :
  head (doWork rm).2 = Some (CallDoWork (m_state rm))
  ∧ forallb (negb ∘ is_image_poll) (doWork rm).2 = true.
Proof.
  unfold doWork. destruct (m_state rm) eqn:Hstate;
    rewrite ?dispatch_calls, ?Hstate; by cbn.
Qed.

(** C8.  [poll] runs [doWork] first: the calls of [poll] are those of
    [doWork], which begin with its entry and contain no image poll,
    followed by nothing when [m_image] is null once [doWork] is done, in
    which case the result is 0 and the object is as [doWork] left it, and
    otherwise by the single [Image::poll] whose count is returned. *)
Theorem poll_runs_doWork_first (rm : t) (fragmentHandler : FragmentHandler)
    (fragmentLimit : Z) :
  let rm1 := (doWork rm).1.2 in
  let calls1 := (doWork rm).2 in
  head calls1 = Some (CallDoWork (m_state rm))
  ∧ forallb (negb ∘ is_image_poll) calls1 = true
  ∧ poll rm fragmentHandler fragmentLimit =
      match m_image rm1 with
      | None => (0, rm1, calls1)
      | Some image =>
          ((image_poll image fragmentHandler fragmentLimit).1,
           set_image (Some (image_poll image fragmentHandler fragmentLimit).2) rm1,
           calls1 ++ [CallImagePoll fragmentLimit])
      end.
Proof.
  intros rm1 calls1. subst rm1 calls1.
  destruct (doWork_calls rm) as [Hhead Hnone].
  split; [exact Hhead |]. split; [exact Hnone |].
  unfold poll. destruct (doWork rm) as [[work rm1] calls1]. cbn [fst snd].
  destruct (m_image rm1) as [image |]; [| reflexivity].
  by destruct (image_poll image fragmentHandler fragmentLimit).
Qed.

End ReplayMergeProperties.

(** Before an image is acquired a poll does the work of the state and
    consumes nothing; with an image it does the work, then polls. *)
Example poll_without_image :
  ReplayMerge.poll (externals := idle_externals) starting_controller tt 10
  = (0, starting_controller,
     [ReplayMerge.CallDoWork ReplayMerge.GET_RECORDING_POSITION;
      ReplayMerge.CallHandler ReplayMerge.GET_RECORDING_POSITION]).
Proof. reflexivity. Qed.

Example poll_with_image :
  (ReplayMerge.poll (externals := idle_externals) (merging_controller 2) tt 10).1.1 = 10
  ∧ (ReplayMerge.poll (externals := idle_externals) (merging_controller 2) tt 10).2
    = [ReplayMerge.CallDoWork ReplayMerge.ATTEMPT_LIVE_JOIN;
       ReplayMerge.CallHandler ReplayMerge.ATTEMPT_LIVE_JOIN;
       ReplayMerge.CallImagePoll 10].
Proof. split; reflexivity. Qed.

(** C9.  With an image, [shouldStopAndRemoveReplay(position)] is true
    exactly when the live destination has been added, the target position
    minus [position] is at most 0 and the image has at least two active
    transports; with one active transport it is false. *)
Theorem shouldStopAndRemoveReplay_iff (rm : ReplayMerge.t) (position : Z)
    (image : ReplayMerge.Image) :
  ReplayMerge.m_image rm = Some image ->
  is_int64 (ReplayMerge.m_nextTargetPosition rm - position) ->
  ∃ b : bool,
    ReplayMerge.shouldStopAndRemoveReplay rm position = Some b
    ∧ (b = true <->
         ReplayMerge.m_isLiveAdded rm = true
         ∧ ReplayMerge.m_nextTargetPosition rm - position <= 0
         ∧ ReplayMerge.activeTransportCount image >= 2)
    ∧ (ReplayMerge.activeTransportCount image = 1 -> b = false).
Proof.
  intros Himage Hrange.
  unfold ReplayMerge.shouldStopAndRemoveReplay,
    ReplayMerge.REPLAY_MERGE_REPLAY_REMOVE_THRESHOLD, sub64.
  rewrite (wrap64_id _ Hrange), Himage.
  destruct (ReplayMerge.m_isLiveAdded rm);
    [| exists false; repeat split; (done || by intros (? & _))].
  destruct (Z.leb_spec (ReplayMerge.m_nextTargetPosition rm - position) 0) as [Hle | Hgt].
  - cbn. exists (ReplayMerge.activeTransportCount image >=? 2). split; [reflexivity |].
    rewrite Z.geb_le. split; [| intros ->; reflexivity].
    split; [intros H; repeat split; (done || lia) | intros (_ & _ & H); lia].
  - exists false. repeat split; try done. intros (_ & H & _). lia.
Qed.

(** At the target position with the live destination added: two transports
    stop the replay, one does not. *)
Lemma shouldStopAndRemoveReplay_scenario :
  ReplayMerge.m_image (merging_controller 2)
    = Some (ReplayMerge.mk_image 2 10050)
  ∧ is_int64 (ReplayMerge.m_nextTargetPosition (merging_controller 2) - 10050)
  ∧ ReplayMerge.shouldStopAndRemoveReplay (merging_controller 2) 10050 = Some true
  ∧ ReplayMerge.shouldStopAndRemoveReplay (merging_controller 1) 10050 = Some false.
Proof.
  assert (Hrange : ∀ n,
    is_int64 (ReplayMerge.m_nextTargetPosition (merging_controller n) - 10050))
    by (intros n; vm_compute; split; discriminate).
  split; [reflexivity |]. split; [apply Hrange |]. split.
  - destruct (shouldStopAndRemoveReplay_iff (merging_controller 2) 10050
                (ReplayMerge.mk_image 2 10050) eq_refl (Hrange 2))
      as (b & Hb & Hiff & _).
    rewrite Hb. f_equal. apply Hiff. vm_compute. repeat split; discriminate.
  - destruct (shouldStopAndRemoveReplay_iff (merging_controller 1) 10050
                (ReplayMerge.mk_image 1 10050) eq_refl (Hrange 1))
      as (b & Hb & _ & Hone).
    rewrite Hb. f_equal. apply Hone. reflexivity.
Defined.

(** * Further properties of the publication *)

(** ** Flow control: what a call changes *)

Lemma foldr_max_ge (ps : list Z) (c : Z) : c <= foldr Z.max c ps.
Proof. induction ps as [| p ps IH]; cbn; lia. Qed.

Lemma foldr_max_elem (ps : list Z) (c p : Z) : p ∈ ps -> p <= foldr Z.max c ps.
Proof.
  induction ps as [| q ps IH]; [by intros ?%elem_of_nil |].
  intros [-> | Hin]%elem_of_cons; cbn; [lia |]. specialize (IH Hin). lia.
Qed.

Lemma foldr_max_absorb (ps : list Z) (c : Z) :
  foldr Z.max (foldr Z.max c ps) ps = foldr Z.max c ps.
Proof.
  assert (H : ∀ qs m, (∀ q, q ∈ qs -> q <= m) -> foldr Z.max m qs = m).
  { induction qs as [| q qs IH]; intros m Hm; [done |]. cbn.
    rewrite IH by (intros; apply Hm; by right).
    assert (q <= m) by (apply Hm; left). lia. }
  apply H. intros q Hq. by apply foldr_max_elem.
Qed.

(** The scan depends on the world through the counters of the
    subscribers only. *)
Lemma active_positions_ext (w1 w2 : world)
    (array : list aeron_tetherable_position_t) :
  (∀ a, a ∈ value_addr <$> array -> counters w1 !! a = counters w2 !! a) ->
  active_positions w1 array = active_positions w2 array.
Proof.
  intros Hsame. unfold active_positions.
  apply list_fmap_ext. intros i tp Hi.
  unfold aeron_counter_get_volatile, aeron_counter_get. f_equal.
  apply Hsame, list_elem_of_fmap. exists tp. split; [done |].
  apply list_elem_of_lookup_2 in Hi. by apply list_elem_of_filter in Hi as [_ ?].
Qed.

Section FlowControlFrame.
Context {headers : LogbufferHeaders}.

(** The three ways through [update_pub_lmt]. *)
Lemma update_pub_lmt_cases (w w' : world)
    (publication publication' : aeron_ipc_publication_t) (n : Z) :
  let fields := conductor_fields publication in
  let min_sub_pos := (scan_positions w publication).1 in
  let max_sub_pos := (scan_positions w publication).2 in
  let proposed_limit := add64 min_sub_pos (term_window_length publication) in
  aeron_ipc_publication_update_pub_lmt w publication = Some (w', publication', n) ->
  (subscribable fields = [] ∧ w' = w ∧ publication' = publication ∧ n = 0)
  ∨ (subscribable fields ≠ [] ∧ proposed_limit <= trip_limit fields
     ∧ w' = w
     ∧ publication' =
         set_conductor_fields (set_consumer_position max_sub_pos fields) publication
     ∧ n = 0)
  ∨ (subscribable fields ≠ [] ∧ proposed_limit > trip_limit fields
     ∧ ∃ clean buffers,
         w' = aeron_counter_set_ordered w
                (pos_value_addr (pub_lmt_position publication)) proposed_limit
         ∧ publication' =
             set_conductor_fields
               (set_consumer_position max_sub_pos
                  (set_trip_limit (add64 proposed_limit (trip_gain publication))
                     (set_clean_position clean fields)))
               (set_mapped_raw_log
                  (set_term_buffers buffers (mapped_raw_log publication))
                  publication)
         ∧ n = 1).
Proof.
  intros fields min_sub_pos max_sub_pos proposed_limit Hrun.
  destruct (decide (subscribable fields = [])) as [Hnil | Hne].
  - left. unfold aeron_ipc_publication_update_pub_lmt in Hrun.
    fold fields in Hrun. rewrite Hnil in Hrun. cbn in Hrun. by injection Hrun as <- <- <-.
  - right. rewrite (update_pub_lmt_nonempty w publication Hne) in Hrun.
    cbv zeta in Hrun. fold min_sub_pos max_sub_pos proposed_limit fields in Hrun.
    destruct (Z.gtb_spec proposed_limit (trip_limit fields)) as [Hgt | Hle].
    + right. split; [done |]. split; [lia |].
      destruct (aeron_ipc_publication_clean_buffer publication min_sub_pos)
        as [publication1 |] eqn:Hclean; [| done].
      destruct (clean_buffer_frame _ _ _ Hclean) as (clean & buffers & ->).
      cbn in Hrun. injection Hrun as <- <- <-. by exists clean, buffers.
    + left. injection Hrun as <- <- <-. done.
Qed.

(** X1.  A call of [update_pub_lmt] that returns leaves
    [consumer_position] at the greatest of its old value and the positions
    of the subscribers that are not RESTING, so never below its old value,
    and leaves the subscribers, the reference count and the lifecycle state
    of the publication as they were. *)
Theorem update_pub_lmt_consumer_position (w w' : world)
    (publication publication' : aeron_ipc_publication_t) (n : Z) :
  aeron_ipc_publication_update_pub_lmt w publication = Some (w', publication', n) ->
  consumer_position (conductor_fields publication')
    = foldr Z.max (consumer_position (conductor_fields publication))
        (active_positions w (subscribable (conductor_fields publication)))
  ∧ consumer_position (conductor_fields publication)
      <= consumer_position (conductor_fields publication')
  ∧ subscribable (conductor_fields publication')
      = subscribable (conductor_fields publication)
  ∧ refcnt (conductor_fields publication') = refcnt (conductor_fields publication)
  ∧ pub_state (conductor_fields publication')
      = pub_state (conductor_fields publication).
Proof.
  intros Hrun.
  assert (Hmax : (scan_positions w publication).2
                 = foldr Z.max (consumer_position (conductor_fields publication))
                     (active_positions w (subscribable (conductor_fields publication))))
    by (by rewrite scan_positions_min_max).
  pose proof (foldr_max_ge
    (active_positions w (subscribable (conductor_fields publication)))
    (consumer_position (conductor_fields publication))) as Hge.
  destruct (update_pub_lmt_cases _ _ _ _ _ Hrun)
    as [(Hnil & _ & -> & _) | [(_ & _ & _ & -> & _) | (_ & _ & ? & ? & _ & -> & _)]].
  - rewrite Hnil. cbn. repeat split; (done || lia).
  - cbn. rewrite Hmax. repeat split; (done || lia).
  - cbn. rewrite Hmax. repeat split; (done || lia).
Qed.

(** X2.  A call of [update_pub_lmt] that returns reports 0 or 1.  With 0
    the world is exactly as before: no counter is stored and nothing is
    emitted.  With 1 it has made one ordered store, of the proposed limit
    to the publication limit, and that limit was above the old trip limit.
    In both cases every other counter, the subscribers' among them, keeps
    its value. *)
Theorem update_pub_lmt_stores (w w' : world)
    (publication publication' : aeron_ipc_publication_t) (n : Z) :
  let pub_lmt := pos_value_addr (pub_lmt_position publication) in
  let proposed_limit :=
    add64 (scan_positions w publication).1 (term_window_length publication) in
  aeron_ipc_publication_update_pub_lmt w publication = Some (w', publication', n) ->
  (n = 0 ∧ w' = w
   ∨ n = 1
     ∧ proposed_limit > trip_limit (conductor_fields publication)
     ∧ trace w' = trace w ++ [EvCounterSetOrdered pub_lmt proposed_limit]
     ∧ aeron_counter_get w' pub_lmt = proposed_limit)
  ∧ ∀ a, a ≠ pub_lmt -> counters w' !! a = counters w !! a.
Proof.
  intros pub_lmt proposed_limit Hrun.
  destruct (update_pub_lmt_cases _ _ _ _ _ Hrun)
    as [(_ & -> & _ & ->) | [(_ & _ & -> & _ & ->) | (_ & Hgt & ? & ? & -> & _ & ->)]].
  - split; [by left | done].
  - split; [by left | done].
  - split.
    + right. split; [done |]. split; [exact Hgt |].
      split; [done | apply counter_get_set_same].
    + intros a Hne. cbn. by rewrite lookup_insert_ne.
Qed.

(** X3.  Hysteresis.  After a call that advanced the limit, a second
    call without any subscriber movement reports 0 and changes neither
    the world nor the publication, provided the trip gain is not negative,
    the new trip limit did not overflow and the publication limit counter
    is not the position counter of a subscriber. *)
Theorem update_pub_lmt_settles (w w' : world)
    (publication publication' : aeron_ipc_publication_t) :
  let proposed_limit :=
    add64 (scan_positions w publication).1 (term_window_length publication) in
  aeron_ipc_publication_update_pub_lmt w publication = Some (w', publication', 1) ->
  pos_value_addr (pub_lmt_position publication)
    ∉ value_addr <$> subscribable (conductor_fields publication) ->
  0 <= trip_gain publication ->
  is_int64 (proposed_limit + trip_gain publication) ->
  aeron_ipc_publication_update_pub_lmt w' publication' = Some (w', publication', 0).
Proof.
  intros proposed_limit Hrun Hfresh Hgain Hrange.
  destruct (update_pub_lmt_cases _ _ _ _ _ Hrun)
    as [(_ & _ & _ & ?) | [(_ & _ & _ & _ & ?) | (Hne & Hgt & clean & buffers & -> & -> & _)]];
    [done | done |].
  set (w' := aeron_counter_set_ordered w _ _).
  set (publication' := set_conductor_fields _ _).
  assert (Hscan : scan_positions w' publication'
                  = ((scan_positions w publication).1, (scan_positions w publication).2)).
  { rewrite (scan_positions_min_max w' publication'). cbv zeta.
    change (subscribable (conductor_fields publication'))
      with (subscribable (conductor_fields publication)).
    change (consumer_position (conductor_fields publication'))
      with ((scan_positions w publication).2).
    rewrite (active_positions_ext w' w).
    - rewrite (scan_positions_min_max w publication). cbn [fst snd].
      by rewrite foldr_max_absorb.
    - intros a Ha. subst w'. cbn. apply lookup_insert_ne. intros <-. by apply Hfresh. }
  rewrite (update_pub_lmt_nonempty w' publication') by exact Hne.
  cbv zeta. rewrite Hscan. cbn [fst snd].
  change (term_window_length publication') with (term_window_length publication).
  fold proposed_limit.
  change (trip_limit (conductor_fields publication'))
    with (add64 proposed_limit (trip_gain publication)).
  assert (Htrip : add64 proposed_limit (trip_gain publication)
                  = proposed_limit + trip_gain publication)
    by apply (wrap64_id _ Hrange).
  destruct (Z.gtb_spec proposed_limit (add64 proposed_limit (trip_gain publication)));
    [lia | reflexivity].
Qed.

(** X4.  [update_pub_lmt] keeps the publication limit at or below the
    trip limit and never lowers it: if the limit is at most the trip limit
    before a call that returns, then, with a trip gain that is not negative
    and a new trip limit that does not overflow, the limit after the call
    is at least what it was and at most the new trip limit. *)
Theorem update_pub_lmt_limit_invariant (w w' : world)
    (publication publication' : aeron_ipc_publication_t) (n : Z) :
  let pub_lmt := pos_value_addr (pub_lmt_position publication) in
  let proposed_limit :=
    add64 (scan_positions w publication).1 (term_window_length publication) in
  aeron_ipc_publication_update_pub_lmt w publication = Some (w', publication', n) ->
  aeron_counter_get w pub_lmt <= trip_limit (conductor_fields publication) ->
  0 <= trip_gain publication ->
  is_int64 (proposed_limit + trip_gain publication) ->
  aeron_counter_get w pub_lmt <= aeron_counter_get w' pub_lmt
  ∧ aeron_counter_get w' pub_lmt <= trip_limit (conductor_fields publication')
  ∧ pos_value_addr (pub_lmt_position publication') = pub_lmt.
Proof.
  intros pub_lmt proposed_limit Hrun Hinv Hgain Hrange.
  destruct (update_pub_lmt_cases _ _ _ _ _ Hrun)
    as [(_ & -> & -> & _) | [(_ & _ & -> & -> & _) | (_ & Hgt & ? & ? & -> & -> & _)]].
  - repeat split; (done || lia).
  - cbn. repeat split; (done || lia).
  - fold proposed_limit in Hgt |- *. fold pub_lmt.
    rewrite counter_get_set_same. cbn.
    assert (Htrip : add64 proposed_limit (trip_gain publication)
                    = proposed_limit + trip_gain publication)
      by apply (wrap64_id _ Hrange).
    repeat split; (done || lia).
Qed.

End FlowControlFrame.

(** The run behind the scenarios of this section. *)
Lemma windowed_update :
  aeron_ipc_publication_update_pub_lmt (headers := spec_headers 0)
    windowed_world windowed_publication
  = Some (windowed_world_after, windowed_publication_after, 1).
Proof. reflexivity. Qed.

Lemma update_pub_lmt_consumer_position_scenario :
  aeron_ipc_publication_update_pub_lmt (headers := spec_headers 0)
    windowed_world windowed_publication
  = Some (windowed_world_after, windowed_publication_after, 1)
  ∧ consumer_position (conductor_fields windowed_publication)
      <= consumer_position (conductor_fields windowed_publication_after)
  ∧ subscribable (conductor_fields windowed_publication_after)
      = subscribable (conductor_fields windowed_publication).
Proof.
  split; [exact windowed_update |].
  destruct (update_pub_lmt_consumer_position (headers := spec_headers 0)
              _ _ _ _ _ windowed_update) as (_ & Hle & Hsame & _).
  split; [exact Hle | exact Hsame].
Defined.

Lemma update_pub_lmt_stores_scenario :
  aeron_ipc_publication_update_pub_lmt (headers := spec_headers 0)
    windowed_world windowed_publication
  = Some (windowed_world_after, windowed_publication_after, 1)
  ∧ counters windowed_world_after !! 100 = counters windowed_world !! 100.
Proof.
  split; [exact windowed_update |].
  destruct (update_pub_lmt_stores (headers := spec_headers 0)
              _ _ _ _ _ windowed_update) as (_ & Hother).
  apply Hother. discriminate.
Defined.

Lemma update_pub_lmt_settles_scenario :
  (pos_value_addr (pub_lmt_position windowed_publication)
    ∉ value_addr <$> subscribable (conductor_fields windowed_publication))
  ∧ 0 <= trip_gain windowed_publication
  ∧ aeron_ipc_publication_update_pub_lmt (headers := spec_headers 0)
      windowed_world_after windowed_publication_after
    = Some (windowed_world_after, windowed_publication_after, 0).
Proof.
  assert (Hfresh : pos_value_addr (pub_lmt_position windowed_publication)
            ∉ (value_addr <$> subscribable (conductor_fields windowed_publication))).
  { intros Hin. apply list_elem_of_singleton in Hin. discriminate. }
  assert (Hgain : 0 <= trip_gain windowed_publication) by (vm_compute; discriminate).
  split; [exact Hfresh |]. split; [exact Hgain |].
  apply (update_pub_lmt_settles (headers := spec_headers 0)
           _ _ _ _ windowed_update Hfresh Hgain).
  vm_compute. split; discriminate.
Defined.

Lemma update_pub_lmt_limit_invariant_scenario :
  aeron_counter_get windowed_world 1
    <= trip_limit (conductor_fields windowed_publication)
  ∧ aeron_counter_get windowed_world 1 <= aeron_counter_get windowed_world_after 1
  ∧ aeron_counter_get windowed_world_after 1
      <= trip_limit (conductor_fields windowed_publication_after).
Proof.
  assert (Hinv : aeron_counter_get windowed_world
                   (pos_value_addr (pub_lmt_position windowed_publication))
                 <= trip_limit (conductor_fields windowed_publication))
    by (vm_compute; discriminate).
  assert (Hgain : 0 <= trip_gain windowed_publication) by (vm_compute; discriminate).
  split; [exact Hinv |].
  destruct (update_pub_lmt_limit_invariant (headers := spec_headers 0)
              _ _ _ _ _ windowed_update Hinv Hgain) as (Hup & Hbelow & _).
  - vm_compute. split; discriminate.
  - split; [exact Hup | exact Hbelow].
Defined.

(** ** Untethered subscriptions: the other transitions *)

Lemma check_untethered_loop_length context publication now_ns array :
  ∀ w, length (check_untethered_loop context publication now_ns w array).2
       = length array.
Proof.
  induction array as [| tp rest IH]; intros w; cbn; [done |].
  destruct (check_untethered_slot context publication now_ns w tp) as [w1 slot].
  specialize (IH w1).
  destruct (check_untethered_loop context publication now_ns w1 rest) as [w2 rest'].
  cbn in *. by rewrite IH.
Qed.

Lemma check_untethered_loop_counters context publication now_ns array :
  ∀ w a, a ∉ value_addr <$> array ->
    counters (check_untethered_loop context publication now_ns w array).1 !! a
      = counters w !! a.
Proof.
  induction array as [| tp rest IH]; intros w a Ha; cbn; [done |].
  apply not_elem_of_cons in Ha as [Hne Ha].
  pose proof (check_untethered_slot_counters context publication now_ns w tp a Hne) as Hc.
  destruct (check_untethered_slot context publication now_ns w tp) as [w1 slot].
  specialize (IH w1 a Ha).
  destruct (check_untethered_loop context publication now_ns w1 rest) as [w2 rest'].
  cbn in *. by rewrite IH.
Qed.

(** Slot [i] with the world before it and the world after the loop. *)
Lemma check_untethered_loop_around context publication now_ns array :
  ∀ w (i : nat) tp,
    array !! i = Some tp ->
    ∃ wi before after,
      (check_untethered_loop context publication now_ns w array).2 !! i
        = Some (check_untethered_slot context publication now_ns wi tp).2
      ∧ (∀ a, a ∉ value_addr <$> take i array -> counters wi !! a = counters w !! a)
      ∧ trace wi = trace w ++ before
      ∧ trace (check_untethered_loop context publication now_ns w array).1
          = trace (check_untethered_slot context publication now_ns wi tp).1 ++ after
      ∧ (∀ a, a ∉ value_addr <$> drop (S i) array ->
           counters (check_untethered_loop context publication now_ns w array).1 !! a
           = counters (check_untethered_slot context publication now_ns wi tp).1 !! a).
Proof.
  induction array as [| tp0 rest IH]; intros w i tp Hi; [done |].
  destruct i as [| i]; cbn in Hi.
  - injection Hi as ->. exists w, []. cbn.
    pose proof (check_untethered_loop_counters context publication now_ns rest) as Hc.
    destruct (check_untethered_slot context publication now_ns w tp) as [w1 slot] eqn:Hs.
    specialize (Hc w1).
    destruct (check_untethered_loop_trace context publication now_ns rest w1)
      as [events Hrest].
    destruct (check_untethered_loop context publication now_ns w1 rest) as [w2 rest'].
    cbn in *. exists events. rewrite app_nil_r. rewrite drop_0. done.
  - cbn.
    pose proof (check_untethered_slot_counters context publication now_ns w tp0) as Hc.
    destruct (check_untethered_slot_trace context publication now_ns w tp0)
      as [events1 Ht].
    destruct (check_untethered_slot context publication now_ns w tp0) as [w1 slot].
    destruct (IH w1 i tp Hi) as (wi & before & after & Hlook & Hcnt & Htr & Hfin & Hafter).
    destruct (check_untethered_loop context publication now_ns w1 rest) as [w2 rest'].
    cbn in *. exists wi, (events1 ++ before), after.
    split; [exact Hlook |]. split; [| split; [| split; [exact Hfin | exact Hafter]]].
    + intros a Ha. apply not_elem_of_cons in Ha as [Hne Ha].
      rewrite (Hcnt a Ha). by apply Hc.
    + by rewrite Htr, Ht, app_assoc.
Qed.

Lemma value_addr_fresh_after (array : list aeron_tetherable_position_t) (i : nat) tp :
  NoDup (value_addr <$> array) ->
  array !! i = Some tp ->
  value_addr tp ∉ value_addr <$> drop (S i) array.
Proof.
  intros Hnd Hi.
  rewrite <- (take_drop_middle array i tp Hi), fmap_app in Hnd.
  apply NoDup_app in Hnd as (_ & _ & Hnd). cbn in Hnd.
  by apply NoDup_cons in Hnd as [? _].
Qed.

Lemma check_untethered_result (context : aeron_driver_timeouts_t) (w : world)
    (publication : aeron_ipc_publication_t) (now_ns : Z) :
  let loop :=
    check_untethered_loop context publication now_ns w
      (subscribable (conductor_fields publication)) in
  aeron_ipc_publication_check_untethered_subscriptions context w publication now_ns
  = (loop.1,
     set_conductor_fields (set_subscribable loop.2 (conductor_fields publication))
       publication).
Proof.
  cbv zeta. unfold aeron_ipc_publication_check_untethered_subscriptions.
  by destruct (check_untethered_loop _ _ _ _ _).
Qed.

(** X5.  An untethered subscriber in LINGER becomes RESTING, its time of
    last update set to [now_ns], once [now_ns] exceeds that time plus the
    window limit timeout; until then its slot is left as it is.  Its
    position plays no part. *)
Theorem check_untethered_linger (context : aeron_driver_timeouts_t) (w : world)
    (publication : aeron_ipc_publication_t) (now_ns : Z)
    (i : nat) (tp : aeron_tetherable_position_t) :
  let timeout := untethered_window_limit_timeout_ns context in
  let r :=
    aeron_ipc_publication_check_untethered_subscriptions context w publication now_ns in
  subscribable (conductor_fields publication) !! i = Some tp ->
  is_tether tp = false ->
  state tp = AERON_SUBSCRIPTION_TETHER_LINGER ->
  is_int64 (time_of_last_update_ns tp + timeout) ->
  subscribable (conductor_fields r.2) !! i
  = Some (if decide (now_ns > time_of_last_update_ns tp + timeout)
          then set_tether AERON_SUBSCRIPTION_TETHER_RESTING now_ns tp
          else tp).
Proof.
  intros timeout r Hi Htether Hstate Htime. subst r.
  rewrite check_untethered_result.
  cbn [fst snd subscribable conductor_fields set_conductor_fields set_subscribable].
  destruct (check_untethered_loop_around context publication now_ns _ w i tp Hi)
    as (wi & _ & _ & -> & _).
  f_equal. unfold check_untethered_slot. rewrite Htether, Hstate.
  unfold add64. cbv zeta. fold timeout. rewrite (wrap64_id _ Htime).
  destruct (Z.gtb_spec now_ns (time_of_last_update_ns tp + timeout));
    case_decide; (done || lia).
Qed.

(** X6.  An untethered subscriber in RESTING is left as it is until
    [now_ns] exceeds its time of last update plus the resting timeout.
    Then it becomes ACTIVE with its time set to [now_ns], its counter is
    set to [consumer_position] by an ordered store that is followed at once
    by [on_available_image] for its counter and subscription; when no
    other slot shares the counter, the counter holds [consumer_position]
    when the function returns. *)
Theorem check_untethered_resting (context : aeron_driver_timeouts_t) (w : world)
    (publication : aeron_ipc_publication_t) (now_ns : Z)
    (i : nat) (tp : aeron_tetherable_position_t) :
  let array := subscribable (conductor_fields publication) in
  let timeout := untethered_resting_timeout_ns context in
  let consumer_position := consumer_position (conductor_fields publication) in
  let r :=
    aeron_ipc_publication_check_untethered_subscriptions context w publication now_ns in
  array !! i = Some tp ->
  is_tether tp = false ->
  state tp = AERON_SUBSCRIPTION_TETHER_RESTING ->
  is_int64 (time_of_last_update_ns tp + timeout) ->
  (now_ns <= time_of_last_update_ns tp + timeout ->
     subscribable (conductor_fields r.2) !! i = Some tp)
  ∧ (now_ns > time_of_last_update_ns tp + timeout ->
       subscribable (conductor_fields r.2) !! i
         = Some (set_tether AERON_SUBSCRIPTION_TETHER_ACTIVE now_ns tp)
       ∧ (∃ before after,
            trace r.1 =
              trace w ++ before
              ++ [EvCounterSetOrdered (value_addr tp) consumer_position;
                  EvOnAvailableImage
                    (registration_id (conductor_fields publication))
                    (stream_id publication) (session_id publication)
                    (log_file_name publication) (counter_id tp)
                    (subscription_registration_id tp)]
              ++ after)
       ∧ (NoDup (value_addr <$> array) ->
            aeron_counter_get r.1 (value_addr tp) = consumer_position)).
Proof.
  intros array timeout consumer_position r Hi Htether Hstate Htime. subst r.
  rewrite check_untethered_result.
  cbn [fst snd subscribable conductor_fields set_conductor_fields set_subscribable].
  fold array.
  destruct (check_untethered_loop_around context publication now_ns _ w i tp Hi)
    as (wi & before & after & -> & _ & Htr & -> & Hafter).
  unfold check_untethered_slot in *. rewrite Htether, Hstate in *.
  unfold add64 in *. cbv zeta in *. fold timeout consumer_position in Hafter |- *.
  rewrite (wrap64_id _ Htime) in *.
  destruct (Z.gtb_spec now_ns (time_of_last_update_ns tp + timeout)) as [Hlate | Hearly].
  - split; [lia |]. intros _. cbn in *. split; [reflexivity |]. split.
    + exists before, after. rewrite Htr, <- !app_assoc. reflexivity.
    + intros Hnd. unfold aeron_counter_get.
      rewrite (Hafter _ (value_addr_fresh_after array i tp Hnd Hi)).
      by rewrite lookup_insert_eq.
  - split; [done | lia].
Qed.

(** What the loop body may do to a slot. *)
Lemma check_untethered_slot_edge (context : aeron_driver_timeouts_t)
    (publication : aeron_ipc_publication_t) (now_ns : Z) (w : world)
    (tp : aeron_tetherable_position_t) :
  let tp' := (check_untethered_slot context publication now_ns w tp).2 in
  (counter_id tp' = counter_id tp
   ∧ value_addr tp' = value_addr tp
   ∧ subscription_registration_id tp' = subscription_registration_id tp
   ∧ is_tether tp' = is_tether tp)
  ∧ (is_tether tp = true -> tp' = set_tether (state tp) now_ns tp)
  ∧ (state tp' = state tp
     ∨ is_tether tp = false
       ∧ time_of_last_update_ns tp' = now_ns
       ∧ (state tp = AERON_SUBSCRIPTION_TETHER_ACTIVE
            ∧ state tp' = AERON_SUBSCRIPTION_TETHER_LINGER
          ∨ state tp = AERON_SUBSCRIPTION_TETHER_LINGER
            ∧ state tp' = AERON_SUBSCRIPTION_TETHER_RESTING
          ∨ state tp = AERON_SUBSCRIPTION_TETHER_RESTING
            ∧ state tp' = AERON_SUBSCRIPTION_TETHER_ACTIVE)).
Proof.
  destruct tp as [cid addr reg tether st time]. unfold check_untethered_slot. cbn.
  destruct tether; [by repeat split; auto |].
  destruct st; repeat case_match; cbn; repeat split; auto 10; done.
Qed.

(** X7.  The function changes nothing of the publication but the slots of
    the subscribable array, whose number it keeps.  Every slot keeps its
    counter, its subscription and its tether flag.  A tethered slot keeps
    its state and has its time of last update set to [now_ns].  An
    untethered slot either keeps its state or moves along one of the edges
    ACTIVE to LINGER, LINGER to RESTING, RESTING to ACTIVE, and then its
    time of last update is [now_ns]. *)
Theorem check_untethered_edges (context : aeron_driver_timeouts_t) (w : world)
    (publication : aeron_ipc_publication_t) (now_ns : Z)
    (i : nat) (tp : aeron_tetherable_position_t) :
  let r :=
    aeron_ipc_publication_check_untethered_subscriptions context w publication now_ns in
  let array' := subscribable (conductor_fields r.2) in
  subscribable (conductor_fields publication) !! i = Some tp ->
  r.2 = set_conductor_fields
          (set_subscribable array' (conductor_fields publication)) publication
  ∧ length array' = length (subscribable (conductor_fields publication))
  ∧ ∃ tp',
      array' !! i = Some tp'
      ∧ counter_id tp' = counter_id tp
      ∧ value_addr tp' = value_addr tp
      ∧ subscription_registration_id tp' = subscription_registration_id tp
      ∧ is_tether tp' = is_tether tp
      ∧ (is_tether tp = true -> tp' = set_tether (state tp) now_ns tp)
      ∧ (state tp' = state tp
         ∨ is_tether tp = false
           ∧ time_of_last_update_ns tp' = now_ns
           ∧ (state tp = AERON_SUBSCRIPTION_TETHER_ACTIVE
                ∧ state tp' = AERON_SUBSCRIPTION_TETHER_LINGER
              ∨ state tp = AERON_SUBSCRIPTION_TETHER_LINGER
                ∧ state tp' = AERON_SUBSCRIPTION_TETHER_RESTING
              ∨ state tp = AERON_SUBSCRIPTION_TETHER_RESTING
                ∧ state tp' = AERON_SUBSCRIPTION_TETHER_ACTIVE)).
Proof.
  intros r array' Hi. subst array' r.
  rewrite check_untethered_result.
  cbn [fst snd subscribable conductor_fields set_conductor_fields set_subscribable].
  split; [reflexivity |]. split; [apply check_untethered_loop_length |].
  destruct (check_untethered_loop_around context publication now_ns _ w i tp Hi)
    as (wi & _ & _ & -> & _).
  destruct (check_untethered_slot_edge context publication now_ns wi tp)
    as ((? & ? & ? & ?) & ? & ?).
  eexists. split; [reflexivity |]. done.
Qed.

(** X8.  When every subscriber is tethered the function stores no
    counter and emits nothing: the world is as before, and every slot has
    its time of last update set to [now_ns] and is otherwise unchanged. *)
Theorem check_untethered_all_tethered (context : aeron_driver_timeouts_t)
    (w : world) (publication : aeron_ipc_publication_t) (now_ns : Z) :
  Forall (fun tp => is_tether tp = true)
    (subscribable (conductor_fields publication)) ->
  aeron_ipc_publication_check_untethered_subscriptions context w publication now_ns
  = (w, set_conductor_fields
          (set_subscribable
             ((fun tp => set_tether (state tp) now_ns tp)
                <$> subscribable (conductor_fields publication))
             (conductor_fields publication))
          publication).
Proof.
  intros Hall. rewrite check_untethered_result. cbv zeta.
  assert (Hloop :
    check_untethered_loop context publication now_ns w
      (subscribable (conductor_fields publication))
    = (w, (fun tp => set_tether (state tp) now_ns tp)
            <$> subscribable (conductor_fields publication))).
  { induction Hall as [| tp array Htp _ IH]; [done |].
    cbn. unfold check_untethered_slot at 1. rewrite Htp, IH. reflexivity. }
  by rewrite Hloop.
Qed.

(** Two seconds after the last update, with timeouts of one second. *)
Lemma check_untethered_linger_scenario :
  is_int64 (time_of_last_update_ns lingering_subscriber
            + untethered_window_limit_timeout_ns one_second_timeouts)
  ∧ subscribable
      (conductor_fields
         (aeron_ipc_publication_check_untethered_subscriptions one_second_timeouts
            mixed_world mixed_publication 2000000000).2) !! 1%nat
    = Some (set_tether AERON_SUBSCRIPTION_TETHER_RESTING 2000000000
              lingering_subscriber).
Proof.
  assert (Htime : is_int64 (time_of_last_update_ns lingering_subscriber
                            + untethered_window_limit_timeout_ns one_second_timeouts))
    by (vm_compute; split; discriminate).
  split; [exact Htime |].
  rewrite (check_untethered_linger one_second_timeouts mixed_world mixed_publication
             2000000000 1%nat lingering_subscriber eq_refl eq_refl eq_refl Htime).
  reflexivity.
Defined.

Lemma check_untethered_resting_scenario :
  is_int64 (time_of_last_update_ns sleeping_subscriber
            + untethered_resting_timeout_ns one_second_timeouts)
  ∧ NoDup (value_addr <$> subscribable (conductor_fields mixed_publication))
  ∧ subscribable
      (conductor_fields
         (aeron_ipc_publication_check_untethered_subscriptions one_second_timeouts
            mixed_world mixed_publication 2000000000).2) !! 2%nat
    = Some (set_tether AERON_SUBSCRIPTION_TETHER_ACTIVE 2000000000
              sleeping_subscriber)
  ∧ aeron_counter_get
      (aeron_ipc_publication_check_untethered_subscriptions one_second_timeouts
         mixed_world mixed_publication 2000000000).1 102
    = 4096.
Proof.
  assert (Htime : is_int64 (time_of_last_update_ns sleeping_subscriber
                            + untethered_resting_timeout_ns one_second_timeouts))
    by (vm_compute; split; discriminate).
  assert (Hnd : NoDup (value_addr <$> subscribable (conductor_fields mixed_publication))).
  { apply (bool_decide_unpack _). by vm_compute. }
  split; [exact Htime |]. split; [exact Hnd |].
  destruct (check_untethered_resting one_second_timeouts mixed_world mixed_publication
              2000000000 2%nat sleeping_subscriber eq_refl eq_refl eq_refl Htime)
    as [_ Hlate].
  destruct Hlate as (Hslot & _ & Hcounter); [reflexivity |].
  split; [exact Hslot | exact (Hcounter Hnd)].
Defined.

Lemma check_untethered_edges_scenario :
  subscribable (conductor_fields mixed_publication) !! 1%nat
    = Some lingering_subscriber
  ∧ length
      (subscribable
         (conductor_fields
            (aeron_ipc_publication_check_untethered_subscriptions one_second_timeouts
               mixed_world mixed_publication 2000000000).2))
    = 3%nat.
Proof.
  split; [reflexivity |].
  destruct (check_untethered_edges one_second_timeouts mixed_world mixed_publication
              2000000000 1%nat lingering_subscriber eq_refl) as (_ & Hlength & _).
  exact Hlength.
Defined.

Lemma check_untethered_all_tethered_scenario :
  Forall (fun tp => is_tether tp = true)
    (subscribable (conductor_fields windowed_publication))
  ∧ (aeron_ipc_publication_check_untethered_subscriptions one_second_timeouts
       windowed_world windowed_publication 2000000000).1
    = windowed_world.
Proof.
  assert (Hall : Forall (fun tp => is_tether tp = true)
                   (subscribable (conductor_fields windowed_publication)))
    by (by repeat constructor).
  split; [exact Hall |].
  by rewrite (check_untethered_all_tethered one_second_timeouts windowed_world
                windowed_publication 2000000000 Hall).
Defined.

(** ** Reference counting: the other counts *)

Section ReferenceCounting.
Context {headers : LogbufferHeaders}.

(** X9.  While other references remain, that is for a count of 2 or more,
    [decref] stores the count less one and nothing else: the world, the
    lifecycle state and the log metadata are as before. *)
Theorem decref_keeps_active (w : world) (publication : aeron_ipc_publication_t) :
  1 < refcnt (conductor_fields publication) <= INT32_MAX ->
  aeron_ipc_publication_decref w publication
  = (w, set_conductor_fields
          (set_refcnt (refcnt (conductor_fields publication) - 1)
             (conductor_fields publication))
          publication).
Proof.
  intros Hrange. unfold aeron_ipc_publication_decref.
  rewrite wrap32_id by (unfold is_int32, INT32_MIN, INT32_MAX in *; lia).
  destruct (decide (0 = refcnt (conductor_fields publication) - 1)); [lia | done].
Qed.

(** X10.  [incref] followed by [decref] gives the publication back, with
    the world untouched, unless the count was 0 (the [decref] then takes
    it from 1 to 0) or [INT32_MAX]; and [decref] followed by [incref] gives
    it back unless the count was 1 or [INT32_MIN]. *)
Theorem incref_decref_round_trip (w : world) (publication : aeron_ipc_publication_t) :
  is_int32 (refcnt (conductor_fields publication)) ->
  (refcnt (conductor_fields publication) ≠ 0 ->
   refcnt (conductor_fields publication) ≠ INT32_MAX ->
   aeron_ipc_publication_decref w (aeron_ipc_publication_incref publication)
   = (w, publication))
  ∧ (refcnt (conductor_fields publication) ≠ 1 ->
     refcnt (conductor_fields publication) ≠ INT32_MIN ->
     aeron_ipc_publication_incref (aeron_ipc_publication_decref w publication).2
     = publication).
Proof.
  unfold is_int32, INT32_MIN, INT32_MAX. intros Hrange. split.
  - intros Hzero Hmax.
    unfold aeron_ipc_publication_decref, aeron_ipc_publication_incref. cbn.
    rewrite (wrap32_id (_ + 1)) by (unfold is_int32, INT32_MIN, INT32_MAX; lia).
    replace (refcnt (conductor_fields publication) + 1 - 1)
      with (refcnt (conductor_fields publication)) by lia.
    rewrite wrap32_id by (unfold is_int32, INT32_MIN, INT32_MAX; lia).
    destruct (decide (0 = refcnt (conductor_fields publication))); [lia |].
    by destruct publication as [[] ? ? ? ? ? ? ? ? ? ? ? ?].
  - intros Hone Hmin.
    unfold aeron_ipc_publication_decref, aeron_ipc_publication_incref.
    rewrite (wrap32_id (_ - 1)) by (unfold is_int32, INT32_MIN, INT32_MAX; lia).
    destruct (decide (0 = refcnt (conductor_fields publication) - 1)); [lia |].
    cbn.
    replace (refcnt (conductor_fields publication) - 1 + 1)
      with (refcnt (conductor_fields publication)) by lia.
    rewrite wrap32_id by (unfold is_int32, INT32_MIN, INT32_MAX; lia).
    by destruct publication as [[] ? ? ? ? ? ? ? ? ? ? ? ?].
Qed.

End ReferenceCounting.

(** A second client attaches to the publication of the last reference
    scenario and detaches again. *)
Lemma decref_keeps_active_scenario :
  1 < refcnt (conductor_fields (aeron_ipc_publication_incref last_reference_publication))
    <= INT32_MAX
  ∧ (aeron_ipc_publication_decref (headers := spec_headers 0) last_reference_world
       (aeron_ipc_publication_incref last_reference_publication)).1
    = last_reference_world.
Proof.
  assert (Hrange :
    1 < refcnt (conductor_fields (aeron_ipc_publication_incref last_reference_publication))
      <= INT32_MAX) by (vm_compute; split; [reflexivity | discriminate]).
  split; [exact Hrange |].
  by rewrite (decref_keeps_active (headers := spec_headers 0) _ _ Hrange).
Defined.

Lemma incref_decref_round_trip_scenario :
  is_int32 (refcnt (conductor_fields last_reference_publication))
  ∧ aeron_ipc_publication_decref (headers := spec_headers 0) last_reference_world
      (aeron_ipc_publication_incref last_reference_publication)
    = (last_reference_world, last_reference_publication).
Proof.
  assert (Hrange : is_int32 (refcnt (conductor_fields last_reference_publication)))
    by (vm_compute; split; discriminate).
  split; [exact Hrange |].
  apply (incref_decref_round_trip (headers := spec_headers 0) _ _ Hrange);
    vm_compute; discriminate.
Defined.

(** ** Teardown of a publication *)

Lemma free_subscriber_counters_spec (array : list aeron_tetherable_position_t) :
  ∀ w, free_subscriber_counters w array
       = mk_world (counters w)
           (trace w ++ (EvCountersManagerFree ∘ counter_id <$> array)).
Proof.
  unfold free_subscriber_counters.
  induction array as [| tp array IH]; intros w; cbn.
  - rewrite app_nil_r. by destruct w.
  - rewrite IH. cbn. by rewrite <- app_assoc.
Qed.

(** X11.  [close] of a publication that is not NULL never faults and
    never stores a counter.  It releases, in this order and each once, the
    publication limit counter, the publisher position counter, the counter
    of every subscriber in array order, the subscribable array, the
    mapping, the log file name and the structure. *)
Theorem close_releases (w : world) (publication : aeron_ipc_publication_t) :
  aeron_ipc_publication_close w (Some publication)
  = Some (mk_world (counters w)
            (trace w
             ++ [EvCountersManagerFree (pos_counter_id (pub_lmt_position publication));
                 EvCountersManagerFree (pos_counter_id (pub_pos_position publication))]
             ++ (EvCountersManagerFree ∘ counter_id
                   <$> subscribable (conductor_fields publication))
             ++ [EvFreeSubscribableArray;
                 EvMapRawLogClose (log_file_name publication);
                 EvFreeLogFileName;
                 EvFreePublication])).
Proof.
  unfold aeron_ipc_publication_close, deref. cbn -[free_subscriber_counters].
  rewrite free_subscriber_counters_spec. unfold emit. cbn.
  by rewrite <- !app_assoc.
Qed.

(** ** Construction: results and initial state *)

Section Construction.
Context {headers : LogbufferHeaders}.

(** A successful [create], spelled out. *)
Lemma create_success (context : aeron_driver_context_t) (path : string)
    (session_id stream_id registration_id : Z)
    (pub_pos_position pub_lmt_position : aeron_position_t)
    (initial_term_id : Z) (params : aeron_uri_publication_params_t)
    (is_exclusive : bool) (publication : aeron_ipc_publication_t) :
  aeron_ipc_publication_create context path session_id stream_id registration_id
    pub_pos_position pub_lmt_position initial_term_id params is_exclusive
    = Some (inr publication) ->
  (aeron_logbuffer_compute_log_length (term_length params) (file_page_size context)
     <= usable_fs_space context
   ∧ alloc_publication_ok context = true
   ∧ alloc_log_file_name_ok context = true)
  ∧ ∃ log tails term_count,
      map_raw_log_func context path (is_sparse params) (term_length params)
        (file_page_size context) = inr log
      ∧ init_term_tail_counters params initial_term_id
          (term_tail_counters (log_meta_data log)) = Some (tails, term_count)
      ∧ ∃ position,
          publication =
            mk_publication
              (mk_conductor_fields [] registration_id 0 false 0 (nano_clock context)
                 AERON_IPC_PUBLICATION_STATE_ACTIVE 1 position position position)
              (set_log_meta_data
                 (mk_metadata tails 0 initial_term_id
                    (wrap32 (mtu_length params)) (wrap32 (term_length params))
                    (wrap32 (file_page_size context)) registration_id 0 0 INT64_MAX
                    (session_id, stream_id, initial_term_id))
                 log)
              path session_id stream_id pub_lmt_position pub_pos_position
              initial_term_id
              (aeron_number_of_trailing_zeroes (wrap32 (term_length params)))
              (aeron_producer_window_length (ipc_publication_window_length context)
                 (term_length params))
              (Z.quot
                 (aeron_producer_window_length (ipc_publication_window_length context)
                    (term_length params)) 8)
              (publication_unblock_timeout_ns context)
              is_exclusive.
Proof.
  unfold aeron_ipc_publication_create. cbv zeta.
  destruct (Z.ltb_spec (usable_fs_space context)
              (aeron_logbuffer_compute_log_length (term_length params)
                 (file_page_size context))) as [| Hspace]; [done |].
  destruct (alloc_publication_ok context); [| done].
  destruct (alloc_log_file_name_ok context); [| done]. cbn [negb].
  destruct (map_raw_log_func context path _ _ _) as [errcode | log] eqn:Hmap;
    [done |].
  destruct (init_term_tail_counters _ _ _) as [[tails term_count] |] eqn:Hinit;
    [| done].
  cbn. intros [= <-]. split; [done |].
  exists log, tails, term_count. split; [done |]. split; [done |]. by eexists.
Qed.

(** X12.  [create] reports an error for one of three reasons only, tested
    in this order: the usable space is below the computed log length
    (ENOSPC), one of the two allocations fails (ENOMEM), or the mapper
    fails, and then the error code is the mapper's. *)
Theorem create_errors (context : aeron_driver_context_t) (path : string)
    (session_id stream_id registration_id : Z)
    (pub_pos_position pub_lmt_position : aeron_position_t)
    (initial_term_id : Z) (params : aeron_uri_publication_params_t)
    (is_exclusive : bool) (errcode : Z) :
  let log_length :=
    aeron_logbuffer_compute_log_length (term_length params) (file_page_size context) in
  aeron_ipc_publication_create context path session_id stream_id registration_id
    pub_pos_position pub_lmt_position initial_term_id params is_exclusive
    = Some (inl errcode) ->
  usable_fs_space context < log_length ∧ errcode = ENOSPC
  ∨ log_length <= usable_fs_space context
    ∧ (alloc_publication_ok context = false ∨ alloc_log_file_name_ok context = false)
    ∧ errcode = ENOMEM
  ∨ log_length <= usable_fs_space context
    ∧ alloc_publication_ok context = true
    ∧ alloc_log_file_name_ok context = true
    ∧ map_raw_log_func context path (is_sparse params) (term_length params)
        (file_page_size context) = inl errcode.
Proof.
  unfold aeron_ipc_publication_create. cbv zeta.
  destruct (Z.ltb_spec (usable_fs_space context)
              (aeron_logbuffer_compute_log_length (term_length params)
                 (file_page_size context))) as [Hless | Hspace].
  { intros [= <-]. by left. }
  destruct (alloc_publication_ok context); cbn [negb];
    [| intros [= <-]; right; left; auto].
  destruct (alloc_log_file_name_ok context); cbn [negb];
    [| intros [= <-]; right; left; auto].
  destruct (map_raw_log_func context path _ _ _) as [code | log].
  { intros [= <-]. right. right. auto. }
  destruct (init_term_tail_counters _ _ _) as [[tails term_count] |]; done.
Qed.

(** X13.  A publication that [create] returns is ACTIVE with one
    reference, no subscriber, a trip limit of 0 and end of life not
    reached; its consumer, last consumer and clean positions are equal;
    its trip gain is an eighth of its window; its metadata records the
    initial term id and the correlation id, is not connected, has no
    active transport, and has [end_of_stream_position = INT64_MAX].  The
    term buffers are those the mapper returned: [create] writes none of
    them. *)
Theorem create_initial_state (context : aeron_driver_context_t) (path : string)
    (session_id stream_id registration_id : Z)
    (pub_pos_position pub_lmt_position : aeron_position_t)
    (initial_term_id : Z) (params : aeron_uri_publication_params_t)
    (is_exclusive : bool) (publication : aeron_ipc_publication_t) :
  let fields := conductor_fields publication in
  let meta := log_meta_data (mapped_raw_log publication) in
  aeron_ipc_publication_create context path session_id stream_id registration_id
    pub_pos_position pub_lmt_position initial_term_id params is_exclusive
    = Some (inr publication) ->
  (pub_state fields = AERON_IPC_PUBLICATION_STATE_ACTIVE
   ∧ refcnt fields = 1
   ∧ subscribable fields = []
   ∧ trip_limit fields = 0
   ∧ has_reached_end_of_life fields = false
   ∧ time_of_last_consumer_position_change fields = nano_clock context)
  ∧ (last_consumer_position fields = consumer_position fields
     ∧ clean_position fields = consumer_position fields)
  ∧ trip_gain publication = Z.quot (term_window_length publication) 8
  ∧ (md_initial_term_id meta = initial_term_id
     ∧ md_correlation_id meta = registration_id
     ∧ is_connected meta = 0
     ∧ active_transport_count meta = 0
     ∧ end_of_stream_position meta = INT64_MAX)
  ∧ ∃ log,
      map_raw_log_func context path (is_sparse params) (term_length params)
        (file_page_size context) = inr log
      ∧ term_buffers (mapped_raw_log publication) = term_buffers log
      ∧ raw_term_length (mapped_raw_log publication) = raw_term_length log.
Proof.
  intros fields meta Hcreate. subst fields meta.
  destruct (create_success _ _ _ _ _ _ _ _ _ _ _ Hcreate)
    as (_ & log & tails & term_count & Hmap & _ & position & ->).
  cbn. repeat split. by exists log.
Qed.

End Construction.

Lemma mul64_term_id (x : Z) :
  INT32_MIN <= x <= INT32_MAX -> mul64 x (Z.shiftl 1 32) = x * 2 ^ 32.
Proof.
  unfold INT32_MIN, INT32_MAX. intros Hx.
  unfold mul64. change (Z.shiftl 1 32) with 4294967296.
  change (2 ^ 32) with 4294967296. apply wrap64_id.
  unfold is_int64, INT64_MIN, INT64_MAX. lia.
Qed.

Section TailCounters.
Context {headers : LogbufferHeaders}.

(** X14.  Outside replay mode, and for an initial term id that leaves
    room for the two subtractions in [int32_t], a successful [create]
    leaves the tail counters of partitions 0, 1 and 2 at term ids
    [initial_term_id], [initial_term_id - 2] and [initial_term_id - 1],
    each with term offset 0. *)
Theorem create_initial_tail_counters (context : aeron_driver_context_t)
    (path : string) (session_id stream_id registration_id : Z)
    (pub_pos_position pub_lmt_position : aeron_position_t)
    (initial_term_id : Z) (params : aeron_uri_publication_params_t)
    (is_exclusive : bool) (publication : aeron_ipc_publication_t) :
  let tails := term_tail_counters (log_meta_data (mapped_raw_log publication)) in
  is_replay params = false ->
  INT32_MIN + 2 <= initial_term_id <= INT32_MAX - 2 ->
  aeron_ipc_publication_create context path session_id stream_id registration_id
    pub_pos_position pub_lmt_position initial_term_id params is_exclusive
    = Some (inr publication) ->
  array_get tails 0 = Some (initial_term_id * 2 ^ 32)
  ∧ array_get tails 1 = Some ((initial_term_id - 2) * 2 ^ 32)
  ∧ array_get tails 2 = Some ((initial_term_id - 1) * 2 ^ 32).
Proof.
  intros tails Hreplay Hrange Hcreate. subst tails.
  unfold INT32_MIN, INT32_MAX in Hrange.
  destruct (create_success _ _ _ _ _ _ _ _ _ _ _ Hcreate)
    as (_ & log & tails & term_count & _ & Hinit & position & ->).
  cbn [mapped_raw_log set_log_meta_data log_meta_data term_tail_counters].
  unfold init_term_tail_counters in Hinit. rewrite Hreplay in Hinit.
  destruct (array_set _ 0 _) as [tails0 |] eqn:Hset0; [| done].
  cbn [mbind option_bind fold_left] in Hinit.
  unfold initial_tail_step in Hinit. cbn [mbind option_bind] in Hinit.
  destruct (array_set tails0 1 _) as [tails1 |] eqn:Hset1; [| done].
  cbn [mbind option_bind] in Hinit.
  destruct (array_set tails1 2 _) as [tails2 |] eqn:Hset2; [| done].
  cbn in Hinit. injection Hinit as <- _.
  rewrite !(array_get_set _ _ _ _ Hset2), !(array_get_set _ _ _ _ Hset1),
    !(array_get_set _ _ _ _ Hset0).
  unfold AERON_LOGBUFFER_PARTITION_COUNT. cbn [decide].
  assert (H1 : wrap32 (wrap32 (initial_term_id + 1) - 3) = initial_term_id - 2).
  { rewrite (wrap32_id (initial_term_id + 1))
      by (unfold is_int32, INT32_MIN, INT32_MAX; lia).
    rewrite wrap32_id by (unfold is_int32, INT32_MIN, INT32_MAX; lia). lia. }
  assert (H2 : wrap32 (wrap32 (initial_term_id + 2) - 3) = initial_term_id - 1).
  { rewrite (wrap32_id (initial_term_id + 2))
      by (unfold is_int32, INT32_MIN, INT32_MAX; lia).
    rewrite wrap32_id by (unfold is_int32, INT32_MIN, INT32_MAX; lia). lia. }
  rewrite H1, H2, !mul64_term_id by (unfold INT32_MIN, INT32_MAX; lia).
  repeat split; repeat case_decide; (done || lia).
Qed.

(** X15.  In replay mode, for a term id of at least [INT32_MIN + 2] and
    when the partition [a] of [term_id - initial_term_id] is 0, 1 or 2, a
    successful [create] leaves
    the partition after [a] at term id [term_id - 2] and the one after
    that at [term_id - 1], each with term offset 0. *)
Theorem create_replay_older_tail_counters (context : aeron_driver_context_t)
    (path : string) (session_id stream_id registration_id : Z)
    (pub_pos_position pub_lmt_position : aeron_position_t)
    (initial_term_id : Z) (params : aeron_uri_publication_params_t)
    (is_exclusive : bool) (publication : aeron_ipc_publication_t) :
  let tails := term_tail_counters (log_meta_data (mapped_raw_log publication)) in
  let a :=
    aeron_logbuffer_index_by_term_count (sub32 (term_id params) initial_term_id) in
  is_replay params = true ->
  INT32_MIN + 2 <= term_id params <= INT32_MAX ->
  0 <= a < 3 ->
  aeron_ipc_publication_create context path session_id stream_id registration_id
    pub_pos_position pub_lmt_position initial_term_id params is_exclusive
    = Some (inr publication) ->
  array_get tails ((a + 1) `mod` 3) = Some ((term_id params - 2) * 2 ^ 32)
  ∧ array_get tails ((a + 2) `mod` 3) = Some ((term_id params - 1) * 2 ^ 32).
Proof.
  intros tails a Hreplay Hterm Ha Hcreate. subst tails.
  unfold INT32_MIN, INT32_MAX in Hterm.
  destruct (create_success _ _ _ _ _ _ _ _ _ _ _ Hcreate)
    as (_ & log & tails & term_count & _ & Hinit & position & ->).
  cbn [mapped_raw_log set_log_meta_data log_meta_data term_tail_counters].
  unfold init_term_tail_counters in Hinit. rewrite Hreplay in Hinit.
  cbv zeta in Hinit. fold a in Hinit.
  destruct (array_set _ a _) as [tails0 |] eqn:Hset0; [| done].
  cbn [mbind option_bind fold_left] in Hinit.
  unfold replay_tail_step in Hinit. cbn [mbind option_bind] in Hinit.
  destruct (array_set tails0 _ _) as [tails1 |] eqn:Hset1; [| done].
  cbn [mbind option_bind] in Hinit.
  destruct (array_set tails1 _ _) as [tails2 |] eqn:Hset2; [| done].
  cbn in Hinit. injection Hinit as <- _.
  rewrite !(array_get_set _ _ _ _ Hset2), !(array_get_set _ _ _ _ Hset1).
  assert (H1 : sub64 (add64 (term_id params) 1) AERON_LOGBUFFER_PARTITION_COUNT
               = term_id params - 2).
  { unfold sub64, add64, AERON_LOGBUFFER_PARTITION_COUNT.
    rewrite (wrap64_id (term_id params + 1))
      by (unfold is_int64, INT64_MIN, INT64_MAX; lia).
    rewrite wrap64_id by (unfold is_int64, INT64_MIN, INT64_MAX; lia). lia. }
  assert (H2 : sub64 (add64 (term_id params) 2) AERON_LOGBUFFER_PARTITION_COUNT
               = term_id params - 1).
  { unfold sub64, add64, AERON_LOGBUFFER_PARTITION_COUNT.
    rewrite (wrap64_id (term_id params + 2))
      by (unfold is_int64, INT64_MIN, INT64_MAX; lia).
    rewrite wrap64_id by (unfold is_int64, INT64_MIN, INT64_MAX; lia). lia. }
  rewrite H1, H2, !mul64_term_id by (unfold INT32_MIN, INT32_MAX; lia).
  assert (Hcases : a = 0 ∨ a = 1 ∨ a = 2) by lia.
  clear Hset0 Hset1 Hset2 Ha.
  destruct Hcases as [-> | [-> | ->]]; split; reflexivity.
Qed.

End TailCounters.

(** The runs behind the scenarios of the constructor. *)
Lemma replay_create_succeeds : ∃ publication, replay_create = Some (inr publication).
Proof. eexists. reflexivity. Defined.

Lemma fresh_create_succeeds : ∃ publication, fresh_create = Some (inr publication).
Proof. eexists. reflexivity. Defined.

Lemma create_errors_scenario :
  crowded_create = Some (inl ENOSPC)
  ∧ usable_fs_space crowded_context
    < spec_compute_log_length 4096 (term_length fresh_params)
        (file_page_size crowded_context).
Proof.
  assert (Hrun : crowded_create = Some (inl ENOSPC)) by reflexivity.
  split; [exact Hrun |].
  destruct (create_errors (headers := spec_headers 4096) crowded_context
              "ipc-11-1001-7.logbuffer" 11 1001 7 (mk_position 2 2) (mk_position 1 1)
              5 fresh_params false ENOSPC Hrun)
    as [[Hless _] | [(Hspace & _) | (Hspace & _)]];
    [exact Hless | vm_compute in Hspace; by destruct Hspace ..].
Defined.

Lemma create_initial_state_scenario :
  ∃ publication,
    fresh_create = Some (inr publication)
    ∧ refcnt (conductor_fields publication) = 1
    ∧ pub_state (conductor_fields publication) = AERON_IPC_PUBLICATION_STATE_ACTIVE
    ∧ end_of_stream_position (log_meta_data (mapped_raw_log publication)) = INT64_MAX.
Proof.
  destruct fresh_create_succeeds as [publication Hrun].
  exists publication. split; [exact Hrun |].
  destruct (create_initial_state (headers := spec_headers 4096) replay_context
              "ipc-11-1001-7.logbuffer" 11 1001 7 (mk_position 2 2) (mk_position 1 1)
              5 fresh_params false publication Hrun)
    as ((Hstate & Hrefs & _) & _ & _ & (_ & _ & _ & _ & Heos) & _).
  split; [exact Hrefs |]. split; [exact Hstate | exact Heos].
Defined.

Lemma create_initial_tail_counters_scenario :
  ∃ publication,
    fresh_create = Some (inr publication)
    ∧ is_replay fresh_params = false
    ∧ INT32_MIN + 2 <= 5 <= INT32_MAX - 2
    ∧ array_get (term_tail_counters (log_meta_data (mapped_raw_log publication))) 0
      = Some (5 * 2 ^ 32)
    ∧ array_get (term_tail_counters (log_meta_data (mapped_raw_log publication))) 1
      = Some (3 * 2 ^ 32)
    ∧ array_get (term_tail_counters (log_meta_data (mapped_raw_log publication))) 2
      = Some (4 * 2 ^ 32).
Proof.
  destruct fresh_create_succeeds as [publication Hrun].
  exists publication. split; [exact Hrun |]. split; [reflexivity |].
  assert (Hrange : INT32_MIN + 2 <= 5 <= INT32_MAX - 2)
    by (vm_compute; split; discriminate).
  split; [exact Hrange |].
  exact (create_initial_tail_counters (headers := spec_headers 4096)
           replay_context "ipc-11-1001-7.logbuffer" 11 1001 7
           (mk_position 2 2) (mk_position 1 1) 5 fresh_params false
           publication eq_refl Hrange Hrun).
Defined.

Lemma create_replay_older_tail_counters_scenario :
  ∃ publication,
    replay_create = Some (inr publication)
    ∧ is_replay replay_params = true
    ∧ INT32_MIN + 2 <= term_id replay_params <= INT32_MAX
    ∧ array_get (term_tail_counters (log_meta_data (mapped_raw_log publication))) 0
      = Some (5 * 2 ^ 32)
    ∧ array_get (term_tail_counters (log_meta_data (mapped_raw_log publication))) 1
      = Some (6 * 2 ^ 32).
Proof.
  destruct replay_create_succeeds as [publication Hrun].
  exists publication. split; [exact Hrun |]. split; [reflexivity |].
  assert (Hrange : INT32_MIN + 2 <= term_id replay_params <= INT32_MAX)
    by (vm_compute; split; discriminate).
  split; [exact Hrange |].
  apply (create_replay_older_tail_counters (headers := spec_headers 4096)
           replay_context "ipc-11-1001-7.logbuffer" 11 1001 7
           (mk_position 2 2) (mk_position 1 1) 5 replay_params false
           publication eq_refl Hrange);
    [vm_compute; split; [discriminate | reflexivity] | exact Hrun].
Defined.

Lemma create_replay_tail_counter_scenario :
  ∃ publication,
    replay_create = Some (inr publication)
    ∧ is_replay replay_params = true
    ∧ array_get (term_tail_counters (log_meta_data (mapped_raw_log publication))) 2
      = Some (Z.lor (Z.shiftl 7 32) 64).
Proof.
  destruct replay_create_succeeds as [publication Hrun].
  exists publication. split; [exact Hrun |]. split; [reflexivity |].
  exact (create_replay_tail_counter (headers := spec_headers 4096)
           replay_context "ipc-11-1001-7.logbuffer" 11 1001 7
           (mk_position 2 2) (mk_position 1 1) 5 replay_params false
           publication eq_refl Hrun).
Defined.

(** ** Time events *)

Section TimeEventProperties.
Context {headers : LogbufferHeaders} {externs : ConductorExterns}.

(** The unblocker leaves the conductor fields alone; the world changes
    by the increment of the system counter, and only on success. *)
Lemma unblock_and_count_frame (w : world) (publication : aeron_ipc_publication_t) :
  let r := unblock_and_count w publication in
  let unblocked :=
    (aeron_logbuffer_unblocker_unblock
       (term_buffers (mapped_raw_log publication))
       (log_meta_data (mapped_raw_log publication))
       (consumer_position (conductor_fields publication))).1 in
  conductor_fields r.2 = conductor_fields publication
  ∧ is_exclusive r.2 = is_exclusive publication
  ∧ r.1 = (if unblocked
           then aeron_counter_ordered_increment w unblocked_publications_counter 1
           else w).
Proof.
  cbv zeta. unfold unblock_and_count.
  destruct (aeron_logbuffer_unblocker_unblock _ _ _) as [[] [buffers meta]]; by cbn.
Qed.

(** X17.  When the consumer position moved since the last check, or the
    publication is not possibly blocked, the check restarts the timer:
    the time of the last consumer position change becomes [now_ns] and the
    last consumer position becomes the consumer position.  The unblocker is
    not run: the world and the mapped log are as before. *)
Theorem check_for_blocked_publisher_restarts (w : world)
    (publication : aeron_ipc_publication_t) (producer_position now_ns : Z) :
  let fields := conductor_fields publication in
  consumer_position fields ≠ last_consumer_position fields
  ∨ aeron_ipc_publication_is_possibly_blocked publication producer_position
      (consumer_position fields) = false ->
  aeron_ipc_publication_check_for_blocked_publisher w publication
    producer_position now_ns
  = (w, set_conductor_fields
          (set_last_consumer_position (consumer_position fields)
             (set_time_of_last_consumer_position_change now_ns fields))
          publication).
Proof.
  intros fields Hmoved. unfold aeron_ipc_publication_check_for_blocked_publisher.
  fold fields. cbv zeta.
  destruct (Z.eqb_spec (consumer_position fields) (last_consumer_position fields))
    as [Heq | Hne]; [| done].
  destruct Hmoved as [Hne | ->]; done.
Qed.

(** X18.  The check changes the world in one case only: the consumer
    position is where the last check saw it, the publication is possibly
    blocked, [now_ns] is past the time of the last consumer position change
    plus the unblock timeout, and the unblocker reports success; the
    change is then the increment by one of the counter of unblocked
    publications.  Whenever the timer is not restarted the conductor
    fields are untouched, so the attempt repeats on the following checks
    while the consumer stays where it is. *)
Theorem check_for_blocked_publisher_unblocks (w : world)
    (publication : aeron_ipc_publication_t) (producer_position now_ns : Z) :
  let fields := conductor_fields publication in
  let r :=
    aeron_ipc_publication_check_for_blocked_publisher w publication
      producer_position now_ns in
  let unblocked :=
    (aeron_logbuffer_unblocker_unblock
       (term_buffers (mapped_raw_log publication))
       (log_meta_data (mapped_raw_log publication))
       (consumer_position fields)).1 in
  is_int64 (time_of_last_consumer_position_change fields
            + unblock_timeout_ns publication) ->
  (r.1 = w
   ∨ (consumer_position fields = last_consumer_position fields
      ∧ aeron_ipc_publication_is_possibly_blocked publication producer_position
          (consumer_position fields) = true
      ∧ now_ns > time_of_last_consumer_position_change fields
                 + unblock_timeout_ns publication
      ∧ unblocked = true
      ∧ r.1 = aeron_counter_ordered_increment w unblocked_publications_counter 1))
  ∧ (consumer_position fields = last_consumer_position fields ->
     aeron_ipc_publication_is_possibly_blocked publication producer_position
       (consumer_position fields) = true ->
     conductor_fields r.2 = fields
     ∧ (now_ns <= time_of_last_consumer_position_change fields
                  + unblock_timeout_ns publication -> r = (w, publication))
     ∧ (now_ns > time_of_last_consumer_position_change fields
                 + unblock_timeout_ns publication ->
        r.1 = if unblocked
              then aeron_counter_ordered_increment w unblocked_publications_counter 1
              else w)).
Proof.
  intros fields r unblocked Hrange. subst r.
  unfold aeron_ipc_publication_check_for_blocked_publisher. fold fields. cbv zeta.
  unfold add64. rewrite (wrap64_id _ Hrange).
  destruct (unblock_and_count_frame w publication) as (Hfields & _ & Hworld).
  fold fields unblocked in Hfields, Hworld.
  destruct (Z.eqb_spec (consumer_position fields) (last_consumer_position fields))
    as [Heq | Hne]; cbn [andb]; [| split; [by left | done]].
  destruct (aeron_ipc_publication_is_possibly_blocked publication producer_position
              (consumer_position fields)) eqn:Hblocked;
    [| split; [by left | done]].
  destruct (Z.gtb_spec now_ns
              (time_of_last_consumer_position_change fields
               + unblock_timeout_ns publication)) as [Hlate | Hearly].
  - split.
    + rewrite Hworld. destruct unblocked eqn:Hun; [right | by left].
      repeat split; (done || lia).
    + intros _ _. split; [exact Hfields |]. split; [lia | done].
  - split; [by left |]. intros _ _. cbn. split; [done |]. split; [done | lia].
Qed.

End TimeEventProperties.

Section LifecycleProperties.
Context {headers : LogbufferHeaders} {externs : ConductorExterns}.

(** The blocked publisher check keeps the lifecycle and the flow control
    fields, and only appends to the trace. *)
Lemma check_for_blocked_publisher_frame (w : world)
    (publication : aeron_ipc_publication_t) (producer_position now_ns : Z) :
  let r :=
    aeron_ipc_publication_check_for_blocked_publisher w publication
      producer_position now_ns in
  let fields := conductor_fields publication in
  let fields' := conductor_fields r.2 in
  (pub_state fields' = pub_state fields
   ∧ refcnt fields' = refcnt fields
   ∧ has_reached_end_of_life fields' = has_reached_end_of_life fields
   ∧ consumer_position fields' = consumer_position fields
   ∧ trip_limit fields' = trip_limit fields
   ∧ clean_position fields' = clean_position fields)
  ∧ ∃ events, trace r.1 = trace w ++ events.
Proof.
  cbv zeta. unfold aeron_ipc_publication_check_for_blocked_publisher. cbv zeta.
  destruct (unblock_and_count_frame w publication) as (Hfields & _ & Hworld).
  destruct (_ && _);
    [| split; [done | by exists []; rewrite app_nil_r]].
  destruct (_ >? _);
    [| split; [done | by exists []; rewrite app_nil_r]].
  rewrite Hfields, Hworld. split; [done |].
  destruct (aeron_logbuffer_unblocker_unblock _ _ _).1;
    [by eexists [_] | by exists []; rewrite app_nil_r].
Qed.

Lemma notify_linked_subscriptions_spec
    (conductor : aeron_driver_conductor_t aeron_subscription_link_t)
    (publication : aeron_ipc_publication_t) (w : world) :
  notify_linked_subscriptions conductor publication w
  = mk_world (counters w)
      (trace w
       ++ ((fun link =>
              EvOnUnavailableImage (registration_id (conductor_fields publication))
                (link_registration_id link) (stream_id publication))
             <$> filter
                   (fun link =>
                      aeron_driver_conductor_is_subscribable_linked link
                        (subscribable (conductor_fields publication)) = true)
                   (ipc_subscriptions conductor))).
Proof.
  unfold notify_linked_subscriptions. revert w.
  induction (ipc_subscriptions conductor) as [| link links IH]; intros w.
  - cbn. rewrite app_nil_r. by destruct w.
  - cbn [fold_left]. rewrite IH, filter_cons.
    destruct (aeron_driver_conductor_is_subscribable_linked link _) eqn:Hlinked.
    + rewrite decide_True by done. cbn. by rewrite <- app_assoc.
    + rewrite decide_False by done. done.
Qed.

(** X19.  Whatever the state of the publication, a time event first
    publishes the producer position: the first thing it adds to the trace
    is the ordered store of the producer position to the publisher
    position counter. *)
Theorem on_time_event_publishes_position
    (conductor : aeron_driver_conductor_t aeron_subscription_link_t)
    (w : world) (publication : aeron_ipc_publication_t) (now_ns now_ms : Z) :
  ∃ rest,
    trace (aeron_ipc_publication_on_time_event conductor w publication
             now_ns now_ms).1
    = trace w
      ++ EvCounterSetOrdered (pos_value_addr (pub_pos_position publication))
           (aeron_ipc_publication_producer_position publication)
         :: rest.
Proof.
  unfold aeron_ipc_publication_on_time_event. cbv zeta.
  set (w0 := aeron_counter_set_ordered w _ _).
  assert (Hw0 : ∀ l events, l = trace w0 ++ events ->
            ∃ rest, l
                    = trace w
                      ++ EvCounterSetOrdered
                           (pos_value_addr (pub_pos_position publication))
                           (aeron_ipc_publication_producer_position publication)
                         :: rest).
  { intros l events ->. exists events. subst w0. cbn. by rewrite <- app_assoc. }
  destruct (pub_state (conductor_fields publication)).
  - rewrite check_untethered_result. cbv zeta.
    destruct (check_untethered_loop_trace (context conductor) publication now_ns
                (subscribable (conductor_fields publication)) w0) as [events1 H1].
    set (w1 := (check_untethered_loop _ _ _ _ _).1) in *.
    set (publication1 := set_conductor_fields _ publication).
    destruct (is_exclusive publication1); cbn [negb].
    + by apply (Hw0 _ events1).
    + destruct (check_for_blocked_publisher_frame w1 publication1
                  (aeron_ipc_publication_producer_position publication) now_ns)
        as (_ & events2 & H2).
      apply (Hw0 _ (events1 ++ events2)). by rewrite H2, H1, app_assoc.
  - destruct (aeron_ipc_publication_is_drained w0 publication).
    + rewrite notify_linked_subscriptions_spec. cbn [fst trace].
      by eapply Hw0.
    + destruct (unblock_and_count_frame w0 publication) as (_ & _ & ->).
      case_match; [by eapply Hw0 | by apply (Hw0 _ []); rewrite app_nil_r].
  - apply (Hw0 _ []). by rewrite app_nil_r.
Qed.

(** What a time event does to the conductor fields, state by state. *)
Lemma on_time_event_fields
    (conductor : aeron_driver_conductor_t aeron_subscription_link_t)
    (w : world) (publication : aeron_ipc_publication_t) (now_ns now_ms : Z) :
  let r := aeron_ipc_publication_on_time_event conductor w publication now_ns now_ms in
  let fields := conductor_fields publication in
  let fields' := conductor_fields r.2 in
  let w0 :=
    aeron_counter_set_ordered w (pos_value_addr (pub_pos_position publication))
      (aeron_ipc_publication_producer_position publication) in
  (refcnt fields' = refcnt fields
   ∧ consumer_position fields' = consumer_position fields
   ∧ trip_limit fields' = trip_limit fields
   ∧ clean_position fields' = clean_position fields)
  ∧ match pub_state fields with
    | AERON_IPC_PUBLICATION_STATE_ACTIVE =>
        pub_state fields' = AERON_IPC_PUBLICATION_STATE_ACTIVE
        ∧ has_reached_end_of_life fields' = has_reached_end_of_life fields
    | AERON_IPC_PUBLICATION_STATE_INACTIVE =>
        has_reached_end_of_life fields' = has_reached_end_of_life fields
        ∧ if aeron_ipc_publication_is_drained w0 publication
          then pub_state fields' = AERON_IPC_PUBLICATION_STATE_LINGER
               ∧ time_of_last_state_change fields' = now_ns
          else pub_state fields' = AERON_IPC_PUBLICATION_STATE_INACTIVE
    | AERON_IPC_PUBLICATION_STATE_LINGER =>
        pub_state fields' = AERON_IPC_PUBLICATION_STATE_LINGER
        ∧ has_reached_end_of_life fields' = true
    end.
Proof.
  cbv zeta. unfold aeron_ipc_publication_on_time_event. cbv zeta.
  set (w0 := aeron_counter_set_ordered w _ _).
  destruct (pub_state (conductor_fields publication)) eqn:Hstate.
  - rewrite check_untethered_result. cbv zeta.
    set (w1 := (check_untethered_loop _ _ _ _ _).1).
    set (publication1 := set_conductor_fields _ publication).
    destruct (is_exclusive publication1); cbn [negb].
    + cbn. by rewrite Hstate.
    + destruct (check_for_blocked_publisher_frame w1 publication1
                  (aeron_ipc_publication_producer_position publication) now_ns)
        as ((-> & -> & -> & -> & -> & ->) & _).
      cbn. by rewrite Hstate.
  - destruct (aeron_ipc_publication_is_drained w0 publication); [by cbn |].
    destruct (unblock_and_count_frame w0 publication) as (-> & _ & _).
    by rewrite Hstate.
  - cbn. by rewrite Hstate.
Qed.

(** X20.  A time event never changes the reference count, the consumer
    position, the trip limit or the clean position, and it moves the
    lifecycle forward only.  An ACTIVE publication stays ACTIVE.  An
    INACTIVE publication becomes LINGER, with the time of the state change
    set to [now_ns], exactly when it is drained, and stays INACTIVE
    otherwise.  A publication in LINGER stays in LINGER and has reached
    its end of life; in no other state does the event touch that flag. *)
Theorem on_time_event_lifecycle
    (conductor : aeron_driver_conductor_t aeron_subscription_link_t)
    (w : world) (publication : aeron_ipc_publication_t) (now_ns now_ms : Z) :
  let r := aeron_ipc_publication_on_time_event conductor w publication now_ns now_ms in
  let fields := conductor_fields publication in
  let fields' := conductor_fields r.2 in
  let w0 :=
    aeron_counter_set_ordered w (pos_value_addr (pub_pos_position publication))
      (aeron_ipc_publication_producer_position publication) in
  (refcnt fields' = refcnt fields
   ∧ consumer_position fields' = consumer_position fields
   ∧ trip_limit fields' = trip_limit fields
   ∧ clean_position fields' = clean_position fields)
  ∧ match pub_state fields with
    | AERON_IPC_PUBLICATION_STATE_ACTIVE =>
        pub_state fields' = AERON_IPC_PUBLICATION_STATE_ACTIVE
        ∧ has_reached_end_of_life fields' = has_reached_end_of_life fields
    | AERON_IPC_PUBLICATION_STATE_INACTIVE =>
        has_reached_end_of_life fields' = has_reached_end_of_life fields
        ∧ if aeron_ipc_publication_is_drained w0 publication
          then pub_state fields' = AERON_IPC_PUBLICATION_STATE_LINGER
               ∧ time_of_last_state_change fields' = now_ns
          else pub_state fields' = AERON_IPC_PUBLICATION_STATE_INACTIVE
    | AERON_IPC_PUBLICATION_STATE_LINGER =>
        pub_state fields' = AERON_IPC_PUBLICATION_STATE_LINGER
        ∧ has_reached_end_of_life fields' = true
    end.
Proof. apply on_time_event_fields. Qed.

(** X21.  The time event of an INACTIVE publication that is drained
    makes it LINGER, stamps the state change with [now_ns], stores no
    counter but the publisher position, and reports the image unavailable
    once to every subscription of the conductor that is linked to the
    publication, in the order of the conductor's array. *)
Theorem on_time_event_drained
    (conductor : aeron_driver_conductor_t aeron_subscription_link_t)
    (w : world) (publication : aeron_ipc_publication_t) (now_ns now_ms : Z) :
  let fields := conductor_fields publication in
  let w0 :=
    aeron_counter_set_ordered w (pos_value_addr (pub_pos_position publication))
      (aeron_ipc_publication_producer_position publication) in
  pub_state fields = AERON_IPC_PUBLICATION_STATE_INACTIVE ->
  aeron_ipc_publication_is_drained w0 publication = true ->
  aeron_ipc_publication_on_time_event conductor w publication now_ns now_ms
  = (mk_world (counters w0)
       (trace w0
        ++ ((fun link =>
               EvOnUnavailableImage (registration_id fields)
                 (link_registration_id link) (stream_id publication))
              <$> filter
                    (fun link =>
                       aeron_driver_conductor_is_subscribable_linked link
                         (subscribable fields) = true)
                    (ipc_subscriptions conductor))),
     set_conductor_fields
       (set_time_of_last_state_change now_ns
          (set_pub_state AERON_IPC_PUBLICATION_STATE_LINGER fields))
       publication).
Proof.
  intros fields w0 Hstate Hdrained.
  unfold aeron_ipc_publication_on_time_event. cbv zeta.
  fold fields w0. rewrite Hstate, Hdrained.
  by rewrite notify_linked_subscriptions_spec.
Qed.

(** X22.  From the last reference to the end of life.  After the
    [decref] that takes the count from 1 to 0, a first time event at which
    the publication is drained leaves it in LINGER without touching the
    end of life flag, and the time event after that sets the flag. *)
Theorem decref_then_time_events
    (conductor : aeron_driver_conductor_t aeron_subscription_link_t)
    (w : world) (publication : aeron_ipc_publication_t)
    (now1_ns now1_ms now2_ns now2_ms : Z) :
  let d := aeron_ipc_publication_decref w publication in
  let t1 := aeron_ipc_publication_on_time_event conductor d.1 d.2 now1_ns now1_ms in
  let t2 := aeron_ipc_publication_on_time_event conductor t1.1 t1.2 now2_ns now2_ms in
  refcnt (conductor_fields publication) = 1 ->
  aeron_ipc_publication_is_drained
    (aeron_counter_set_ordered d.1 (pos_value_addr (pub_pos_position d.2))
       (aeron_ipc_publication_producer_position d.2))
    d.2 = true ->
  pub_state (conductor_fields d.2) = AERON_IPC_PUBLICATION_STATE_INACTIVE
  ∧ pub_state (conductor_fields t1.2) = AERON_IPC_PUBLICATION_STATE_LINGER
  ∧ has_reached_end_of_life (conductor_fields t1.2)
    = has_reached_end_of_life (conductor_fields publication)
  ∧ time_of_last_state_change (conductor_fields t1.2) = now1_ns
  ∧ pub_state (conductor_fields t2.2) = AERON_IPC_PUBLICATION_STATE_LINGER
  ∧ has_reached_end_of_life (conductor_fields t2.2) = true.
Proof.
  intros d t1 t2 Href Hdrained.
  assert (Hd : pub_state (conductor_fields d.2) = AERON_IPC_PUBLICATION_STATE_INACTIVE
               ∧ has_reached_end_of_life (conductor_fields d.2)
                 = has_reached_end_of_life (conductor_fields publication)).
  { subst d. unfold aeron_ipc_publication_decref. rewrite Href.
    change (wrap32 (1 - 1)) with 0. by destruct (decide (0 = 0)). }
  destruct Hd as [Hinactive Hflag].
  pose proof (on_time_event_fields conductor d.1 d.2 now1_ns now1_ms) as H1.
  cbv zeta in H1. fold t1 in H1. rewrite Hinactive, Hdrained in H1.
  destruct H1 as (_ & Hflag1 & Hlinger & Hstamp).
  pose proof (on_time_event_fields conductor t1.1 t1.2 now2_ns now2_ms) as H2.
  cbv zeta in H2. fold t2 in H2. rewrite Hlinger in H2.
  destruct H2 as (_ & Hlinger2 & Hend).
  repeat split; try done. by rewrite Hflag1.
Qed.

End LifecycleProperties.

(** Nothing is published yet: the publication cannot be blocked. *)
Lemma check_for_blocked_publisher_restarts_scenario :
  aeron_ipc_publication_is_possibly_blocked (ConductorExterns := sample_externs true)
    windowed_publication 0 (consumer_position (conductor_fields windowed_publication))
  = false
  ∧ (aeron_ipc_publication_check_for_blocked_publisher
       (externs := sample_externs true) windowed_world windowed_publication
       0 2000000000).1
    = windowed_world
  ∧ time_of_last_consumer_position_change
      (conductor_fields
         (aeron_ipc_publication_check_for_blocked_publisher
            (externs := sample_externs true) windowed_world windowed_publication
            0 2000000000).2)
    = 2000000000.
Proof.
  assert (Hidle : aeron_ipc_publication_is_possibly_blocked
                    (ConductorExterns := sample_externs true) windowed_publication 0
                    (consumer_position (conductor_fields windowed_publication))
                  = false) by reflexivity.
  split; [exact Hidle |].
  rewrite (check_for_blocked_publisher_restarts (externs := sample_externs true)
             windowed_world windowed_publication 0 2000000000 (or_intror Hidle)).
  split; reflexivity.
Defined.

(** Two seconds into a stall with an unblock timeout of one second. *)
Lemma check_for_blocked_publisher_unblocks_scenario :
  is_int64 (time_of_last_consumer_position_change (conductor_fields stalled_publication)
            + unblock_timeout_ns stalled_publication)
  ∧ aeron_counter_get
      (aeron_ipc_publication_check_for_blocked_publisher
         (externs := sample_externs true) stalled_world stalled_publication
         10000 2000000000).1 3
    = 1
  ∧ (aeron_ipc_publication_check_for_blocked_publisher
       (externs := sample_externs true) stalled_world stalled_publication
       10000 500000000)
    = (stalled_world, stalled_publication).
Proof.
  assert (Hrange : is_int64 (time_of_last_consumer_position_change
                               (conductor_fields stalled_publication)
                             + unblock_timeout_ns stalled_publication))
    by (vm_compute; split; discriminate).
  split; [exact Hrange |]. split.
  - destruct (check_for_blocked_publisher_unblocks (externs := sample_externs true)
                stalled_world stalled_publication 10000 2000000000 Hrange)
      as (_ & Hstalled).
    destruct (Hstalled eq_refl eq_refl) as (_ & _ & Hlate).
    rewrite Hlate by reflexivity. reflexivity.
  - destruct (check_for_blocked_publisher_unblocks (externs := sample_externs true)
                stalled_world stalled_publication 10000 500000000 Hrange)
      as (_ & Hstalled).
    destruct (Hstalled eq_refl eq_refl) as (_ & Hearly & _).
    apply Hearly. vm_compute. discriminate.
Defined.

(** The publication of the last reference scenario after its [decref],
    at the conductor of subscriptions 77 and 78. *)
Lemma on_time_event_drained_scenario :
  let d := aeron_ipc_publication_decref (headers := spec_headers 0)
             last_reference_world last_reference_publication in
  let r := aeron_ipc_publication_on_time_event (headers := spec_headers 0)
             (externs := sample_externs true) sample_conductor d.1 d.2
             2000000000 2000 in
  pub_state (conductor_fields d.2) = AERON_IPC_PUBLICATION_STATE_INACTIVE
  ∧ pub_state (conductor_fields r.2) = AERON_IPC_PUBLICATION_STATE_LINGER
  ∧ trace r.1
    = [EvCounterSetOrdered 1 10000; EvPutOrderedEndOfStream 10000;
       EvCounterSetOrdered 2 10000;
       EvOnUnavailableImage 7 77 1001; EvOnUnavailableImage 7 78 1001].
Proof.
  intros d r. subst r.
  split; [reflexivity |].
  rewrite (on_time_event_drained (headers := spec_headers 0)
             (externs := sample_externs true) sample_conductor d.1 d.2
             2000000000 2000 eq_refl eq_refl).
  split; reflexivity.
Defined.

Lemma decref_then_time_events_scenario :
  let d := aeron_ipc_publication_decref (headers := spec_headers 0)
             last_reference_world last_reference_publication in
  let t1 := aeron_ipc_publication_on_time_event (headers := spec_headers 0)
              (externs := sample_externs true) sample_conductor d.1 d.2
              2000000000 2000 in
  let t2 := aeron_ipc_publication_on_time_event (headers := spec_headers 0)
              (externs := sample_externs true) sample_conductor t1.1 t1.2
              3000000000 3000 in
  refcnt (conductor_fields last_reference_publication) = 1
  ∧ has_reached_end_of_life (conductor_fields t1.2) = false
  ∧ has_reached_end_of_life (conductor_fields t2.2) = true.
Proof.
  cbv zeta. split; [reflexivity |].
  destruct (decref_then_time_events (headers := spec_headers 0)
              (externs := sample_externs true) sample_conductor
              last_reference_world last_reference_publication
              2000000000 2000 3000000000 3000 eq_refl eq_refl)
    as (_ & _ & Hflag1 & _ & _ & Hflag2).
  split; [exact Hflag1 | exact Hflag2].
Defined.

(** * Further properties of ReplayMerge *)

Section ReplayMergeTerminal.
Import ReplayMerge.
Context {externals : Externals}.

(** X23.  Once merged, and likewise once closed, the controller is
    inert: [doWork] reports 0, calls no handler and leaves the object as it
    is, and [poll] is the poll of the image alone (or 0 without an image)
    and leaves the state where it is, so that [isMerged] stays true. *)
Theorem merged_is_terminal (rm : t) (fragmentHandler : FragmentHandler)
    (fragmentLimit : Z) :
  m_state rm = MERGED ∨ m_state rm = CLOSED ->
  doWork rm = (0, rm, [CallDoWork (m_state rm)])
  ∧ poll rm fragmentHandler fragmentLimit
    = match m_image rm with
      | None => (0, rm, [CallDoWork (m_state rm)])
      | Some image =>
          ((image_poll image fragmentHandler fragmentLimit).1,
           set_image (Some (image_poll image fragmentHandler fragmentLimit).2) rm,
           [CallDoWork (m_state rm); CallImagePoll fragmentLimit])
      end
  ∧ m_state (poll rm fragmentHandler fragmentLimit).1.2 = m_state rm
  ∧ isMerged (poll rm fragmentHandler fragmentLimit).1.2 = isMerged rm.
Proof.
  intros Hstate.
  assert (Hwork : doWork rm = (0, rm, [CallDoWork (m_state rm)])).
  { unfold doWork. by destruct Hstate as [-> | ->]. }
  assert (Hpoll : poll rm fragmentHandler fragmentLimit
    = match m_image rm with
      | None => (0, rm, [CallDoWork (m_state rm)])
      | Some image =>
          ((image_poll image fragmentHandler fragmentLimit).1,
           set_image (Some (image_poll image fragmentHandler fragmentLimit).2) rm,
           [CallDoWork (m_state rm); CallImagePoll fragmentLimit])
      end).
  { unfold poll. rewrite Hwork. destruct (m_image rm) as [image |]; [| done].
    by destruct (image_poll image fragmentHandler fragmentLimit). }
  split; [exact Hwork |]. split; [exact Hpoll |].
  rewrite Hpoll. unfold isMerged. by destruct (m_image rm).
Qed.

End ReplayMergeTerminal.

(** X24.  Without overflow of the distance,
    [shouldAddLiveDestination(position)] is true exactly when the live
    destination has not been added and the target position is at most
    [REPLAY_MERGE_LIVE_ADD_THRESHOLD = 16384] ahead of [position]. *)
Theorem shouldAddLiveDestination_iff (rm : ReplayMerge.t) (position : Z) :
  is_int64 (ReplayMerge.m_nextTargetPosition rm - position) ->
  ReplayMerge.shouldAddLiveDestination rm position = true
  <-> ReplayMerge.m_isLiveAdded rm = false
      ∧ ReplayMerge.m_nextTargetPosition rm - position <= 16384.
Proof.
  intros Hrange. unfold ReplayMerge.shouldAddLiveDestination, sub64.
  rewrite (wrap64_id _ Hrange).
  change ReplayMerge.REPLAY_MERGE_LIVE_ADD_THRESHOLD with 16384.
  rewrite andb_true_iff, negb_true_iff, Z.leb_le. done.
Qed.

(** X25.  The two predicates exclude each other at every position:
    where [shouldStopAndRemoveReplay] is true, [shouldAddLiveDestination]
    is false, and where [shouldAddLiveDestination] is true,
    [shouldStopAndRemoveReplay] is false, with or without an image. *)
Theorem live_add_excludes_replay_stop (rm : ReplayMerge.t) (position : Z) :
  (ReplayMerge.shouldStopAndRemoveReplay rm position = Some true ->
   ReplayMerge.shouldAddLiveDestination rm position = false)
  ∧ (ReplayMerge.shouldAddLiveDestination rm position = true ->
     ReplayMerge.shouldStopAndRemoveReplay rm position = Some false).
Proof.
  unfold ReplayMerge.shouldStopAndRemoveReplay, ReplayMerge.shouldAddLiveDestination.
  destruct (ReplayMerge.m_isLiveAdded rm); cbn; split; done.
Qed.

(** X26.  [shouldStopAndRemoveReplay] asks the image for its transports
    only when the live destination has been added and the target position
    is not ahead of [position]: otherwise it is false whether or not there
    is an image.  When both hold and [m_image] is null, the call through
    it is a fault. *)
Theorem shouldStopAndRemoveReplay_short_circuit (rm : ReplayMerge.t) (position : Z) :
  is_int64 (ReplayMerge.m_nextTargetPosition rm - position) ->
  (ReplayMerge.m_isLiveAdded rm = false
   ∨ ReplayMerge.m_nextTargetPosition rm - position > 0 ->
   ReplayMerge.shouldStopAndRemoveReplay rm position = Some false)
  ∧ (ReplayMerge.m_isLiveAdded rm = true ->
     ReplayMerge.m_nextTargetPosition rm - position <= 0 ->
     ReplayMerge.m_image rm = None ->
     ReplayMerge.shouldStopAndRemoveReplay rm position = None).
Proof.
  intros Hrange. unfold ReplayMerge.shouldStopAndRemoveReplay, sub64.
  rewrite (wrap64_id _ Hrange).
  change ReplayMerge.REPLAY_MERGE_REPLAY_REMOVE_THRESHOLD with 0.
  destruct (Z.leb_spec (ReplayMerge.m_nextTargetPosition rm - position) 0);
    destruct (ReplayMerge.m_isLiveAdded rm); split;
    try done; try (intros [|]; (done || lia)); try (intros; lia).
  intros _ _ ->. done.
Qed.

Lemma merged_is_terminal_scenario :
  ReplayMerge.m_state merged_controller = ReplayMerge.MERGED
  ∧ ReplayMerge.isMerged
      (ReplayMerge.poll (externals := idle_externals) merged_controller tt 10).1.2
    = true
  ∧ (ReplayMerge.poll (externals := idle_externals) merged_controller tt 10).1.1 = 10.
Proof.
  split; [reflexivity |].
  destruct (merged_is_terminal (externals := idle_externals) merged_controller tt 10
              (or_introl eq_refl)) as (_ & Hpoll & _ & Hmerged).
  split; [rewrite Hmerged; reflexivity | rewrite Hpoll; reflexivity].
Defined.

(** At 8000 with the target at 10050 the live destination is to be added;
    the replay is not to be stopped there. *)
Lemma shouldAddLiveDestination_scenario :
  is_int64 (ReplayMerge.m_nextTargetPosition replaying_controller - 8000)
  ∧ ReplayMerge.shouldAddLiveDestination replaying_controller 8000 = true.
Proof.
  assert (Hrange : is_int64 (ReplayMerge.m_nextTargetPosition replaying_controller
                             - 8000)) by (vm_compute; split; discriminate).
  split; [exact Hrange |].
  apply (shouldAddLiveDestination_iff replaying_controller 8000 Hrange).
  split; [reflexivity | vm_compute; discriminate].
Defined.

Lemma live_add_excludes_replay_stop_scenario :
  ReplayMerge.shouldAddLiveDestination replaying_controller 8000 = true
  ∧ ReplayMerge.shouldStopAndRemoveReplay replaying_controller 8000 = Some false
  ∧ ReplayMerge.shouldStopAndRemoveReplay (merging_controller 2) 10050 = Some true
  ∧ ReplayMerge.shouldAddLiveDestination (merging_controller 2) 10050 = false.
Proof.
  assert (Hadd : ReplayMerge.shouldAddLiveDestination replaying_controller 8000 = true)
    by reflexivity.
  assert (Hstop : ReplayMerge.shouldStopAndRemoveReplay (merging_controller 2) 10050
                  = Some true) by reflexivity.
  split; [exact Hadd |].
  split; [exact (proj2 (live_add_excludes_replay_stop replaying_controller 8000) Hadd) |].
  split; [exact Hstop |].
  exact (proj1 (live_add_excludes_replay_stop (merging_controller 2) 10050) Hstop).
Defined.

Lemma shouldStopAndRemoveReplay_short_circuit_scenario :
  is_int64 (ReplayMerge.m_nextTargetPosition starting_controller - 0)
  ∧ ReplayMerge.m_image starting_controller = None
  ∧ ReplayMerge.shouldStopAndRemoveReplay starting_controller 0 = Some false.
Proof.
  assert (Hrange : is_int64 (ReplayMerge.m_nextTargetPosition starting_controller - 0))
    by (vm_compute; split; discriminate).
  split; [exact Hrange |]. split; [reflexivity |].
  apply (shouldStopAndRemoveReplay_short_circuit starting_controller 0 Hrange).
  by left.
Defined.

(** * Further properties of cleaning *)

Lemma memset_zero_length (buf buf' : list byte) (start len : Z) :
  memset_zero buf start len = Some buf' -> length buf' = length buf.
Proof.
  intros Hset. apply memset_zero_Some in Hset as ((Hs & Hl & Hfit & _) & ->).
  rewrite !length_app, length_take, length_replicate, length_drop. lia.
Qed.

Lemma to_u64_mod_pow2 (x k : Z) :
  0 <= k <= 64 -> to_u64 x `mod` 2 ^ k = x `mod` 2 ^ k.
Proof.
  intros Hk. unfold to_u64. apply Z.mod_mod_divide.
  exists (2 ^ (64 - k)). rewrite <- Z.pow_add_r by lia. f_equal. lia.
Qed.

Section CleaningLayout.
Context {headers : LogbufferHeaders}.

(** X27.  Cleaning keeps the layout of the log: the number of partitions
    and the length of every term buffer are as before, and so are the
    metadata, the term length and every conductor field other than
    [clean_position]. *)
Theorem clean_buffer_keeps_layout
    (publication publication1 : aeron_ipc_publication_t) (position : Z) :
  aeron_ipc_publication_clean_buffer publication position = Some publication1 ->
  length <$> term_buffers (mapped_raw_log publication1)
    = length <$> term_buffers (mapped_raw_log publication)
  ∧ log_meta_data (mapped_raw_log publication1)
    = log_meta_data (mapped_raw_log publication)
  ∧ raw_term_length (mapped_raw_log publication1)
    = raw_term_length (mapped_raw_log publication)
  ∧ set_clean_position (clean_position (conductor_fields publication))
      (conductor_fields publication1)
    = conductor_fields publication.
Proof.
  intros Hclean.
  destruct (decide (position > clean_position (conductor_fields publication)))
    as [Hgt | Hle].
  - destruct (clean_buffer_effective _ _ _ Hgt Hclean)
      as (buf & buf1 & buf2 & buffers & Hbuf & Hset1 & Hset2 & Hbuffers & ->).
    cbn. split; [| by destruct (conductor_fields publication)].
    unfold array_set in Hbuffers. unfold array_get in Hbuf.
    destruct (0 <=? clean_dirty_index publication); [| done].
    destruct (_ <? _); [| done]. cbn in Hbuffers. injection Hbuffers as <-.
    rewrite list_fmap_insert. apply list_insert_id.
    rewrite list_lookup_fmap, Hbuf. cbn. f_equal.
    apply memset_zero_length in Hset1, Hset2. congruence.
  - rewrite clean_buffer_noop in Hclean by lia. injection Hclean as <-.
    by destruct (conductor_fields publication).
Qed.

(** X28.  With a term length that is a power of two, a call whose
    [position] lies at or past the end of the term containing
    [clean_position] stops exactly at that end: [clean_position] advances
    by the bytes that were left in the term and its offset in the term is
    then 0. *)
Theorem clean_buffer_stops_at_term_end
    (publication publication1 : aeron_ipc_publication_t) (position k : Z) :
  let clean := clean_position (conductor_fields publication) in
  let left := clean_bytes_left_in_term publication in
  0 <= k <= 62 ->
  raw_term_length (mapped_raw_log publication) = 2 ^ k ->
  is_int64 position ->
  is_int64 clean ->
  left <= position - clean ->
  aeron_ipc_publication_clean_buffer publication position = Some publication1 ->
  left = 2 ^ k - clean `mod` 2 ^ k
  ∧ clean_position (conductor_fields publication1) = clean + left
  ∧ clean_term_offset publication1 = 0.
Proof.
  intros clean left Hk Hterm Hp Hc Hpast Hclean.
  assert (Hpow : 0 < 2 ^ k) by (apply Z.pow_pos_nonneg; lia).
  assert (Hpow64 : 2 ^ k < 2 ^ 64) by (apply Z.pow_lt_mono_r; lia).
  assert (Hmask : ∀ x, Z.land (to_u64 x) (to_u64 (2 ^ k - 1)) = x `mod` 2 ^ k).
  { intros x. rewrite (to_u64_small (2 ^ k - 1)) by lia.
    replace (2 ^ k - 1) with (Z.ones k) by (rewrite Z.ones_equiv; lia).
    rewrite Z.land_ones by lia. apply to_u64_mod_pow2. lia. }
  assert (Hoffset : clean_term_offset publication = clean `mod` 2 ^ k).
  { unfold clean_term_offset. rewrite Hterm. apply Hmask. }
  pose proof (Z.mod_pos_bound clean (2 ^ k) Hpow) as Hmod.
  assert (Hleft : left = 2 ^ k - clean `mod` 2 ^ k).
  { unfold left, clean_bytes_left_in_term. rewrite Hoffset, Hterm.
    apply to_u64_small. lia. }
  assert (Hgt : position > clean) by lia.
  destruct (clean_buffer_effective _ _ _ Hgt Hclean)
    as (_ & _ & _ & buffers & _ & _ & _ & _ & ->).
  assert (Hposition :
    wrap64 (to_u64 clean + clean_length publication position) = clean + left).
  { rewrite wrap64_to_u64_add, (clean_length_min _ _ Hp Hc Hgt).
    fold clean left. rewrite Z.min_r by lia. apply wrap64_id.
    unfold is_int64 in *. lia. }
  split; [exact Hleft |]. split; [exact Hposition |].
  unfold clean_term_offset. cbn. fold clean. rewrite Hposition, Hterm, Hmask, Hleft.
  replace (clean + (2 ^ k - clean `mod` 2 ^ k))
    with (clean `mod` 2 ^ k + (clean `div` 2 ^ k + 1) * 2 ^ k - clean `mod` 2 ^ k).
  - replace (clean `mod` 2 ^ k + (clean `div` 2 ^ k + 1) * 2 ^ k - clean `mod` 2 ^ k)
      with (0 + (clean `div` 2 ^ k + 1) * 2 ^ k) by lia.
    by rewrite Z_mod_plus_full.
  - pose proof (Z.div_mod clean (2 ^ k)). lia.
Qed.

End CleaningLayout.

(** From [clean_position = 0] with terms of 16 bytes, [clean_buffer(32)]
    stops at 16. *)
Lemma clean_buffer_keeps_layout_scenario :
  ∃ publication1,
    aeron_ipc_publication_clean_buffer (headers := spec_headers 0)
      dirty_publication 32 = Some publication1
    ∧ length <$> term_buffers (mapped_raw_log publication1) = [16; 16; 16]%nat.
Proof.
  destruct (aeron_ipc_publication_clean_buffer (headers := spec_headers 0)
              dirty_publication 32) as [publication1 |] eqn:Hclean;
    [| vm_compute in Hclean; discriminate].
  exists publication1. split; [reflexivity |].
  destruct (clean_buffer_keeps_layout (headers := spec_headers 0) _ _ _ Hclean)
    as (Hlayout & _).
  rewrite Hlayout. reflexivity.
Defined.

Lemma clean_buffer_stops_at_term_end_scenario :
  ∃ publication1,
    aeron_ipc_publication_clean_buffer (headers := spec_headers 0)
      dirty_publication 32 = Some publication1
    ∧ raw_term_length (mapped_raw_log dirty_publication) = 2 ^ 4
    ∧ clean_bytes_left_in_term dirty_publication <= 32 - 0
    ∧ clean_position (conductor_fields publication1) = 16
    ∧ clean_term_offset publication1 = 0.
Proof.
  destruct (aeron_ipc_publication_clean_buffer (headers := spec_headers 0)
              dirty_publication 32) as [publication1 |] eqn:Hclean;
    [| vm_compute in Hclean; discriminate].
  exists publication1. split; [reflexivity |].
  assert (Hpast : clean_bytes_left_in_term dirty_publication <= 32 - 0)
    by (vm_compute; discriminate).
  split; [reflexivity |]. split; [exact Hpast |].
  destruct (clean_buffer_stops_at_term_end (headers := spec_headers 0)
              dirty_publication publication1 32 4) as (_ & Hposition & Hoffset);
    [lia | reflexivity | by vm_compute | by vm_compute | exact Hpast | exact Hclean |].
  split; [rewrite Hposition; reflexivity | exact Hoffset].
Defined.

(** ** Advancing the publication limit *)

Lemma memset_zero_fits (buf : list byte) (start len : Z) :
  0 <= start -> 0 <= len -> start + len <= Z.of_nat (length buf) < 2 ^ 64 ->
  is_Some (memset_zero buf start len).
Proof.
  intros Hs Hl [Hfit Hsize]. unfold memset_zero.
  destruct (Z.leb_spec 0 start); [| lia].
  destruct (Z.leb_spec 0 len); [| lia].
  destruct (Z.leb_spec (start + len) (Z.of_nat (length buf))); [| lia].
  destruct (Z.ltb_spec (Z.of_nat (length buf)) (2 ^ 64)); [| lia].
  by eexists.
Qed.

Section LimitAdvance.
Context {headers : LogbufferHeaders}.

(** An effective call over a term of [2 ^ k] bytes, away from the faults
    of the function: the dirty partition is mapped with the term length and
    at least eight bytes are to be cleaned.  The call returns; in the dirty
    partition it zeroes the bytes from the offset of [clean_position] up to
    [position], capped at the end of the term, and nothing else. *)
Lemma clean_buffer_runs (publication : aeron_ipc_publication_t)
    (position k : Z) (buf : list byte) :
  let clean := clean_position (conductor_fields publication) in
  let offset := clean `mod` 2 ^ k in
  let cleaned := Z.min (position - clean) (2 ^ k - offset) in
  0 <= k <= 62 ->
  raw_term_length (mapped_raw_log publication) = 2 ^ k ->
  is_int64 position ->
  is_int64 clean ->
  position > clean ->
  8 <= cleaned ->
  array_get (term_buffers (mapped_raw_log publication))
    (clean_dirty_index publication) = Some buf ->
  Z.of_nat (length buf) = 2 ^ k ->
  ∃ buffers,
    aeron_ipc_publication_clean_buffer publication position
      = Some (set_conductor_fields
                (set_clean_position (clean + cleaned) (conductor_fields publication))
                (set_mapped_raw_log
                   (set_term_buffers buffers (mapped_raw_log publication))
                   publication))
    ∧ ∀ j i,
        term_byte (set_term_buffers buffers (mapped_raw_log publication)) j i
        = if decide (j = clean_dirty_index publication
                     ∧ offset <= i < offset + cleaned)
          then Some x00
          else term_byte (mapped_raw_log publication) j i.
Proof.
  intros clean offset cleaned Hk Hterm Hp Hc Hgt Hlen Hbuf Hsize.
  assert (Hpow : 0 < 2 ^ k) by (apply Z.pow_pos_nonneg; lia).
  assert (Hpow64 : 2 ^ k < 2 ^ 64) by (apply Z.pow_lt_mono_r; lia).
  pose proof (Z.mod_pos_bound clean (2 ^ k) Hpow) as Hmod. fold offset in Hmod.
  assert (Hoffset : clean_term_offset publication = offset).
  { unfold clean_term_offset. rewrite Hterm.
    rewrite (to_u64_small (2 ^ k - 1)) by lia.
    replace (2 ^ k - 1) with (Z.ones k) by (rewrite Z.ones_equiv; lia).
    rewrite Z.land_ones by lia. apply to_u64_mod_pow2. lia. }
  assert (Hleft : clean_bytes_left_in_term publication = 2 ^ k - offset).
  { unfold clean_bytes_left_in_term. rewrite Hoffset, Hterm.
    apply to_u64_small. lia. }
  assert (Hlength : clean_length publication position = cleaned).
  { rewrite (clean_length_min _ _ Hp Hc Hgt), Hleft. reflexivity. }
  assert (Hcap : cleaned <= 2 ^ k - offset) by (unfold cleaned; lia).
  destruct (memset_zero_fits buf (offset + 8) (cleaned - 8)) as [buf1 Hset1];
    [lia | lia | lia |].
  pose proof (memset_zero_length _ _ _ _ Hset1) as Hsize1.
  destruct (memset_zero_fits buf1 offset 8) as [buf2 Hset2];
    [lia | lia | rewrite Hsize1; lia |].
  assert (Hset : array_set (term_buffers (mapped_raw_log publication))
                   (clean_dirty_index publication) buf2
                 = Some (<[Z.to_nat (clean_dirty_index publication) := buf2]>
                           (term_buffers (mapped_raw_log publication)))).
  { unfold array_get in Hbuf. unfold array_set.
    destruct (Z.leb_spec 0 (clean_dirty_index publication)) as [Hi | Hi]; [| done].
    apply lookup_lt_Some in Hbuf.
    destruct (Z.ltb_spec (clean_dirty_index publication)
                (Z.of_nat (length (term_buffers (mapped_raw_log publication)))));
      [reflexivity | lia]. }
  eexists. split.
  - unfold aeron_ipc_publication_clean_buffer.
    destruct (Z.gtb_spec position (clean_position (conductor_fields publication)));
      [| unfold clean in Hgt; lia].
    cbv zeta. rewrite Hbuf. cbn [mbind option_bind].
    rewrite Hoffset, Hlength, (to_u64_small (cleaned - 8)) by lia.
    rewrite Hset1. cbn [mbind option_bind].
    unfold put_ordered_zero_u64. rewrite Hset2. cbn [mbind option_bind].
    rewrite Hset. cbn [mbind option_bind].
    rewrite wrap64_to_u64_add, wrap64_id; [reflexivity |].
    fold clean. unfold is_int64 in *. lia.
  - intros j i. unfold term_byte. cbn.
    rewrite (array_get_set _ _ _ _ Hset j).
    destruct (decide (j = clean_dirty_index publication)) as [-> | Hj].
    + rewrite Hbuf. cbn.
      rewrite (memset_zero_get _ _ _ _ Hset2 i), (memset_zero_get _ _ _ _ Hset1 i).
      repeat case_decide; (done || lia).
    + case_decide as Hc'; [by destruct Hc' | done].
Qed.

(** C6.  With a subscriber that is not RESTING, let [min_sub_pos] and
    [max_sub_pos] be the least and the greatest of the values held by the
    position counters of the subscribers that are not RESTING, taken from
    [INT64_MAX] and from [consumer_position].  When
    [proposed_limit = min_sub_pos + term_window_length] is above
    [trip_limit], [update_pub_lmt] returns 1 after it
    - cleaned the buffer up to [min_sub_pos]: in the partition of
      [clean_position] the bytes from the offset of [clean_position] up to
      [min_sub_pos], and not past the end of the term, are zero, every other
      byte is as before, and [clean_position] has advanced by the number of
      bytes cleared, which takes it to [min_sub_pos] when that lies in the
      term (nothing is cleared when [min_sub_pos] is not above
      [clean_position]);
    - stored [proposed_limit] to the publication limit with one ordered
      store, touching no other counter;
    - set [trip_limit = proposed_limit + trip_gain] and [consumer_position]
      to [max_sub_pos].
    The terms are [2 ^ k] bytes long, the sums do not overflow, and a call
    that has bytes to clean has at least eight of them in a partition that is
    mapped with the term length. *)
Theorem update_pub_lmt_advances (w : world)
    (publication : aeron_ipc_publication_t) (k : Z) :
  let fields := conductor_fields publication in
  let log := mapped_raw_log publication in
  let positions :=
    (fun tp => default 0 (counters w !! value_addr tp))
      <$> filter (fun tp => AERON_SUBSCRIPTION_TETHER_RESTING ≠ state tp)
            (subscribable fields) in
  let min_sub_pos := foldr Z.min INT64_MAX positions in
  let max_sub_pos := foldr Z.max (consumer_position fields) positions in
  let proposed_limit := min_sub_pos + term_window_length publication in
  let pub_lmt := pos_value_addr (pub_lmt_position publication) in
  let clean := clean_position fields in
  let dirty :=
    aeron_logbuffer_index_by_position clean (position_bits_to_shift publication) in
  let offset := clean `mod` 2 ^ k in
  let cleaned := Z.max 0 (Z.min (min_sub_pos - clean) (2 ^ k - offset)) in
  (∃ tp, tp ∈ subscribable fields
         ∧ state tp ≠ AERON_SUBSCRIPTION_TETHER_RESTING) ->
  is_int64 min_sub_pos ->
  is_int64 clean ->
  is_int64 proposed_limit ->
  is_int64 (proposed_limit + trip_gain publication) ->
  proposed_limit > trip_limit fields ->
  0 <= k <= 62 ->
  raw_term_length log = 2 ^ k ->
  (min_sub_pos > clean ->
     8 <= cleaned
     ∧ ∃ buf, array_get (term_buffers log) dirty = Some buf
              ∧ Z.of_nat (length buf) = 2 ^ k) ->
  ∃ w' publication',
    aeron_ipc_publication_update_pub_lmt w publication = Some (w', publication', 1)
    ∧ counters w' = <[pub_lmt := proposed_limit]> (counters w)
    ∧ trace w' = trace w ++ [EvCounterSetOrdered pub_lmt proposed_limit]
    ∧ trip_limit (conductor_fields publication')
        = proposed_limit + trip_gain publication
    ∧ consumer_position (conductor_fields publication') = max_sub_pos
    ∧ clean_position (conductor_fields publication') = clean + cleaned
    ∧ (min_sub_pos - clean <= 2 ^ k - offset ->
         clean_position (conductor_fields publication') = Z.max clean min_sub_pos)
    ∧ ∀ j i,
        term_byte (mapped_raw_log publication') j i
        = if decide (j = dirty ∧ offset <= i < offset + cleaned)
          then Some x00
          else term_byte log j i.
Proof.
  intros fields log positions min_sub_pos max_sub_pos proposed_limit pub_lmt
    clean dirty offset cleaned (tp & Hin & _) Hmin Hc Hproposed Htrip Hgt Hk Hterm
    Hmemory.
  assert (Hne : subscribable (conductor_fields publication) ≠ []).
  { intros Hnil. fold fields in Hnil. rewrite Hnil in Hin.
    by apply elem_of_nil in Hin. }
  assert (Hscan : scan_positions w publication = (min_sub_pos, max_sub_pos))
    by apply scan_positions_min_max.
  rewrite (update_pub_lmt_nonempty w publication Hne). cbv zeta.
  rewrite Hscan. cbn [fst snd]. unfold add64 at 1 2.
  fold proposed_limit. rewrite (wrap64_id _ Hproposed).
  destruct (Z.gtb_spec proposed_limit (trip_limit (conductor_fields publication)));
    [| unfold fields in Hgt; lia].
  destruct (decide (min_sub_pos > clean)) as [Hdirty | Hclean].
  - destruct (Hmemory Hdirty) as (Hlen & buf & Hbuf & Hsize).
    assert (Hcleaned : cleaned = Z.min (min_sub_pos - clean) (2 ^ k - offset))
      by (unfold cleaned in *; lia).
    rewrite Hcleaned in Hlen.
    destruct (clean_buffer_runs publication min_sub_pos k buf
                Hk Hterm Hmin Hc Hdirty Hlen Hbuf Hsize) as (buffers & Hrun & Hbytes).
    rewrite Hrun. cbn [mbind option_bind]. cbn.
    unfold add64. fold proposed_limit.
    rewrite (wrap64_id _ Hproposed), (wrap64_id _ Htrip).
    eexists _, _. split; [reflexivity |].
    split; [reflexivity |]. split; [reflexivity |].
    split; [reflexivity |]. split; [reflexivity |].
    split; [rewrite Hcleaned; reflexivity |].
    split; [intros Hin_term; cbn; unfold offset, clean, fields in *; lia |].
    intros j i. rewrite Hcleaned. apply Hbytes.
  - rewrite clean_buffer_noop by (fold fields clean; lia).
    cbn [mbind option_bind].
    unfold add64. fold proposed_limit.
    rewrite (wrap64_id _ Hproposed), (wrap64_id _ Htrip).
    assert (Hpow : 0 < 2 ^ k) by (apply Z.pow_pos_nonneg; lia).
    pose proof (Z.mod_pos_bound clean (2 ^ k) Hpow) as Hmod. fold offset in Hmod.
    assert (Hcleaned : cleaned = 0) by (unfold cleaned; lia).
    eexists _, _. split; [reflexivity |].
    split; [reflexivity |]. split; [reflexivity |].
    split; [reflexivity |]. split; [reflexivity |].
    split; [rewrite Hcleaned; cbn; unfold clean, fields; lia |].
    split; [intros _; cbn; unfold clean, fields in *; lia |].
    intros j i. cbn. rewrite Hcleaned.
    case_decide as Hin_range; [lia | reflexivity].
Qed.

End LimitAdvance.

(** Two tethered subscribers at 64 and 192 over dirty terms of 64 KiB, a
    window of 1024 and a trip gain of 128: the first 64 bytes of the first
    term are cleaned and no other, [clean_position] moves to 64, the limit
    becomes 1088, the trip limit 1216 and the consumer position 192.  With
    the single tethered subscriber at position 0 nothing is cleaned, the
    limit becomes 1024 and the trip limit 1152.  Both calls report one unit
    of work. *)
Lemma update_pub_lmt_advances_scenario :
  (∃ tp, tp ∈ subscribable (conductor_fields paired_publication)
         ∧ state tp ≠ AERON_SUBSCRIPTION_TETHER_RESTING)
  ∧ term_window_length paired_publication = 1024
  ∧ trip_gain paired_publication = 128
  ∧ counters paired_world !! value_addr tethered_subscriber = Some 64
  ∧ counters paired_world !! value_addr leading_subscriber = Some 192
  ∧ term_byte (mapped_raw_log paired_publication) 0 0 = Some x01
  ∧ (∃ w' publication',
      aeron_ipc_publication_update_pub_lmt (headers := spec_headers 0)
        paired_world paired_publication = Some (w', publication', 1)
      ∧ counters w' !! 1 = Some 1088
      ∧ trace w' = [EvCounterSetOrdered 1 1088]
      ∧ trip_limit (conductor_fields publication') = 1216
      ∧ consumer_position (conductor_fields publication') = 192
      ∧ clean_position (conductor_fields publication') = 64
      ∧ term_byte (mapped_raw_log publication') 0 0 = Some x00
      ∧ term_byte (mapped_raw_log publication') 0 63 = Some x00
      ∧ term_byte (mapped_raw_log publication') 0 64 = Some x01
      ∧ term_byte (mapped_raw_log publication') 1 0 = Some x01)
  ∧ counters windowed_world !! value_addr tethered_subscriber = Some 0
  ∧ ∃ w' publication',
      aeron_ipc_publication_update_pub_lmt (headers := spec_headers 0)
        windowed_world windowed_publication = Some (w', publication', 1)
      ∧ counters w' !! 1 = Some 1024
      ∧ trace w' = [EvCounterSetOrdered 1 1024]
      ∧ trip_limit (conductor_fields publication') = 1152
      ∧ clean_position (conductor_fields publication') = 0
      ∧ term_byte (mapped_raw_log publication') 0 0 = Some x01.
Proof.
  assert (Hpaired : ∃ tp, tp ∈ subscribable (conductor_fields paired_publication)
                          ∧ state tp ≠ AERON_SUBSCRIPTION_TETHER_RESTING).
  { exists tethered_subscriber. split; [apply list_elem_of_here | discriminate]. }
  assert (Hsingle : ∃ tp, tp ∈ subscribable (conductor_fields windowed_publication)
                          ∧ state tp ≠ AERON_SUBSCRIPTION_TETHER_RESTING).
  { exists tethered_subscriber. split; [apply list_elem_of_here | discriminate]. }
  split; [exact Hpaired |].
  split; [reflexivity |]. split; [reflexivity |].
  split; [reflexivity |]. split; [reflexivity |].
  split; [vm_compute; reflexivity |].
  split; [| split; [reflexivity |]].
  - destruct (update_pub_lmt_advances (headers := spec_headers 0)
                paired_world paired_publication 16 Hpaired)
      as (w' & publication' & Hrun & Hcounters & Htrace & Htrip & Hconsumer
          & Hclean & _ & Hbytes).
    + vm_compute. split; discriminate.
    + vm_compute. split; discriminate.
    + vm_compute. split; discriminate.
    + vm_compute. split; discriminate.
    + reflexivity.
    + lia.
    + reflexivity.
    + intros _. split; [vm_compute; discriminate |].
      exists (replicate (Z.to_nat 65536) x01).
      split; [reflexivity | vm_compute; reflexivity].
    + exists w', publication'.
      split; [exact Hrun |].
      split; [rewrite Hcounters; reflexivity |].
      split; [exact Htrace |]. split; [exact Htrip |].
      split; [exact Hconsumer |]. split; [exact Hclean |].
      rewrite (Hbytes 0 0), (Hbytes 0 63), (Hbytes 0 64), (Hbytes 1 0).
      repeat split; vm_compute; reflexivity.
  - destruct (update_pub_lmt_advances (headers := spec_headers 0)
                windowed_world windowed_publication 16 Hsingle)
      as (w' & publication' & Hrun & Hcounters & Htrace & Htrip & _
          & Hclean & _ & Hbytes).
    + vm_compute. split; discriminate.
    + vm_compute. split; discriminate.
    + vm_compute. split; discriminate.
    + vm_compute. split; discriminate.
    + reflexivity.
    + lia.
    + reflexivity.
    + intros Hdirty. vm_compute in Hdirty. discriminate.
    + exists w', publication'.
      split; [exact Hrun |].
      split; [rewrite Hcounters; reflexivity |].
      split; [exact Htrace |]. split; [exact Htrip |].
      split; [exact Hclean |].
      rewrite (Hbytes 0 0). vm_compute. reflexivity.
Defined.
